(** * download-video: the Flask + yt-dlp backend of [app.py]

    A shallow embedding of the pure parts of [app.py]: the filename
    sanitizer, the output-template construction of [download_video], the
    format grouping of [get_video_info], the progress cache written by
    [progress_hook] and read by [get_progress], and the exception handlers
    of [download_video].

    Python values are modelled as follows.
    - A [str] is a list of Unicode code points ([list N]); [len] is
      [length], slicing [s[:n]] is [take n].
    - A dictionary entry read with [d.get(k)] or [d.get(k, default)] is a
      [field]: the key is missing, holds [None], or holds a value.
    - Integers are [Z]; bitrates, byte counts of progress events and
      percentages are rationals ([Q]): a number is given by its value,
      and every finite float is a rational. An operation on floats
      computes the exact result and rounds it to the nearest float
      ([rnd]), as IEEE 754 does; infinities and NaN are left out.
    - Functions that can raise return a [result]; an exception caught by
      a handler of [download_video] is a value of [caught]. *)

From Stdlib Require Import ZArith NArith QArith Qround Qpower Qabs Lia Lqa.
From Stdlib Require Import Strings.String Strings.Ascii Numbers.DecimalString.
From Stdlib Require Import Numbers.DecimalPos Numbers.DecimalZ.
From Stdlib Require PrimFloat FloatOps SpecFloat Uint63.
From stdpp Require Import gmap list sorting.

Local Open Scope Z_scope.

(** ** Python values *)

Abbreviation pystr := (list N).

(** String literals of the source: the UTF-8 bytes of a Rocq string are
    decoded into code points. [more] counts the continuation bytes still
    expected and [acc] holds the bits read so far. *)
Fixpoint utf8 (acc : N) (more : nat) (s : string) : pystr :=
  match s with
  | EmptyString => []
  | String c r =>
      let b := N_of_ascii c in
      match more with
      | O =>
          if (b <? 128)%N then b :: utf8 0 0 r
          else if (b <? 224)%N then utf8 (b - 192) 1 r
          else if (b <? 240)%N then utf8 (b - 224) 2 r
          else utf8 (b - 240) 3 r
      | S O => (acc * 64 + (b - 128))%N :: utf8 0 0 r
      | S k => utf8 (acc * 64 + (b - 128)) k r
      end
  end.

Definition py (s : string) : pystr := utf8 0 0 s.

(** A dictionary entry as seen through [dict.get]. *)
Inductive field (A : Type) : Type :=
  | Missing : field A
  | PyNone : field A
  | Val : A -> field A.
Arguments Missing {A}.
Arguments PyNone {A}.
Arguments Val {A} _.

(** [d.get(k)]: [None] stands for Python's [None]. *)
Definition get {A} (f : field A) : option A :=
  match f with
  | Val a => Some a
  | _ => None
  end.

(** [d.get(k, default)]: the default only replaces a missing key. *)
Definition get_default {A} (f : field A) (default : A) : option A :=
  match f with
  | Missing => Some default
  | PyNone => None
  | Val a => Some a
  end.

(** The only exception the modelled expressions raise themselves:
    ordering or dividing [None]. *)
Inductive exn : Type :=
  | TypeError.

Inductive result (A : Type) : Type :=
  | Ok : A -> result A
  | Raise : exn -> result A.
Arguments Ok {A} _.
Arguments Raise {A} _.

(** Sequencing of computations that can raise: [x ← r; k]. *)
#[export] Instance result_ret : MRet result := fun A a => Ok a.
#[export] Instance result_bind : MBind result := fun A B k r =>
  match r with
  | Ok a => k a
  | Raise e => Raise e
  end.

(** ** String primitives *)

Module Str.

(** [str.isspace] of one code point, which is also what [\s] matches in a
    [str] pattern. *)
Definition is_space (c : N) : bool :=
  ((9 <=? c) && (c <=? 13) || (28 <=? c) && (c <=? 32)
   || (c =? 133) || (c =? 160) || (c =? 5760)
   || (8192 <=? c) && (c <=? 8202)
   || (c =? 8232) || (c =? 8233) || (c =? 8239) || (c =? 8287)
   || (c =? 12288))%N.

Fixpoint lstrip_by (p : N -> bool) (s : pystr) : pystr :=
  match s with
  | [] => []
  | c :: r => if p c then lstrip_by p r else s
  end.

(** Drops the longest suffix whose characters all satisfy [p]. *)
Fixpoint rstrip_by (p : N -> bool) (s : pystr) : pystr :=
  match s with
  | [] => []
  | c :: r =>
      match rstrip_by p r with
      | [] => if p c then [] else [c]
      | r' => c :: r'
      end
  end.

(** [s.strip()] and [s.rstrip()]. *)
Definition strip (s : pystr) : pystr := rstrip_by is_space (lstrip_by is_space s).
Definition rstrip (s : pystr) : pystr := rstrip_by is_space s.

(** [s.rstrip(chars)]. *)
Definition rstrip_chars (chars : pystr) (s : pystr) : pystr :=
  rstrip_by (fun c => bool_decide (c ∈ chars)) s.

Fixpoint startswith (s pat : pystr) : bool :=
  match pat, s with
  | [], _ => true
  | _ :: _, [] => false
  | p :: pat', c :: s' => (p =? c)%N && startswith s' pat'
  end.

(** [pat in s]. *)
Fixpoint contains (s pat : pystr) : bool :=
  startswith s pat ||
  match s with
  | [] => false
  | _ :: s' => contains s' pat
  end.

(** [s.replace(pat, rep)] for a non-empty [pat]: the occurrences are found
    from the left and do not overlap. [skip] counts the characters of a
    match that are still to be passed over. *)
Fixpoint replace_from (pat rep : pystr) (skip : nat) (s : pystr) : pystr :=
  match s with
  | [] => []
  | c :: s' =>
      match skip with
      | S k => replace_from pat rep k s'
      | O =>
          if startswith s pat
          then rep ++ replace_from pat rep (length pat - 1) s'
          else c :: replace_from pat rep 0 s'
      end
  end.

Definition replace (pat rep s : pystr) : pystr := replace_from pat rep 0 s.

End Str.

(** ** [sanitize_filename] *)

(** The character class of [invalid_chars]: the nine characters Windows
    forbids (34 is the double quote) and the control characters 0-31. *)
Definition invalid_chars (c : N) : bool :=
  ((c <=? 31) || bool_decide (c ∈ py "<>:" ++ [34%N] ++ py "/\|?*"))%N.

(** [re.sub(invalid_chars, '_', s)]. *)
Definition sub_invalid (s : pystr) : pystr :=
  map (fun c => if invalid_chars c then 95%N else c) s.

(** [re.sub(r'\s+', ' ', s)]: every maximal run of whitespace becomes one
    space; [in_run] tells that the run's space has been emitted. *)
Fixpoint sub_spaces_from (in_run : bool) (s : pystr) : pystr :=
  match s with
  | [] => []
  | c :: r =>
      if Str.is_space c
      then (if in_run then sub_spaces_from true r else 32%N :: sub_spaces_from true r)
      else c :: sub_spaces_from false r
  end.

Definition sub_spaces (s : pystr) : pystr := sub_spaces_from false s.

Definition max_length : nat := 200.

Definition sanitize_filename (filename : pystr) : pystr :=
  match filename with
  | [] => py "video"
  | _ =>
      let filename := sub_invalid filename in
      let filename := Str.strip (sub_spaces filename) in
      let filename := Str.rstrip_chars (py ". ") filename in
      let filename :=
        if (max_length <? length filename)%nat
        then Str.rstrip (take max_length filename)
        else filename in
      match filename with
      | [] => py "video"
      | _ => filename
      end
  end.

(** ** The output template of [download_video] *)

(** [os.path.join(a, b)] (posixpath): an absolute [b] replaces [a]; the
    separator is added unless [a] is empty or already ends with it. *)
Definition path_join (a b : pystr) : pystr :=
  if Str.startswith b (py "/") then b
  else if bool_decide (a = []) || bool_decide (last a = Some 47%N) then a ++ b
  else a ++ py "/" ++ b.

Definition max_title_length : nat := 150.

(** The f-strings [f'{title}.%(ext)s'] and [f'{title}_%(height)sp.%(ext)s']
    joined to the download directory. *)
Definition outtmpl_for (DOWNLOAD_DIR title : pystr) (is_audio_only : bool) : pystr :=
  if is_audio_only
  then path_join DOWNLOAD_DIR (title ++ py ".%(ext)s")
  else path_join DOWNLOAD_DIR (title ++ py "_%(height)sp.%(ext)s").

(** [outtmpl.replace('%(ext)s', 'mp4').replace('%(height)s', '1080')]. *)
Definition test_path (outtmpl : pystr) : pystr :=
  Str.replace (py "%(height)s") (py "1080")
    (Str.replace (py "%(ext)s") (py "mp4") outtmpl).

(** Lines 275-300 of [download_video]: the title kept for the later file
    search and the [outtmpl] handed to the provider. [info_title] is the
    entry [info.get('title', 'video')]; [sanitize_filename(None)] returns
    ['video'] through its first test. *)
Definition output_template (DOWNLOAD_DIR : pystr) (info_title : field pystr)
    (is_audio_only : bool) : pystr * pystr :=
  let title :=
    match get_default info_title (py "video") with
    | Some t => sanitize_filename t
    | None => py "video"
    end in
  let title :=
    if (max_title_length <? length title)%nat
    then Str.rstrip (take max_title_length title)
    else title in
  let outtmpl := outtmpl_for DOWNLOAD_DIR title is_audio_only in
  if (250 <? length (test_path outtmpl))%nat
  then
    let remaining := 250 - Z.of_nat (length DOWNLOAD_DIR) - 20 in
    let title :=
      if 0 <? remaining
      then Str.rstrip (take (Z.to_nat remaining) title)
      else py "video" in
    (title, outtmpl_for DOWNLOAD_DIR title is_audio_only)
  else (title, outtmpl).

(** The path the provider writes once the placeholders take their
    representative values. *)
Definition output_path (DOWNLOAD_DIR : pystr) (info_title : field pystr)
    (is_audio_only : bool) : pystr :=
  test_path (output_template DOWNLOAD_DIR info_title is_audio_only).2.

(** ** Floats

    A Python [float] is an IEEE 754 binary64 number: 53 significant bits
    and an exponent that keeps the last bit at [2^-1074] or above. *)

(** Rounding to the nearest integer, ties to the even one. *)
Definition round_half_even (q : Q) : Z :=
  let f := Qfloor q in
  match (q - inject_Z f ?= 1 # 2)%Q with
  | Lt => f
  | Gt => f + 1
  | Eq => if Z.even f then f else f + 1
  end.

Definition pow2 (e : Z) : Q := (2 ^ e)%Q.

(** The [k] with [2^k <= |x| < 2^(k+1)], for [x] other than zero: the
    difference of the bit lengths of numerator and denominator, or one
    less. *)
Definition binade (x : Q) : Z :=
  let k := Z.log2 (Z.abs (Qnum x)) - Z.log2 (Zpos (Qden x)) in
  if Qle_bool (pow2 k) (Qabs x) then k else k - 1.

(** The exponent of the last of the 53 bits of [x]; below [2^-1022] the
    numbers are subnormal and the last bit stays at [2^-1074]. *)
Definition exponent (x : Q) : Z := Z.max (binade x - 52) (-1074).

(** The float nearest to [x], ties to the one whose last bit is zero: the
    rounding of every float operation. Overflow is not modelled: the
    result is finite whatever [x] is. *)
Definition rnd (x : Q) : Q :=
  (inject_Z (round_half_even (x / pow2 (exponent x))) * pow2 (exponent x))%Q.

(** [a / b] and [a * b] in floats. An [int] operand is converted to a float
    first, which leaves every integer up to [2^53] as it is; the quotient
    of two [int]s is the float nearest to the exact quotient whatever
    their size. *)
Definition float_div (a b : Q) : Q := rnd (a / b).
Definition float_mul (a b : Q) : Q := rnd (a * b).

(** The floats of Rocq's kernel are binary64 numbers with the operations
    of IEEE 754, as Python's are. [float_of_Z] is [float(n)] for an integer
    below [2^63] in magnitude, [float_value] is the value of a finite float
    and [same_float] compares a float with a rational; they serve to test
    [rnd] against the kernel. *)
Definition float_of_Z (n : Z) : PrimFloat.float :=
  if n <? 0 then PrimFloat.opp (PrimFloat.of_uint63 (Uint63.of_Z (- n)))
  else PrimFloat.of_uint63 (Uint63.of_Z n).

Definition float_value (x : PrimFloat.float) : option Q :=
  match FloatOps.Prim2SF x with
  | SpecFloat.S754_zero _ => Some 0%Q
  | SpecFloat.S754_finite s m e =>
      Some (inject_Z (if s then Z.neg m else Z.pos m) * pow2 e)%Q
  | _ => None
  end.

Definition same_float (x : PrimFloat.float) (q : Q) : bool :=
  match float_value x with
  | Some v => Qeq_bool v q
  | None => false
  end.

(** [round(x, 1)] of a float [x]: its exact value rounded to one decimal,
    ties to the even digit. The result is the float nearest to that
    decimal, which is also how it prints; it is kept as the decimal. *)
Definition round1 (x : Q) : Q := Qmake (round_half_even (x * 10)) 10.

(** ** Numbers as text *)

(** [str(n)] of an integer. *)
Definition str_of_Z (n : Z) : pystr :=
  py (DecimalString.NilZero.string_of_int (Z.to_int n)).

(** [f"{x:.1f}"] of a float [x]: the exact value rounded to one decimal. *)
Definition format_1f (x : Q) : pystr :=
  let t := round_half_even (x * 10) in
  (if Qle_bool 0 x then [] else py "-")
  ++ str_of_Z (Z.abs t / 10) ++ py "." ++ str_of_Z (Z.abs t mod 10).

(** ** [format_size] *)

Definition units : list pystr := [py "B"; py "KB"; py "MB"; py "GB"].

(** The [while] loop of [format_size]; it runs at most [len(units) - 1]
    times, which is the fuel given by [format_size]. *)
Fixpoint format_size_loop (fuel : nat) (size : Q) (unit_index : nat) : Q * nat :=
  match fuel with
  | O => (size, unit_index)
  | S fuel' =>
      if Qle_bool 1024 size && (unit_index <? length units - 1)%nat
      then format_size_loop fuel' (float_div size 1024) (S unit_index)
      else (size, unit_index)
  end.

(** [size = float(bytes_size)] is the float nearest to the integer. For an
    integer of [2^1024] or more [float] raises [OverflowError]; sizes are
    taken below that. *)
Definition format_size (bytes_size : Z) : pystr :=
  if bytes_size =? 0 then py "0 B"
  else
    let '(size, unit_index) :=
      format_size_loop (length units - 1) (rnd (inject_Z bytes_size)) 0 in
    format_1f size ++ py " " ++ default [] (units !! unit_index).

(** ** The format list of [get_video_info] *)

(** A stream descriptor of the provider, [f] in [info.get('formats', [])]. *)
Record format : Type := {
  f_vcodec : field pystr;
  f_acodec : field pystr;
  f_height : field Z;
  f_format_id : field pystr;
  f_ext : field pystr;
  f_filesize : field Z;
  f_filesize_approx : field Z;
  f_vbr : field Q;
  f_tbr : field Q
}.

(** The dictionaries built by [get_video_info]. Every one has the first
    seven keys; [vbr] is [None] once the key has been removed and
    [audio_only] is [None] where the key was never set. In [format_id],
    [ext] and [filesize], [None] is Python's [None]. *)
Record fmt : Type := {
  format_id : option pystr;
  quality : pystr;
  height : Z;
  ext : option pystr;
  filesize : option Z;
  filesize_str : pystr;
  has_audio : bool;
  vbr : option Q;
  audio_only : option bool
}.

(** [f.get('filesize') or f.get('filesize_approx', 0)]. *)
Definition filesize_of (f : format) : option Z :=
  match get (f_filesize f) with
  | Some z => if z =? 0 then get_default (f_filesize_approx f) 0 else Some z
  | None => get_default (f_filesize_approx f) 0
  end.

Definition truthy (q : option Q) : bool :=
  match q with
  | Some q => negb (Qeq_bool q 0)
  | None => false
  end.

(** [f.get('vbr') or f.get('tbr') or 0]. *)
Definition vbr_of (f : format) : Q :=
  if truthy (get (f_vbr f)) then default 0%Q (get (f_vbr f))
  else if truthy (get (f_tbr f)) then default 0%Q (get (f_tbr f))
  else 0%Q.

(** The dictionary stored for a descriptor of height [h]. *)
Definition entry_of (f : format) (h : Z) : fmt :=
  let filesize := filesize_of f in
  {| format_id := get (f_format_id f);
     quality := str_of_Z h ++ py "p";
     height := h;
     ext := get_default (f_ext f) (py "mp4");
     filesize := filesize;
     filesize_str :=
       match filesize with
       | Some z => if z =? 0 then py "Tamanho desconhecido" else format_size z
       | None => py "Tamanho desconhecido"
       end;
     has_audio := negb (bool_decide (get (f_acodec f) = Some (py "none")));
     vbr := Some (vbr_of f);
     audio_only := None |}.

(** [formats_by_height]: a dictionary in insertion order. *)
Abbreviation by_height := (list (Z * fmt)).

Fixpoint dict_get (k : Z) (d : by_height) : option fmt :=
  match d with
  | [] => None
  | (k', v) :: r => if k =? k' then Some v else dict_get k r
  end.

(** [d[k] = v]: an existing key keeps its place, a new one goes last. *)
Fixpoint dict_set (k : Z) (v : fmt) (d : by_height) : by_height :=
  match d with
  | [] => [(k, v)]
  | (k', v') :: r => if k =? k' then (k, v) :: r else (k', v') :: dict_set k v r
  end.

(** [a > b] on file sizes: ordering [None] raises. *)
Definition size_gt (a b : option Z) : result bool :=
  match a, b with
  | Some x, Some y => Ok (y <? x)
  | _, _ => Raise TypeError
  end.

(** The test of line 160,
    [vbr > existing.get('vbr', 0) or
     (filesize > existing.get('filesize', 0) and vbr >= existing.get('vbr', 0))];
    the sizes are compared only when the first disjunct is false. *)
Definition replaces (new existing : fmt) : result bool :=
  let v := default 0%Q (vbr new) in
  let ev := default 0%Q (vbr existing) in
  if negb (Qle_bool v ev) then Ok true
  else
    bigger ← size_gt (filesize new) (filesize existing);
    Ok (bigger && Qle_bool ev v).

(** One iteration of the loop of lines 131-170. *)
Definition group_step (d : by_height) (f : format) : result by_height :=
  if bool_decide (get (f_vcodec f) = Some (py "none")) then Ok d
  else
    match get (f_height f) with
    | None => Ok d
    | Some h =>
        if h =? 0 then Ok d
        else
          match dict_get h d with
          | None => Ok (dict_set h (entry_of f h) d)
          | Some existing =>
              b ← replaces (entry_of f h) existing;
              Ok (if b : bool then dict_set h (entry_of f h) d else d)
          end
    end.

Fixpoint group_formats (d : by_height) (formats : list format) : result by_height :=
  match formats with
  | [] => Ok d
  | f :: rest => d' ← group_step d f; group_formats d' rest
  end.

(** [formats.sort(key=lambda x: x['height'], reverse=True)]: a stable sort,
    equal heights keep their order. *)
Fixpoint insert_desc (x : fmt) (l : list fmt) : list fmt :=
  match l with
  | [] => [x]
  | y :: r => if height y <=? height x then x :: l else y :: insert_desc x r
  end.

Definition sort_desc (l : list fmt) : list fmt := foldr insert_desc [] l.

Definition target_heights : list Z := [2160; 1440; 1080; 720; 480; 360; 240].

(** [{k: v for k, v in f.items() if k != 'vbr'}]. *)
Definition without_vbr (f : fmt) : fmt :=
  {| format_id := format_id f; quality := quality f; height := height f;
     ext := ext f; filesize := filesize f; filesize_str := filesize_str f;
     has_audio := has_audio f; vbr := None; audio_only := audio_only f |}.

(** The loops of lines 180-186: for each target the first format of that
    height, if any. *)
Fixpoint select_targets (targets : list Z) (formats : list fmt) : list fmt :=
  match targets with
  | [] => []
  | target :: rest =>
      match find (fun f => height f =? target) formats with
      | Some f => without_vbr f :: select_targets rest formats
      | None => select_targets rest formats
      end
  end.

Definition audio_option : fmt :=
  {| format_id := Some (py "bestaudio");
     quality := py "Apenas Áudio";
     height := 0;
     ext := Some (py "mp3");
     filesize := Some 0;
     filesize_str := py "MP3";
     has_audio := true;
     vbr := None;
     audio_only := Some true |}.

(** Lines 129-198: from [info.get('formats', [])] to [final_formats]. *)
Definition final_formats (formats : list format) : result (list fmt) :=
  d ← group_formats [] formats;
  Ok (select_targets target_heights (sort_desc d.*2) ++ [audio_option]).

(** ** The progress cache: [download_progress], [progress_hook], [get_progress] *)

(** A value of [download_progress]. [speed] and [eta] are [Missing] in the
    dictionaries that have only the keys [status] and [percent]. A
    [percent] written by the hook is a float with one decimal, held as
    that decimal. *)
Record progress : Type := {
  status : pystr;
  percent : Q;
  speed : field Q;
  eta : field Q
}.

(** The argument [d] of [progress_hook]. [d_info_dict] is [None] when [d]
    has no ['info_dict'], and otherwise the ['id'] entry of that
    dictionary. *)
Record hook_event : Type := {
  d_status : pystr;
  d_info_dict : option (field pystr);
  d_total_bytes : field Q;
  d_total_bytes_estimate : field Q;
  d_downloaded_bytes : field Q;
  d_speed : field Q;
  d_eta : field Q
}.

(** Keys of [download_progress]: a provider id, which [info.get('id')] may
    report as [None]. *)
Abbreviation video_key := (option pystr).
Abbreviation cache := (gmap (option pystr) progress).

(** [d.get('info_dict', {}).get('id', 'unknown')]. *)
Definition hook_video_id (d : hook_event) : video_key :=
  match d_info_dict d with
  | None => Some (py "unknown")
  | Some id => get_default id (py "unknown")
  end.

(** [d.get('total_bytes') or d.get('total_bytes_estimate', 0)]. *)
Definition hook_total (d : hook_event) : option Q :=
  if truthy (get (d_total_bytes d)) then get (d_total_bytes d)
  else get_default (d_total_bytes_estimate d) 0%Q.

(** [d.get('downloaded_bytes', 0)]. *)
Definition hook_downloaded (d : hook_event) : option Q :=
  get_default (d_downloaded_bytes d) 0%Q.

(** A value read with a default, as it is stored in a dictionary. *)
Definition stored {A} (v : option A) : field A :=
  match v with
  | Some a => Val a
  | None => PyNone
  end.

(** [progress_hook(d)]: the cache after the call, or the exception that
    leaves the cache as it was. *)
Definition progress_hook (d : hook_event) (download_progress : cache) : result cache :=
  if bool_decide (d_status d = py "downloading") then
    let video_id := hook_video_id d in
    match hook_total d with
    | None => Raise TypeError
    | Some total =>
        if negb (Qle_bool total 0) then
          match hook_downloaded d with
          | None => Raise TypeError
          | Some downloaded =>
              let percent := float_mul (float_div downloaded total) 100 in
              Ok (<[video_id :=
                     {| status := py "downloading";
                        percent := round1 percent;
                        speed := stored (get_default (d_speed d) 0%Q);
                        eta := stored (get_default (d_eta d) 0%Q) |}]>
                    download_progress)
          end
        else Ok download_progress
    end
  else if bool_decide (d_status d = py "finished") then
    let video_id := hook_video_id d in
    Ok (<[video_id :=
           {| status := py "finished"; percent := 100; speed := Missing; eta := Missing |}]>
          download_progress)
  else Ok download_progress.

(** Line 277 of [download_video]. *)
Definition create (video_id : video_key) (download_progress : cache) : cache :=
  <[video_id :=
     {| status := py "starting"; percent := 0; speed := Missing; eta := Missing |}]>
    download_progress.

Definition unknown_progress : progress :=
  {| status := py "unknown"; percent := 0; speed := Missing; eta := Missing |}.

(** [get_progress(video_id)]; the route passes a [str]. *)
Definition get_progress (download_progress : cache) (video_id : pystr) : progress :=
  default unknown_progress (download_progress !! Some video_id).

(** What writes to the cache: line 277 and the calls of the hook. *)
Inductive write : Type :=
  | Create (video_id : video_key)
  | Hook (d : hook_event).

Definition apply_write (download_progress : cache) (w : write) : cache :=
  match w with
  | Create video_id => create video_id download_progress
  | Hook d =>
      match progress_hook d download_progress with
      | Ok c => c
      | Raise _ => download_progress
      end
  end.

Definition run (ws : list write) (download_progress : cache) : cache :=
  foldl apply_write download_progress ws.

(** ** The end of [download_video]: file lookup and exception handlers *)

Inductive json : Type :=
  | JsonError (error : pystr)
  | JsonSuccess (video_id : video_key) (filename message : pystr).

(** A body and its HTTP status. *)
Abbreviation response := (json * Z)%type.

(** An exception as the handlers see it: its class, [e.errno] for an
    [OSError], and [str(e)]. *)
Inductive caught : Type :=
  | DownloadError (str_e : pystr)
  | OSError (errno : option Z) (str_e : pystr)
  | OtherException (str_e : pystr).

(** [os.path.basename]: what follows the last separator. *)
Fixpoint basename (p : pystr) : pystr :=
  match p with
  | [] => []
  | c :: r => if bool_decide (47%N ∈ p) then basename r else p
  end.

(** The loop of lines 307-311 over [os.listdir(DOWNLOAD_DIR)]. *)
Definition find_downloaded (DOWNLOAD_DIR : pystr) (listdir : list pystr)
    (title : pystr) : option pystr :=
  path_join DOWNLOAD_DIR <$> find (fun f => Str.contains f (take 30 title)) listdir.

(** Lines 306-321; [path_exists] is [os.path.exists]. *)
Definition download_result (DOWNLOAD_DIR : pystr) (listdir : list pystr)
    (path_exists : pystr -> bool) (video_id : video_key) (title : pystr) : response :=
  match find_downloaded DOWNLOAD_DIR listdir title with
  | Some downloaded_file =>
      if bool_decide (downloaded_file ≠ []) && path_exists downloaded_file
      then (JsonSuccess video_id (basename downloaded_file) (py "Download concluído!"), 200)
      else (JsonError (py "Arquivo não encontrado após download"), 500)
  | None => (JsonError (py "Arquivo não encontrado após download"), 500)
  end.

Definition invalid_argument (error_msg : pystr) : bool :=
  Str.contains error_msg (py "Invalid argument")
  || Str.contains error_msg (py "Errno 22").

(** The three [except] clauses of lines 323-345. *)
Definition download_except (e : caught) : response :=
  match e with
  | DownloadError error_msg =>
      if invalid_argument error_msg
      then (JsonError (py "Erro ao salvar arquivo: nome do arquivo inválido. Tente novamente ou escolha outro vídeo."), 400)
      else (JsonError (py "Erro no download: " ++ error_msg), 400)
  | OSError errno str_e =>
      if bool_decide (errno = Some 22)
      then (JsonError (py "Erro ao salvar arquivo: nome do arquivo contém caracteres inválidos. Tente novamente."), 400)
      else (JsonError (py "Erro do sistema: " ++ str_e), 500)
  | OtherException error_msg =>
      if invalid_argument error_msg
      then (JsonError (py "Erro ao salvar arquivo: nome inválido. Tente novamente."), 400)
      else (JsonError (py "Erro interno: " ++ error_msg), 500)
  end.

(** What the provider did when asked to download: it returned, leaving
    [listdir] in the download directory, or raised. *)
Inductive provider_outcome : Type :=
  | Downloaded (listdir : list pystr)
  | Raised (e : caught).

(** Lines 302-345: the response of [download_video] once the title and the
    id are known. *)
Definition download_response (DOWNLOAD_DIR : pystr) (path_exists : pystr -> bool)
    (video_id : video_key) (title : pystr) (o : provider_outcome) : response :=
  match o with
  | Downloaded listdir => download_result DOWNLOAD_DIR listdir path_exists video_id title
  | Raised e => download_except e
  end.

(** ** Predicates used in the statements *)

(** Strictly decreasing heights. *)
Definition descending (hs : list Z) : Prop :=
  StronglySorted (fun a b => b < a) hs.

(** The descriptor passes the filters of lines 133-138 with height [h]. *)
Definition survives (f : format) (h : Z) : Prop :=
  get (f_vcodec f) <> Some (py "none") /\ get (f_height f) = Some h /\ h <> 0.

(** Order of file sizes; [None] is comparable only with itself. *)
Definition size_le (a b : option Z) : Prop :=
  match a, b with
  | Some x, Some y => x <= y
  | None, None => True
  | _, _ => False
  end.

(** What [or] skips: a number that is absent, [None] or zero. *)
Definition falsy (x : field Q) : Prop :=
  x = Missing \/ x = PyNone \/ exists q, x = Val q /\ (q == 0)%Q.

(** The bitrate a descriptor is ranked by: its video bitrate [vbr]; the
    overall bitrate [tbr] when [vbr] is absent, [None] or zero; 0 when
    both are. *)
Definition has_bitrate (f : format) (b : Q) : Prop :=
  (f_vbr f = Val b /\ ~ (b == 0)%Q)
  \/ (falsy (f_vbr f) /\ f_tbr f = Val b /\ ~ (b == 0)%Q)
  \/ (falsy (f_vbr f) /\ falsy (f_tbr f) /\ b = 0%Q).

(** The file size of a descriptor: [filesize]; [filesize_approx] when
    [filesize] is absent, [None] or zero; 0 when there is neither. *)
Definition has_size (f : format) (s : Z) : Prop :=
  (f_filesize f = Val s /\ s <> 0)
  \/ ((f_filesize f = Missing \/ f_filesize f = PyNone \/ f_filesize f = Val 0)
      /\ (f_filesize_approx f = Val s
          \/ (f_filesize_approx f = Missing /\ s = 0))).

(** [r] has a bitrate at least that of [f], and a file size at least that
    of [f] when the bitrates are equal. *)
Definition no_better (f r : format) : Prop :=
  (vbr_of f <= vbr_of r)%Q
  /\ ((vbr_of f == vbr_of r)%Q -> size_le (filesize_of f) (filesize_of r)).

(** [d] is the dictionary of the best descriptor per height among [seen]. *)
Record grouped (seen : list format) (d : by_height) : Prop := {
  grouped_keys : NoDup d.*1;
  grouped_entry : forall h e, dict_get h d = Some e ->
    exists r, r ∈ seen /\ survives r h /\ e = entry_of r h
              /\ forall f, f ∈ seen -> survives f h -> no_better f r;
  grouped_all : forall f h, f ∈ seen -> survives f h -> is_Some (dict_get h d)
}.

(** Every whitespace character is a single space followed by a
    non-whitespace character or by the end. *)
Fixpoint spaced (s : pystr) : Prop :=
  match s with
  | [] => True
  | c :: r =>
      (Str.is_space c = true ->
       c = 32%N /\ forall c', head r = Some c' -> Str.is_space c' = false)
      /\ spaced r
  end.

(** The shape of every string that [sanitize_filename] returns. *)
Record clean (t : pystr) : Prop := {
  clean_valid : Forall (fun c => invalid_chars c = false) t;
  clean_spaced : spaced t;
  clean_head : forall c, head t = Some c -> Str.is_space c = false;
  clean_last : forall c, last t = Some c -> Str.is_space c = false;
  clean_length : (length t <= max_length)%nat;
  clean_nonempty : t <> []
}.

(** The stored percentage lies between 0 and 100. *)
Definition in_range (p : progress) : Prop :=
  (0 <= percent p)%Q /\ (percent p <= 100)%Q.

(** A progress event whose byte counts are consistent: with a positive
    total, the downloaded count is between zero and the total. *)
Definition well_reported (w : write) : Prop :=
  match w with
  | Create _ => True
  | Hook d =>
      forall total downloaded,
        hook_total d = Some total -> hook_downloaded d = Some downloaded ->
        (0 < total)%Q -> (0 <= downloaded)%Q /\ (downloaded <= total)%Q
  end.

(** The key a write is made under. *)
Definition write_key (w : write) : video_key :=
  match w with
  | Create video_id => video_id
  | Hook d => hook_video_id d
  end.

(** The event carries no media identifier: no ['info_dict'], or one
    without ['id']. *)
Definition idless (d : hook_event) : Prop :=
  d_info_dict d = None \/ d_info_dict d = Some Missing.

(** The total byte count an event reports: [total_bytes], or
    [total_bytes_estimate] when [total_bytes] is absent, [None] or zero. *)
Definition reports_total (d : hook_event) (total : Q) : Prop :=
  (d_total_bytes d = Val total /\ ~ (total == 0)%Q)
  \/ (falsy (d_total_bytes d) /\ d_total_bytes_estimate d = Val total).

(** The downloaded byte count it reports: 0 when it has none. *)
Definition reports_downloaded (d : hook_event) (downloaded : Q) : Prop :=
  d_downloaded_bytes d = Val downloaded
  \/ (d_downloaded_bytes d = Missing /\ downloaded = 0%Q).

(** The entry keeps a number of the event as the event has it, [None]
    included, and 0 when the event does not have it. *)
Definition kept (x v : field Q) : Prop :=
  match x with
  | Missing => v = Val 0%Q
  | _ => v = x
  end.

(** The values of the finite floats: an integer of at most 53 bits times a
    power of two. Every integer up to [2^53] is one. *)
Definition binary64 (x : Q) : Prop :=
  exists m e : Z,
    Z.abs m < 2 ^ 53 /\ -1074 <= e <= 971 /\ (x == inject_Z m * pow2 e)%Q.

(** The events on which [progress_hook] stores an entry. *)
Definition updates (d : hook_event) : Prop :=
  d_status d = py "finished"
  \/ (d_status d = py "downloading"
      /\ exists total downloaded,
           hook_total d = Some total /\ (0 < total)%Q
           /\ hook_downloaded d = Some downloaded).

(** [pat] occurs in [s]. *)
Definition occurs_in (pat s : pystr) : Prop :=
  exists before after, s = before ++ pat ++ after.

(** ** Sample inputs *)

(** 199 letters, a period and one more letter: 201 characters. *)
Definition long_dotted : pystr := replicate 199 97%N ++ py ".b".

(** A title of 10,000 characters. *)
Definition long_title : pystr := replicate (100 * 100) 120%N.

(** A download directory of 235 characters. *)
Definition deep_dir : pystr := py "/" ++ replicate 224 97%N ++ py "/downloads".

(** A video-only descriptor of the given height, bitrate and id. *)
Definition video_format (h : Z) (bitrate : Z) (id : string) : format :=
  {| f_vcodec := Val (py "avc1"); f_acodec := Val (py "none");
     f_height := Val h; f_format_id := Val (py id); f_ext := Val (py "mp4");
     f_filesize := PyNone; f_filesize_approx := Missing;
     f_vbr := Val (inject_Z bitrate); f_tbr := Missing |}.

(** Heights [1080, 1080, 720, 360] with bitrates [5000, 8000, 3000, 1000]. *)
Definition scenario : list format :=
  [video_format 1080 5000 "137"; video_format 1080 8000 "299";
   video_format 720 3000 "136"; video_format 360 1000 "134"].

(** Three descriptors of 1080 lines and two of 720, named after their
    format ids. At 1080 the second has no [vbr] and is ranked by its [tbr],
    which ties with the [vbr] of the third, the larger file; at 720 the
    second has a [vbr] of zero and is ranked by its [tbr]. *)
Definition itag_137 : format :=
  {| f_vcodec := Val (py "avc1"); f_acodec := Val (py "none");
     f_height := Val 1080; f_format_id := Val (py "137"); f_ext := Val (py "mp4");
     f_filesize := Val 100000000; f_filesize_approx := Missing;
     f_vbr := Val 5000%Q; f_tbr := Val 5000%Q |}.

Definition itag_248 : format :=
  {| f_vcodec := Val (py "vp9"); f_acodec := Val (py "none");
     f_height := Val 1080; f_format_id := Val (py "248"); f_ext := Val (py "webm");
     f_filesize := PyNone; f_filesize_approx := Val 300000000;
     f_vbr := Missing; f_tbr := Val 8000%Q |}.

Definition itag_299 : format :=
  {| f_vcodec := Val (py "avc1"); f_acodec := Val (py "none");
     f_height := Val 1080; f_format_id := Val (py "299"); f_ext := Val (py "mp4");
     f_filesize := Val 500000000; f_filesize_approx := Missing;
     f_vbr := Val 8000%Q; f_tbr := Val 8200%Q |}.

Definition itag_136 : format :=
  {| f_vcodec := Val (py "avc1"); f_acodec := Val (py "none");
     f_height := Val 720; f_format_id := Val (py "136"); f_ext := Val (py "mp4");
     f_filesize := Val 50000000; f_filesize_approx := Missing;
     f_vbr := Val 1000%Q; f_tbr := Missing |}.

Definition itag_22 : format :=
  {| f_vcodec := Val (py "avc1"); f_acodec := Val (py "mp4a");
     f_height := Val 720; f_format_id := Val (py "22"); f_ext := Missing;
     f_filesize := Missing; f_filesize_approx := Val 75000000;
     f_vbr := Val 0%Q; f_tbr := Val 3000%Q |}.

Definition tied : list format :=
  [itag_137; itag_248; itag_299; itag_136; itag_22].

(** An entry of a returned list: the dictionary of lines 147-156 without
    its [vbr]. *)
Definition returned (id label : string) (h : Z) (extension : string)
    (size : Z) (size_str : string) (audio : bool) : fmt :=
  {| format_id := Some (py id); quality := py label; height := h;
     ext := Some (py extension); filesize := Some size;
     filesize_str := py size_str; has_audio := audio;
     vbr := None; audio_only := None |}.

(** Two descriptors of one height and bitrate whose sizes are [None]. *)
Definition unsized : list format :=
  [ {| f_vcodec := Val (py "vp9"); f_acodec := Val (py "none");
       f_height := Val 720; f_format_id := Val (py "247"); f_ext := Val (py "webm");
       f_filesize := PyNone; f_filesize_approx := PyNone;
       f_vbr := Val 1500%Q; f_tbr := Val 1500%Q |};
    {| f_vcodec := Val (py "avc1"); f_acodec := Val (py "none");
       f_height := Val 720; f_format_id := Val (py "136"); f_ext := Val (py "mp4");
       f_filesize := PyNone; f_filesize_approx := PyNone;
       f_vbr := Val 1500%Q; f_tbr := Val 1500%Q |} ].

(** A progress event reporting 150 bytes of an estimated 100. *)
Definition overshoot : hook_event :=
  {| d_status := py "downloading";
     d_info_dict := Some (Val (py "dQw4w9WgXcQ"));
     d_total_bytes := PyNone;
     d_total_bytes_estimate := Val 100%Q;
     d_downloaded_bytes := Val 150%Q;
     d_speed := Val 2048%Q;
     d_eta := PyNone |}.

(** A progress event of a download with an id: 23 bytes of an estimated
    80, at a known speed and an unknown remaining time. *)
Definition estimated : hook_event :=
  {| d_status := py "downloading";
     d_info_dict := Some (Val (py "dQw4w9WgXcQ"));
     d_total_bytes := PyNone;
     d_total_bytes_estimate := Val 80%Q;
     d_downloaded_bytes := Val 23%Q;
     d_speed := Val 2048%Q;
     d_eta := PyNone |}.

(** Two progress events without an id, of two different downloads. *)
Definition anonymous_half : hook_event :=
  {| d_status := py "downloading";
     d_info_dict := None;
     d_total_bytes := Val 2000%Q;
     d_total_bytes_estimate := Missing;
     d_downloaded_bytes := Val 1000%Q;
     d_speed := Val 512%Q;
     d_eta := Val 2%Q |}.

Definition anonymous_finished : hook_event :=
  {| d_status := py "finished";
     d_info_dict := Some Missing;
     d_total_bytes := Val 300%Q;
     d_total_bytes_estimate := Missing;
     d_downloaded_bytes := Val 300%Q;
     d_speed := Missing;
     d_eta := Missing |}.

(** * The other functions of [app.py] *)

(** ** [format_duration] *)

(** [f"{n:02d}"]: the decimal text, with a zero in front when it has a
    single character. *)
Definition pad2 (n : Z) : pystr :=
  let s := str_of_Z n in
  if (length s <? 2)%nat then py "0" ++ s else s.

(** [format_duration(seconds)] for an integer or [None]; [//] and [%] round
    towards minus infinity, as [Z.div] and [Z.modulo] do. *)
Definition format_duration (seconds : option Z) : pystr :=
  match seconds with
  | None => py "00:00"
  | Some seconds =>
      if seconds =? 0 then py "00:00"
      else
        let hours := seconds / 3600 in
        let minutes := (seconds mod 3600) / 60 in
        let secs := seconds mod 60 in
        if 0 <? hours
        then pad2 hours ++ py ":" ++ pad2 minutes ++ py ":" ++ pad2 secs
        else pad2 minutes ++ py ":" ++ pad2 secs
  end.

(** ** The format selector of [download_video] *)

(** Line 262, the f-string around [quality.replace("p", "")]. *)
Definition format_str (quality : pystr) : pystr :=
  py "bestvideo[height<=" ++ Str.replace (py "p") [] quality
  ++ py "]+bestaudio/best[height<=" ++ Str.replace (py "p") [] quality
  ++ py "]/best".

(** ** [serve_file] *)

Inductive file_response : Type :=
  | Attachment (filepath download_name : pystr)
  | FileError (error : pystr) (status : Z).

(** [path_exists] is [os.path.exists]; [send_file] is [None] when Flask
    sends the file and [str(e)] when it raises. *)
Definition serve_file (DOWNLOAD_DIR : pystr) (path_exists : pystr -> bool)
    (send_file : pystr -> option pystr) (filename : pystr) : file_response :=
  let filepath := path_join DOWNLOAD_DIR filename in
  if path_exists filepath
  then
    match send_file filepath with
    | None => Attachment filepath filename
    | Some str_e => FileError str_e 500
    end
  else FileError (py "Arquivo não encontrado") 404.

(** ** [cleanup_files] *)

(** What a name of the download directory stands for: a regular file that
    [os.remove] deletes, a regular file on which [os.remove] raises with
    the given text, or something [os.path.isfile] rejects. *)
Inductive node : Type :=
  | RegularFile
  | Unremovable (str_e : pystr)
  | NotAFile.

(** [os.path.isfile]. *)
Definition isfile (n : node) : bool :=
  match n with
  | NotAFile => false
  | _ => true
  end.

(** The download directory, in the order of [os.listdir]. *)
Abbreviation directory := (list (pystr * node)).

Inductive cleanup_response : Type :=
  | CleanupMessage (message : pystr)
  | CleanupError (error : pystr) (status : Z).

(** The loop of lines 376-380: the directory it leaves and the count, or
    the text of the exception that stopped it. *)
Fixpoint cleanup_loop (entries : directory) (count : Z) : directory * (Z + pystr) :=
  match entries with
  | [] => ([], inl count)
  | (f, RegularFile) :: rest => cleanup_loop rest (count + 1)
  | (f, Unremovable str_e) :: rest => ((f, Unremovable str_e) :: rest, inr str_e)
  | (f, NotAFile) :: rest =>
      let '(remaining, outcome) := cleanup_loop rest count in
      ((f, NotAFile) :: remaining, outcome)
  end.

Definition cleanup_files (entries : directory) : directory * cleanup_response :=
  match cleanup_loop entries 0 with
  | (remaining, inl count) =>
      (remaining, CleanupMessage (str_of_Z count ++ py " arquivos removidos"))
  | (remaining, inr str_e) => (remaining, CleanupError str_e 500)
  end.

(** ** The provider *)

(** What a call of the provider does: it returns a value or raises. *)
Inductive attempt (A : Type) : Type :=
  | Returns (a : A)
  | Raises (e : caught).
Arguments Returns {A} _.
Arguments Raises {A} _.

(** The dictionary [info] returned by [extract_info]. *)
Record video_info : Type := {
  i_id : field pystr;
  i_title : field pystr;
  i_thumbnail : field pystr;
  i_duration : field Z;
  i_channel : field pystr;
  i_uploader : field pystr;
  i_view_count : field Z;
  i_formats : field (list format)
}.

(** The options [download_video] hands to the provider; the constant
    entries of [get_ydl_opts_base] and the hook are left out. *)
Record ydl_opts : Type := {
  o_format : pystr;
  o_outtmpl : pystr;
  o_merge_output_format : option pystr;
  o_postprocessors : list (pystr * pystr * pystr)
}.

(** [extract_info(url, download=False)], given the ['extract_flat'] option
    if it is set, and [download([url])], which reports the events it sends
    to the hook and how it ends. *)
Record provider : Type := {
  extract_info : option bool -> pystr -> attempt video_info;
  download : ydl_opts -> pystr -> list hook_event * provider_outcome
}.

(** ** [get_video_info] *)

(** The dictionary [result] of lines 200-209. *)
Record info_json : Type := {
  r_id : option pystr;
  r_title : option pystr;
  r_thumbnail : option pystr;
  r_duration : option Z;
  r_duration_str : pystr;
  r_channel : option pystr;
  r_view_count : option Z;
  r_formats : list fmt
}.

Inductive info_body : Type :=
  | InfoResult (result : info_json)
  | InfoError (error : pystr).

(** [a or b] on strings that may be [None]. *)
Definition or_else (a b : option pystr) : option pystr :=
  match a with
  | Some (_ :: _) => a
  | _ => b
  end.

(** [get_video_info] on a request whose JSON body has [url] as its ['url']
    entry. [type_error] is the interpreter's text for the [TypeError] of
    the size comparison. *)
Definition get_video_info (p : provider) (type_error : pystr) (url : field pystr)
    : info_body * Z :=
  match get_default url [] with
  | None =>
      (InfoError (py "Erro interno: 'NoneType' object has no attribute 'strip'"), 500)
  | Some url =>
      match Str.strip url with
      | [] => (InfoError (py "URL não fornecida"), 400)
      | url =>
          match extract_info p (Some false) url with
          | Raises (DownloadError str_e) =>
              (InfoError (py "Erro ao obter informações: " ++ str_e), 400)
          | Raises (OSError _ str_e) | Raises (OtherException str_e) =>
              (InfoError (py "Erro interno: " ++ str_e), 500)
          | Returns info =>
              match get_default (i_formats info) [] with
              | None =>
                  (InfoError (py "Erro interno: 'NoneType' object is not iterable"), 500)
              | Some formats =>
                  match final_formats formats with
                  | Raise TypeError => (InfoError (py "Erro interno: " ++ type_error), 500)
                  | Ok final =>
                      (InfoResult
                         {| r_id := get (i_id info);
                            r_title := get (i_title info);
                            r_thumbnail := get (i_thumbnail info);
                            r_duration := get (i_duration info);
                            r_duration_str := format_duration (get_default (i_duration info) 0);
                            r_channel := or_else (get (i_channel info)) (get (i_uploader info));
                            r_view_count := get_default (i_view_count info) 0;
                            r_formats := final |}, 200)
                  end
              end
          end
      end
  end.

(** ** [download_video] *)

(** The JSON body of a download request. *)
Record download_request : Type := {
  q_url : field pystr;
  q_format_id : field pystr;
  q_quality : field pystr;
  q_audio_only : field bool
}.

(** The options of lines 248-268 with the [outtmpl] of lines 286-300. *)
Definition audio_opts (outtmpl : pystr) : ydl_opts :=
  {| o_format := py "bestaudio/best";
     o_outtmpl := outtmpl;
     o_merge_output_format := None;
     o_postprocessors := [(py "FFmpegExtractAudio", py "mp3", py "320")] |}.

Definition video_opts (quality outtmpl : pystr) : ydl_opts :=
  {| o_format := format_str quality;
     o_outtmpl := outtmpl;
     o_merge_output_format := Some (py "mp4");
     o_postprocessors := [] |}.

(** [download_video] on a request whose JSON body is [data]: the cache it
    leaves and its response. The events of the provider are the calls of
    [progress_hook] made during [ydl.download]. *)
Definition download_video (DOWNLOAD_DIR : pystr) (p : provider)
    (path_exists : pystr -> bool) (data : download_request)
    (download_progress : cache) : cache * response :=
  match get_default (q_url data) [] with
  | None =>
      (download_progress,
       download_except (OtherException (py "'NoneType' object has no attribute 'strip'")))
  | Some url =>
      match Str.strip url with
      | [] => (download_progress, (JsonError (py "URL não fornecida"), 400))
      | url =>
          let is_audio_only := default false (get_default (q_audio_only data) false) in
          let opts :=
            if is_audio_only then Some audio_opts
            else video_opts <$> get_default (q_quality data) (py "best") in
          match opts with
          | None =>
              (download_progress,
               download_except
                 (OtherException (py "'NoneType' object has no attribute 'replace'")))
          | Some opts =>
              match extract_info p None url with
              | Raises e => (download_progress, download_except e)
              | Returns info =>
                  let video_id := get (i_id info) in
                  let download_progress := create video_id download_progress in
                  let '(title, outtmpl) :=
                    output_template DOWNLOAD_DIR (i_title info) is_audio_only in
                  let '(events, outcome) := download p (opts outtmpl) url in
                  (run (Hook <$> events) download_progress,
                   download_response DOWNLOAD_DIR path_exists video_id title outcome)
              end
          end
      end
  end.

(** ** Checks by evaluation *)

(** [spaced] as a test. *)
Fixpoint spacedb (s : pystr) : bool :=
  match s with
  | [] => true
  | c :: r =>
      (negb (Str.is_space c)
       || ((c =? 32)%N
           && match r with
              | [] => true
              | c' :: _ => negb (Str.is_space c')
              end))
      && spacedb r
  end.

(** The title after line 275: [sanitize_filename(info.get('title', 'video'))]. *)
Definition sanitized_title (info_title : field pystr) : pystr :=
  match get_default info_title (py "video") with
  | Some t => sanitize_filename t
  | None => py "video"
  end.

(** ** Reading numbers and durations back *)

(** The string of a list of code points below 256. *)
Fixpoint unpy (s : pystr) : string :=
  match s with
  | [] => EmptyString
  | c :: r => String (ascii_of_N c) (unpy r)
  end.

(** The value of a string of decimal digits. *)
Definition digits_to_Z (s : pystr) : option Z :=
  Z.of_uint <$> DecimalString.NilEmpty.uint_of_string (unpy s).

(** The fields between occurrences of [sep]. *)
Fixpoint split_on (sep : N) (s : pystr) : list pystr :=
  match s with
  | [] => [[]]
  | c :: r =>
      if (c =? sep)%N then [] :: split_on sep r
      else
        match split_on sep r with
        | [] => [[c]]
        | f :: fs => (c :: f) :: fs
        end
  end.

(** The seconds written as [MM:SS] or [HH:MM:SS]: the fields between the
    colons are read as numbers, each worth sixty of the next. *)
Definition read_duration (s : pystr) : option Z :=
  fields ← mapM digits_to_Z (split_on 58%N s);
  Some (foldl (fun acc x => acc * 60 + x) 0 fields).

(** ** A sample provider *)

Definition sample_info : video_info :=
  {| i_id := Val (py "dQw4w9WgXcQ");
     i_title := Val (py "My: video?");
     i_thumbnail := Missing;
     i_duration := Val 212;
     i_channel := PyNone;
     i_uploader := Val (py "Rick");
     i_view_count := Missing;
     i_formats := Val scenario |}.

(** It resolves every url to [sample_info]; its download reports one
    progress event and leaves one file. *)
Definition sample_provider : provider :=
  {| extract_info := fun _ _ => Returns sample_info;
     download := fun _ _ => ([overshoot], Downloaded [py "My_ video__1080p.mp4"]) |}.

Definition sample_request : download_request :=
  {| q_url := Val (py " https://youtu.be/dQw4w9WgXcQ ");
     q_format_id := Val (py "299");
     q_quality := Val (py "1080p");
     q_audio_only := Val false |}.

(** The id has an entry whose status is one of the three that the code
    writes. *)
Definition registered (c : gmap (option pystr) progress) (k : option pystr) : Prop :=
  exists p, c !! k = Some p
    /\ (status p = py "starting" \/ status p = py "downloading"
        \/ status p = py "finished").

(** A provider that cannot resolve any url. *)
Definition failing_provider : provider :=
  {| extract_info := fun _ _ => Raises (DownloadError (py "ERROR: Video unavailable"));
     download := fun _ _ => ([], Raised (DownloadError (py "ERROR: Video unavailable"))) |}.

(** The tests of lines 133-138: the descriptor has a video stream and a
    height. *)
Definition passes_filters (f : format) : bool :=
  negb (bool_decide (get (f_vcodec f) = Some (py "none")))
  && match get (f_height f) with
     | Some h => negb (h =? 0)
     | None => false
     end.

(** * Properties *)

(** ** Sanity checks of the sanitizer and of the output path *)

Example sanitize_empty : sanitize_filename [] = py "video".
Proof. reflexivity. Qed.

Example sanitize_periods : sanitize_filename (py "....") = py "video".
Proof. vm_compute. reflexivity. Qed.

Example sanitize_invalid : sanitize_filename (py "a/b\c:d*e") = py "a_b_c_d_e".
Proof. vm_compute. reflexivity. Qed.

Example sanitize_spaces :
  sanitize_filename (py "  My   video .. ") = py "My video".
Proof. vm_compute. reflexivity. Qed.

Example output_path_short :
  output_path (py "/srv/app/downloads") (Val (py "My: video?")) false
  = py "/srv/app/downloads/My_ video__1080p.mp4".
Proof. vm_compute. reflexivity. Qed.

(** ** [str.replace] *)

Lemma startswith_length s pat :
  Str.startswith s pat = true -> (length pat <= length s)%nat.
Proof.
  revert s. induction pat as [|p pat IH]; intros [|c s] H; simpl in *; try lia.
  apply andb_prop in H as [_ H]. apply IH in H. lia.
Qed.

Lemma startswith_app_sep a c b pat :
  c ∉ pat -> Str.startswith (a ++ c :: b) pat = Str.startswith a pat.
Proof.
  revert a. induction pat as [|p pat IH]; intros a Hc; [by destruct a|].
  apply not_elem_of_cons in Hc as [Hne Hc].
  destruct a as [|x a]; simpl.
  - destruct (N.eqb_spec p c); [congruence | done].
  - by rewrite IH.
Qed.

Lemma replace_from_cons pat rep c s :
  Str.replace_from pat rep 0 (c :: s)
  = if Str.startswith (c :: s) pat
    then rep ++ Str.replace_from pat rep (length pat - 1) s
    else c :: Str.replace_from pat rep 0 s.
Proof. reflexivity. Qed.

(** A replacement that is not longer than the pattern never lengthens the
    string. *)
Lemma replace_from_length pat rep s k :
  (length rep <= length pat)%nat -> pat <> [] ->
  (length (Str.replace_from pat rep k s) <= length s - k)%nat.
Proof.
  intros Hrep Hpat. revert k.
  induction s as [|c s IH]; intros k; [simpl; lia|].
  destruct k as [|k]; [|apply IH].
  rewrite replace_from_cons.
  destruct (Str.startswith (c :: s) pat) eqn:Hsw.
  - apply startswith_length in Hsw.
    rewrite length_app. specialize (IH (length pat - 1)%nat).
    destruct pat; [done|]. simpl in *. lia.
  - specialize (IH 0%nat). simpl in *. lia.
Qed.

Lemma replace_length pat rep s :
  (length rep <= length pat)%nat -> pat <> [] ->
  (length (Str.replace pat rep s) <= length s)%nat.
Proof.
  intros Hrep Hpat. unfold Str.replace.
  pose proof (replace_from_length pat rep s 0 Hrep Hpat). lia.
Qed.

(** A character that does not occur in the pattern splits the string into
    two parts that are replaced independently. *)
Lemma replace_from_app_sep pat rep a c b k :
  c ∉ pat -> pat <> [] -> (k <= length a)%nat ->
  Str.replace_from pat rep k (a ++ c :: b)
  = Str.replace_from pat rep k a ++ c :: Str.replace_from pat rep 0 b.
Proof.
  intros Hc Hpat. revert k.
  induction a as [|x a IH]; intros k Hk.
  - assert (k = 0%nat) as -> by (simpl in Hk; lia).
    rewrite app_nil_l, replace_from_cons.
    change (c :: b) with ([] ++ c :: b) at 1.
    rewrite startswith_app_sep by done.
    by destruct pat.
  - destruct k as [|k]; [|apply IH; simpl in Hk; lia].
    rewrite <- app_comm_cons, !replace_from_cons, app_comm_cons.
    rewrite startswith_app_sep by done.
    destruct (Str.startswith (x :: a) pat) eqn:Hsw.
    + apply startswith_length in Hsw. simpl in Hsw.
      rewrite IH by lia. by rewrite <- app_assoc.
    + by rewrite IH by lia.
Qed.

Lemma replace_app_sep pat rep a c b :
  c ∉ pat -> pat <> [] ->
  Str.replace pat rep (a ++ c :: b)
  = Str.replace pat rep a ++ c :: Str.replace pat rep b.
Proof. intros. apply replace_from_app_sep; [done | done | lia]. Qed.

(** ** The output path *)

Lemma test_path_length p : (length (test_path p) <= length p)%nat.
Proof.
  unfold test_path.
  etrans; [apply replace_length; [vm_compute; lia | done]|].
  apply replace_length; [vm_compute; lia | done].
Qed.

Lemma test_path_app_sep a c b :
  c ∉ py "%(ext)s" -> c ∉ py "%(height)s" ->
  test_path (a ++ c :: b) = test_path a ++ c :: test_path b.
Proof.
  intros He Hh. unfold test_path.
  rewrite (replace_app_sep (py "%(ext)s")) by done.
  by rewrite (replace_app_sep (py "%(height)s")) by done.
Qed.

Lemma path_join_split a b :
  exists p, path_join a b = p ++ b /\ (length p <= length a + 1)%nat.
Proof.
  unfold path_join.
  destruct (Str.startswith b (py "/")); [exists []; simpl; split; [done | lia]|].
  destruct (_ || _).
  - exists a. split; [done | lia].
  - exists (a ++ py "/"). rewrite <- app_assoc. split; [done|].
    rewrite length_app. simpl. lia.
Qed.

(** With the placeholders substituted, the path is at most the directory,
    a separator, the title and the ten characters of [_1080p.mp4]. *)
Lemma test_path_outtmpl_for dir title is_audio_only :
  (length (test_path (outtmpl_for dir title is_audio_only))
   <= length dir + 1 + length title + 10)%nat.
Proof.
  unfold outtmpl_for. destruct is_audio_only.
  - destruct (path_join_split dir (title ++ py ".%(ext)s")) as (p & -> & Hp).
    rewrite app_assoc.
    change (py ".%(ext)s") with (46%N :: py "%(ext)s").
    rewrite test_path_app_sep by compute_done.
    rewrite length_app. pose proof (test_path_length (p ++ title)) as Hl.
    rewrite length_app in Hl.
    change (length (46%N :: test_path (py "%(ext)s"))) with 4%nat. lia.
  - destruct (path_join_split dir (title ++ py "_%(height)sp.%(ext)s")) as (p & -> & Hp).
    rewrite app_assoc.
    change (py "_%(height)sp.%(ext)s") with (95%N :: py "%(height)sp.%(ext)s").
    rewrite test_path_app_sep by compute_done.
    rewrite length_app. pose proof (test_path_length (p ++ title)) as Hl.
    rewrite length_app in Hl.
    change (length (95%N :: test_path (py "%(height)sp.%(ext)s"))) with 10%nat. lia.
Qed.

Lemma rstrip_by_length p s : (length (Str.rstrip_by p s) <= length s)%nat.
Proof.
  induction s as [|c s IH]; simpl; [lia|].
  destruct (Str.rstrip_by p s); [destruct (p c)|]; simpl in *; lia.
Qed.

(** C4, as amended: when the download directory has at most 234
    characters, the output path of every title, with the placeholders
    replaced by [1080] and [mp4], has at most 250 characters. *)
Theorem output_path_bounded dir info_title is_audio_only :
  (length dir <= 234)%nat ->
  (length (output_path dir info_title is_audio_only) <= 250)%nat.
Proof.
  intros Hdir. unfold output_path, output_template.
  set (title0 := match get_default info_title (py "video") with
                 | Some t => sanitize_filename t
                 | None => py "video"
                 end).
  set (title := if (max_title_length <? length title0)%nat
                then Str.rstrip (take max_title_length title0) else title0).
  destruct (250 <? length (test_path (outtmpl_for dir title is_audio_only)))%nat
    eqn:Hlong; simpl; [|apply Nat.ltb_ge in Hlong; lia].
  etrans; [apply test_path_outtmpl_for|].
  destruct (Z.ltb_spec 0 (250 - Z.of_nat (length dir) - 20)) as [Hrem|Hrem].
  - pose proof (rstrip_by_length Str.is_space
      (take (Z.to_nat (250 - Z.of_nat (length dir) - 20)) title)) as Hl.
    rewrite length_take in Hl. unfold Str.rstrip. lia.
  - change (length (py "video")) with 5%nat. lia.
Qed.

(** A title of 10,000 characters under an ordinary directory. *)
Lemma output_path_bounded_witness :
  (length (py "/srv/app/downloads") <= 234)%nat
  /\ (length (output_path (py "/srv/app/downloads") (Val long_title) true)
      <= 250)%nat.
Proof.
  split; [vm_compute; lia|].
  apply (output_path_bounded (py "/srv/app/downloads") (Val long_title) true).
  vm_compute; lia.
Defined.

(** C4, as stated, fails under a directory of 235 characters: the title
    budget is negative, the title becomes [video], and the path has 251
    characters. *)
Lemma output_path_deep_dir :
  ~ (length (output_path deep_dir (Val (py "abcdefgh")) false) <= 250)%nat.
Proof.
  assert (length (output_path deep_dir (Val (py "abcdefgh")) false) = 251%nat) as ->
    by (vm_compute; reflexivity).
  lia.
Qed.

Example deep_dir_value :
  output_path deep_dir (Val (py "abcdefgh")) false
  = deep_dir ++ py "/video_1080p.mp4".
Proof. vm_compute. reflexivity. Qed.

(** ** [sanitize_filename] is not idempotent *)

(** C3: on [long_dotted] the truncation to 200 characters leaves a
    trailing period, which a second pass removes. *)
Theorem sanitize_not_idempotent :
  sanitize_filename long_dotted = replicate 199 97%N ++ py "."
  /\ sanitize_filename (sanitize_filename long_dotted) = replicate 199 97%N
  /\ sanitize_filename (sanitize_filename long_dotted) <> sanitize_filename long_dotted.
Proof.
  split; [vm_compute; reflexivity|].
  split; [vm_compute; reflexivity|].
  compute_done.
Qed.

(** ** Where [sanitize_filename] is idempotent *)

Lemma lstrip_by_suffix p s : exists k, s = k ++ Str.lstrip_by p s.
Proof.
  induction s as [|c s [k IH]]; simpl; [by exists []|].
  destruct (p c); [|by exists []].
  exists (c :: k). simpl. by f_equal.
Qed.

Lemma lstrip_by_head p s c : head (Str.lstrip_by p s) = Some c -> p c = false.
Proof.
  induction s as [|x s IH]; simpl; [done|].
  destruct (p x) eqn:Hx; [done|]. simpl. by intros [= <-].
Qed.

Lemma rstrip_by_prefix p s : exists k, s = Str.rstrip_by p s ++ k.
Proof.
  induction s as [|c s [k IH]]; simpl; [by exists []|].
  destruct (Str.rstrip_by p s) as [|y r] eqn:Hr.
  - destruct (p c); [by exists (c :: s)|]. exists k. simpl in *. by f_equal.
  - exists k. simpl in *. by f_equal.
Qed.

Lemma rstrip_by_last p s c : last (Str.rstrip_by p s) = Some c -> p c = false.
Proof.
  induction s as [|x s IH]; simpl; [done|].
  destruct (Str.rstrip_by p s) as [|y r] eqn:Hr.
  - destruct (p x) eqn:Hx; [done|]. simpl. by intros [= <-].
  - rewrite last_cons_cons. apply IH.
Qed.

Lemma lstrip_by_id p s :
  (forall c, head s = Some c -> p c = false) -> Str.lstrip_by p s = s.
Proof. destruct s as [|c s]; [done|]. simpl. intros H. by rewrite H. Qed.

Lemma rstrip_by_id p s :
  (forall c, last s = Some c -> p c = false) -> Str.rstrip_by p s = s.
Proof.
  induction s as [|x s IH]; [done|]. intros H. simpl.
  destruct s as [|y s].
  - simpl. by rewrite H.
  - rewrite IH; [done|]. intros c Hc. apply H. by rewrite last_cons_cons.
Qed.

Lemma head_app_l (a b : pystr) c : head a = Some c -> head (a ++ b) = Some c.
Proof. by destruct a. Qed.

Lemma spaced_app a b : spaced (a ++ b) -> spaced a /\ spaced b.
Proof.
  induction a as [|c a IH]; simpl; [done|].
  intros [Hc Hs]. destruct (IH Hs) as [Ha Hb]. split; [|done]. split; [|done].
  intros [-> Hnext]%Hc. split; [done|].
  intros c' Hc'. apply Hnext. by apply head_app_l.
Qed.

Lemma sub_spaces_from_spaced s in_run :
  spaced (sub_spaces_from in_run s)
  /\ (in_run = true ->
      forall c, head (sub_spaces_from in_run s) = Some c -> Str.is_space c = false).
Proof.
  revert in_run. induction s as [|c s IH]; intros in_run; simpl; [done|].
  destruct (Str.is_space c) eqn:Hc.
  - destruct in_run; [apply IH|].
    destruct (IH true) as [Hs Hh]. split; [|done]. simpl. split; [|done].
    intros _. split; [done|]. by apply Hh.
  - destruct (IH false) as [Hs _]. split.
    + simpl. split; [|done]. congruence.
    + intros _ c' [= <-]. done.
Qed.

Lemma sub_spaces_from_id s in_run :
  spaced s ->
  (in_run = true -> forall c, head s = Some c -> Str.is_space c = false) ->
  sub_spaces_from in_run s = s.
Proof.
  revert in_run. induction s as [|c s IH]; intros in_run Hs Hh; simpl; [done|].
  destruct Hs as [Hc Hs].
  destruct (Str.is_space c) eqn:Hsp.
  - destruct (Hc eq_refl) as [-> Hnext].
    destruct in_run; [by rewrite (Hh eq_refl 32%N) in Hsp|].
    f_equal. by apply IH.
  - f_equal. by apply IH.
Qed.

Lemma sub_invalid_valid s : Forall (fun c => invalid_chars c = false) (sub_invalid s).
Proof.
  unfold sub_invalid. apply Forall_forall.
  intros c (x & -> & _)%list_elem_of_fmap.
  by destruct (invalid_chars x) eqn:Hx.
Qed.

Lemma sub_invalid_id s :
  Forall (fun c => invalid_chars c = false) s -> sub_invalid s = s.
Proof.
  unfold sub_invalid. induction 1 as [|c s Hc Hs IH]; simpl; [done|].
  by rewrite Hc, IH.
Qed.

Lemma sub_spaces_from_valid s in_run :
  Forall (fun c => invalid_chars c = false) s ->
  Forall (fun c => invalid_chars c = false) (sub_spaces_from in_run s).
Proof.
  intros Hs. revert in_run.
  induction Hs as [|c s Hc Hs IH]; intros in_run; simpl; [done|].
  destruct (Str.is_space c); [destruct in_run|]; try apply IH;
    by apply Forall_cons.
Qed.
Lemma spaced_space t c :
  spaced t -> c ∈ t -> Str.is_space c = true -> c = 32%N.
Proof.
  induction t as [|x t IH]; [by intros _ ?%elem_of_nil|].
  intros [Hx Ht] [->|Hc]%elem_of_cons Hsp; [by destruct (Hx Hsp)|by apply IH].
Qed.

Lemma last_elem_of (t : pystr) c : last t = Some c -> c ∈ t.
Proof.
  induction t as [|x t IH]; [done|]. destruct t as [|y t].
  - intros [= ->]. constructor.
  - rewrite last_cons_cons. intros H. constructor. by apply IH.
Qed.

Lemma prefix_head (g m : pystr) c :
  g `prefix_of` m -> g <> [] -> head g = Some c -> head m = Some c.
Proof. intros [k ->] _ H. by apply head_app_l. Qed.

Lemma clean_video : clean (py "video").
Proof.
  split.
  - apply Forall_forall. intros c Hc.
    apply (bool_decide_unpack _). revert c Hc. apply Forall_forall. compute_done.
  - vm_compute. repeat split; discriminate.
  - intros c [= <-]. reflexivity.
  - intros c [= <-]. reflexivity.
  - vm_compute. lia.
  - discriminate.
Qed.

(** Every result of [sanitize_filename] is [clean]. *)
Lemma sanitize_clean s : clean (sanitize_filename s).
Proof.
  destruct s as [|c0 s0]; [apply clean_video|].
  unfold sanitize_filename.
  set (b := sub_spaces (sub_invalid (c0 :: s0))).
  set (m := Str.lstrip_by Str.is_space b).
  set (e := Str.rstrip_chars (py ". ") (Str.strip b)).
  set (g := if (max_length <? length e)%nat then Str.rstrip (take max_length e) else e).
  assert (Forall (fun c => invalid_chars c = false) b) as Hvalid
    by apply sub_spaces_from_valid, sub_invalid_valid.
  assert (spaced b) as Hspaced by apply sub_spaces_from_spaced.
  assert (e `prefix_of` m) as He.
  { etrans; [apply rstrip_by_prefix|]. apply rstrip_by_prefix. }
  assert (g `prefix_of` m) as Hg.
  { unfold g. destruct (max_length <? length e)%nat; [|done].
    etrans; [apply rstrip_by_prefix|]. etrans; [apply prefix_take|]. done. }
  destruct (lstrip_by_suffix Str.is_space b) as [k1 Hb]. fold m in Hb.
  destruct Hg as [k2 Hm].
  assert (Forall (fun c => invalid_chars c = false) g /\ spaced g) as [Hgv Hgs].
  { rewrite Hb, Hm in Hvalid, Hspaced.
    apply Forall_app in Hvalid as [_ [Hv _]%Forall_app].
    apply spaced_app in Hspaced as [_ [Hs _]%spaced_app]. done. }
  destruct g as [|c1 g1] eqn:Hgeq; [apply clean_video|]. rewrite <- Hgeq in *.
  split; [done | done | | | |by rewrite Hgeq].
  - intros c Hc. apply (lstrip_by_head Str.is_space b).
    fold m. rewrite Hm. by apply head_app_l.
  - intros c Hc. unfold g in Hc.
    destruct (max_length <? length e)%nat; [by eapply rstrip_by_last|].
    destruct (Str.is_space c) eqn:Hsp; [|done].
    assert (c = 32%N) as ->.
    { eapply spaced_space; [exact Hgs| |done]. apply last_elem_of.
      unfold g. by destruct (max_length <? length e)%nat. }
    by apply rstrip_by_last in Hc.
  - unfold g. destruct (Nat.ltb_spec max_length (length e)); [|done].
    etrans; [apply rstrip_by_length|]. rewrite length_take. lia.
Qed.

Lemma sanitize_filename_nonempty s :
  s <> [] ->
  sanitize_filename s
  = let e := Str.rstrip_chars (py ". ") (Str.strip (sub_spaces (sub_invalid s))) in
    let g := if (max_length <? length e)%nat then Str.rstrip (take max_length e) else e in
    match g with
    | [] => py "video"
    | _ => g
    end.
Proof. intros Hs. destruct s; [done | reflexivity]. Qed.

(** On a [clean] string that does not end with a period every step of
    [sanitize_filename] is the identity. *)
Lemma clean_fixed t :
  clean t -> last t <> Some 46%N -> sanitize_filename t = t.
Proof.
  intros [Hvalid Hspaced Hhead Hlast Hlen Hne] Hperiod.
  rewrite sanitize_filename_nonempty by done. cbv zeta.
  rewrite sub_invalid_id by done.
  unfold sub_spaces. rewrite sub_spaces_from_id by done.
  unfold Str.strip. rewrite lstrip_by_id by done.
  rewrite rstrip_by_id by done.
  unfold Str.rstrip_chars. rewrite rstrip_by_id.
  - destruct (Nat.ltb_spec max_length (length t)); [lia|]. by destruct t.
  - intros c Hc. apply bool_decide_eq_false_2.
    intros [->|[->|[]%elem_of_nil]%elem_of_cons]%elem_of_cons; [done|].
    by apply Hlast in Hc.
Qed.

(** [sanitize_filename] is idempotent on every input whose result does not
    end with a period. *)
Theorem sanitize_idempotent_unless_period s :
  last (sanitize_filename s) <> Some 46%N ->
  sanitize_filename (sanitize_filename s) = sanitize_filename s.
Proof. intros H. apply clean_fixed; [apply sanitize_clean | done]. Qed.

(** ** The ranked list: order, size and distinct heights *)

Lemma StronglySorted_sublist {A} (R : A -> A -> Prop) (l1 l2 : list A) :
  l1 `sublist_of` l2 -> StronglySorted R l2 -> StronglySorted R l1.
Proof.
  induction 1 as [|x l1 l2 Hsub IH|x l1 l2 Hsub IH];
    rewrite ?StronglySorted_cons; [done| |intros [_ Hs]; by apply IH].
  intros [Hall Hs]. split; [|by apply IH].
  rewrite Forall_forall in *. intros y Hy. apply Hall.
  by eapply elem_of_sublist.
Qed.

Lemma find_height target formats f :
  find (fun f => height f =? target) formats = Some f ->
  f ∈ formats /\ height f = target.
Proof.
  induction formats as [|g formats IH]; simpl; [done|].
  destruct (Z.eqb_spec (height g) target) as [Heq|Hne].
  - intros [= <-]. split; [constructor | done].
  - intros [Hin Hh]%IH. split; [by constructor | done].
Qed.

Lemma select_targets_heights targets formats :
  height <$> select_targets targets formats `sublist_of` targets.
Proof.
  induction targets as [|target targets IH]; simpl; [done|].
  destruct (find _ formats) as [f|] eqn:Hfind.
  - apply find_height in Hfind as [_ Hh]. simpl. rewrite Hh.
    by apply sublist_skip.
  - by apply sublist_cons.
Qed.

Lemma target_heights_descending : descending target_heights.
Proof.
  unfold descending, target_heights.
  repeat (apply SSorted_cons; [|repeat constructor; lia]).
  constructor.
Qed.

Lemma final_formats_nil : final_formats [] = Ok [audio_option].
Proof. reflexivity. Qed.

Lemma final_formats_Ok formats l :
  final_formats formats = Ok l ->
  exists d, group_formats [] formats = Ok d
    /\ l = select_targets target_heights (sort_desc d.*2) ++ [audio_option].
Proof.
  unfold final_formats. destruct (group_formats [] formats) as [d|]; [|done].
  intros H. exists d. split; [done|].
  change (Ok (select_targets target_heights (sort_desc d.*2) ++ [audio_option]) = Ok l) in H.
  by injection H.
Qed.

(** C1: a returned list is a list of video formats followed by the audio
    option; the video heights decrease strictly, are pairwise distinct and
    at most seven, so the list has at most eight entries; and the empty
    format list gives the audio option alone. *)
Theorem final_formats_ranked formats l :
  final_formats formats = Ok l ->
  (exists videos,
     l = videos ++ [audio_option]
     /\ height <$> videos `sublist_of` target_heights
     /\ descending (height <$> videos)
     /\ NoDup (height <$> videos)
     /\ (length videos <= 7)%nat
     /\ (length l <= 8)%nat)
  /\ final_formats [] = Ok [audio_option].
Proof.
  intros (d & _ & ->)%final_formats_Ok. split; [|done].
  pose proof (select_targets_heights target_heights (sort_desc d.*2)) as Hsub.
  exists (select_targets target_heights (sort_desc d.*2)).
  split; [done|].
  split; [done|].
  split; [by eapply StronglySorted_sublist, target_heights_descending|].
  split.
  { eapply sublist_NoDup; [|exact Hsub]. compute_done. }
  apply sublist_length in Hsub. rewrite length_fmap in Hsub.
  rewrite length_app. simpl in *. lia.
Qed.

Lemma final_formats_ranked_witness :
  final_formats scenario
  = Ok (select_targets target_heights
          [entry_of (video_format 1080 8000 "299") 1080;
           entry_of (video_format 720 3000 "136") 720;
           entry_of (video_format 360 1000 "134") 360] ++ [audio_option])
  /\ exists videos,
       select_targets target_heights
         [entry_of (video_format 1080 8000 "299") 1080;
          entry_of (video_format 720 3000 "136") 720;
          entry_of (video_format 360 1000 "134") 360] ++ [audio_option]
       = videos ++ [audio_option]
       /\ height <$> videos `sublist_of` target_heights.
Proof.
  split; [vm_compute; reflexivity|].
  destruct (final_formats_ranked scenario _ eq_refl) as [(videos & Hl & Hsub & _) _].
  exists videos. split; [exact Hl | exact Hsub].
Defined.

(** ** The dictionary [formats_by_height] *)

Lemma dict_get_set_eq k v d : dict_get k (dict_set k v d) = Some v.
Proof.
  induction d as [|[k' v'] d IH]; simpl; [by rewrite Z.eqb_refl|].
  destruct (Z.eqb_spec k k') as [->|Hne]; simpl.
  - by rewrite Z.eqb_refl.
  - by destruct (Z.eqb_spec k k').
Qed.

Lemma dict_get_set_ne k k' v d :
  k <> k' -> dict_get k' (dict_set k v d) = dict_get k' d.
Proof.
  intros Hne. induction d as [|[k0 v0] d IH]; simpl.
  - by destruct (Z.eqb_spec k' k); [congruence|].
  - destruct (Z.eqb_spec k k0) as [->|Hne0]; simpl.
    + by destruct (Z.eqb_spec k' k0); [congruence|].
    + by rewrite IH.
Qed.

Lemma dict_get_None k d : dict_get k d = None <-> k ∉ d.*1.
Proof.
  induction d as [|[k' v'] d IH]; simpl.
  - split; [intros _; apply not_elem_of_nil | done].
  - rewrite not_elem_of_cons, <- IH.
    destruct (Z.eqb_spec k k'); [|tauto].
    split; [done | intros []; done].
Qed.

Lemma dict_get_elem_of k v d : dict_get k d = Some v -> (k, v) ∈ d.
Proof.
  induction d as [|[k' v'] d IH]; simpl; [done|].
  destruct (Z.eqb_spec k k') as [->|Hne].
  - intros [= ->]. constructor.
  - intros H. constructor. by apply IH.
Qed.

Lemma dict_elem_of_get k v d : NoDup d.*1 -> (k, v) ∈ d -> dict_get k d = Some v.
Proof.
  induction d as [|[k' v'] d IH]; simpl; [by intros _ ?%elem_of_nil|].
  rewrite NoDup_cons. intros [Hk Hd] [[= -> ->]|Hin]%elem_of_cons.
  - by rewrite Z.eqb_refl.
  - destruct (Z.eqb_spec k k') as [->|Hne]; [|by apply IH].
    destruct Hk. apply list_elem_of_fmap. by exists (k', v).
Qed.

Lemma dict_set_keys k v d :
  (dict_set k v d).*1
  = match dict_get k d with Some _ => d.*1 | None => d.*1 ++ [k] end.
Proof.
  induction d as [|[k' v'] d IH]; csimpl; [done|].
  destruct (Z.eqb_spec k k') as [->|Hne]; csimpl; [done|].
  rewrite IH. by destruct (dict_get k d).
Qed.

Lemma dict_set_NoDup k v d : NoDup d.*1 -> NoDup (dict_set k v d).*1.
Proof.
  intros Hd. rewrite dict_set_keys.
  destruct (dict_get k d) eqn:Hget; [done|].
  apply dict_get_None in Hget.
  apply NoDup_app. split; [done|]. split; [|apply NoDup_singleton].
  intros x Hx ->%list_elem_of_singleton. done.
Qed.
Lemma size_le_refl s : size_le s s.
Proof. destruct s; simpl; [lia | done]. Qed.

Lemma no_better_refl f : no_better f f.
Proof. split; [apply Qle_refl | intros _; apply size_le_refl]. Qed.

Lemma replaces_entry f r h :
  replaces (entry_of f h) (entry_of r h)
  = if negb (Qle_bool (vbr_of f) (vbr_of r)) then Ok true
    else bigger ← size_gt (filesize_of f) (filesize_of r);
         Ok (bigger && Qle_bool (vbr_of r) (vbr_of f)).
Proof. reflexivity. Qed.

(** When the new descriptor replaces the stored one it is at least as good
    as everything the stored one was at least as good as. *)
Lemma replaces_true f r h :
  replaces (entry_of f h) (entry_of r h) = Ok true ->
  forall g, no_better g r -> no_better g f.
Proof.
  rewrite replaces_entry. unfold no_better. intros H g [Hv Hs].
  destruct (Qle_bool (vbr_of f) (vbr_of r)) eqn:Hle; simpl in H.
  - apply Qle_bool_iff in Hle.
    destruct (filesize_of f) as [x|], (filesize_of r) as [y|]; simpl in H; try done.
    injection H as H. apply andb_prop in H as [Hxy Hge].
    apply Z.ltb_lt in Hxy. apply Qle_bool_iff in Hge.
    split; [lra|]. intros Heq.
    assert (vbr_of g == vbr_of r)%Q as Hgr by lra.
    apply Hs in Hgr. destruct (filesize_of g); simpl in *; [lia | done].
  - assert (~ (vbr_of f <= vbr_of r)%Q) as Hlt.
    { intros Hle'%Qle_bool_iff. congruence. }
    split; [lra|]. intros Heq. lra.
Qed.

Lemma replaces_false f r h :
  replaces (entry_of f h) (entry_of r h) = Ok false -> no_better f r.
Proof.
  rewrite replaces_entry. unfold no_better. intros H.
  destruct (Qle_bool (vbr_of f) (vbr_of r)) eqn:Hle; simpl in H; [|done].
  apply Qle_bool_iff in Hle. split; [done|]. intros Heq.
  destruct (filesize_of f) as [x|], (filesize_of r) as [y|]; simpl in *; try done.
  injection H as H. apply andb_false_iff in H as [Hxy|Hge].
  - apply Z.ltb_ge in Hxy. lia.
  - assert (vbr_of r <= vbr_of f)%Q as Hle'%Qle_bool_iff by lra. congruence.
Qed.
Lemma survives_height f h h' : survives f h -> survives f h' -> h = h'.
Proof. intros (_ & H1 & _) (_ & H2 & _). congruence. Qed.

Lemma grouped_nil : grouped [] [].
Proof.
  split.
  - constructor.
  - intros h e [=].
  - intros f h Hf. by apply elem_of_nil in Hf.
Qed.

Lemma grouped_skip seen d f :
  (forall h, ~ survives f h) -> grouped seen d -> grouped (seen ++ [f]) d.
Proof.
  intros Hf [Hkeys Hentry Hall]. split; [done| |].
  - intros h e (r & Hr & Hs & -> & Hbest)%Hentry.
    exists r. split; [apply elem_of_app; by left|]. split; [done|]. split; [done|].
    intros g [Hg| ->%list_elem_of_singleton]%elem_of_app Hgs; [by apply Hbest|].
    by destruct (Hf h).
  - intros g h [Hg| ->%list_elem_of_singleton]%elem_of_app Hgs; [by eapply Hall|].
    by destruct (Hf h).
Qed.

Lemma grouped_keep seen d f h r :
  grouped seen d -> survives f h -> dict_get h d = Some (entry_of r h) ->
  no_better f r -> grouped (seen ++ [f]) d.
Proof.
  intros [Hkeys Hentry Hall] Hf Hget Hfr. split; [done| |].
  - intros h' e He. destruct (Hentry h' e He) as (r' & Hr & Hs & -> & Hbest).
    exists r'. split; [apply elem_of_app; by left|]. split; [done|]. split; [done|].
    intros g [Hg| ->%list_elem_of_singleton]%elem_of_app Hgs; [by apply Hbest|].
    assert (h' = h) as -> by (by eapply survives_height).
    rewrite Hget in He. injection He as He.
    destruct Hfr as [Hv Hsz]. unfold no_better.
    assert (vbr_of r' = vbr_of r) as -> by congruence.
    assert (filesize_of r' = filesize_of r) as -> by congruence. done.
  - intros g h' [Hg| ->%list_elem_of_singleton]%elem_of_app Hgs; [by eapply Hall|].
    assert (h' = h) as -> by (by eapply survives_height). by rewrite Hget.
Qed.

Lemma grouped_set seen d f h :
  grouped seen d -> survives f h ->
  (forall g, g ∈ seen -> survives g h -> no_better g f) ->
  grouped (seen ++ [f]) (dict_set h (entry_of f h) d).
Proof.
  intros [Hkeys Hentry Hall] Hf Hbest. split; [by apply dict_set_NoDup| |].
  - intros h' e He. destruct (decide (h = h')) as [<-|Hne].
    + rewrite dict_get_set_eq in He. injection He as <-.
      exists f. split; [apply elem_of_app; right; constructor|].
      split; [done|]. split; [done|].
      intros g [Hg| ->%list_elem_of_singleton]%elem_of_app Hgs;
        [by apply Hbest | apply no_better_refl].
    + rewrite dict_get_set_ne in He by done.
      destruct (Hentry h' e He) as (r' & Hr & Hs & -> & Hbest').
      exists r'. split; [apply elem_of_app; by left|]. split; [done|]. split; [done|].
      intros g [Hg| ->%list_elem_of_singleton]%elem_of_app Hgs; [by apply Hbest'|].
      destruct Hne. by eapply survives_height.
  - intros g h' Hg Hgs. destruct (decide (h = h')) as [<-|Hne].
    + by rewrite dict_get_set_eq.
    + rewrite dict_get_set_ne by done.
      apply elem_of_app in Hg as [Hg| ->%list_elem_of_singleton]; [by eapply Hall|].
      destruct Hne. by eapply survives_height.
Qed.

Lemma group_step_grouped seen d f d' :
  grouped seen d -> group_step d f = Ok d' -> grouped (seen ++ [f]) d'.
Proof.
  intros Hd. unfold group_step.
  destruct (bool_decide_reflect (get (f_vcodec f) = Some (py "none"))) as [Hv|Hv].
  { intros [= <-]. apply grouped_skip; [|done]. by intros h []. }
  destruct (get (f_height f)) as [h|] eqn:Hh.
  2:{ intros [= <-]. apply grouped_skip; [|done]. intros h (_ & ? & _). congruence. }
  destruct (Z.eqb_spec h 0) as [->|Hh0].
  { intros [= <-]. apply grouped_skip; [|done]. intros h (_ & ? & ?). congruence. }
  assert (survives f h) as Hf by done.
  destruct (dict_get h d) as [e|] eqn:Hget.
  - destruct (grouped_entry _ _ Hd h e Hget) as (r & Hr & Hrs & -> & Hbest).
    destruct (replaces (entry_of f h) (entry_of r h)) as [[]|] eqn:Hrep;
      simpl; intros [= <-].
    + apply grouped_set; [done | done |].
      intros g Hg Hgs. eapply replaces_true; [done|]. by apply Hbest.
    + eapply grouped_keep; [done | done | done |]. by eapply replaces_false.
  - intros [= <-]. apply grouped_set; [done | done |].
    intros g Hg Hgs. destruct (grouped_all _ _ Hd g h Hg Hgs) as [e He]. congruence.
Qed.

Lemma group_formats_grouped seen d formats d' :
  grouped seen d -> group_formats d formats = Ok d' -> grouped (seen ++ formats) d'.
Proof.
  revert seen d. induction formats as [|f formats IH]; intros seen d Hd; simpl.
  - intros [= <-]. by rewrite app_nil_r.
  - destruct (group_step d f) as [d1|] eqn:Hstep; simpl; [|done].
    intros H. rewrite cons_middle, app_assoc.
    eapply IH; [|done]. by eapply group_step_grouped.
Qed.
(** ** From the dictionary to the ranked list *)

Lemma insert_desc_elem_of x y l : x ∈ insert_desc y l <-> x = y \/ x ∈ l.
Proof.
  induction l as [|z l IH]; simpl.
  { rewrite list_elem_of_singleton. split; [by left | intros [|[]%elem_of_nil]; done]. }
  destruct (height z <=? height y); rewrite !elem_of_cons; [done|].
  rewrite IH. tauto.
Qed.

Lemma sort_desc_elem_of x l : x ∈ sort_desc l <-> x ∈ l.
Proof.
  induction l as [|y l IH]; simpl; [done|].
  by rewrite insert_desc_elem_of, elem_of_cons, IH.
Qed.

Lemma find_height_unique h e l :
  e ∈ l -> height e = h -> (forall x, x ∈ l -> height x = h -> x = e) ->
  find (fun f => height f =? h) l = Some e.
Proof.
  intros He Hh Huniq. induction l as [|y l IH]; [by apply elem_of_nil in He|].
  simpl. destruct (Z.eqb_spec (height y) h) as [Hy|Hy].
  - f_equal. apply Huniq; [constructor | done].
  - apply elem_of_cons in He as [->|He]; [done|].
    apply IH; [done|]. intros x Hx. apply Huniq. by constructor.
Qed.

Lemma select_targets_elem_of targets formats h e :
  h ∈ targets -> find (fun f => height f =? h) formats = Some e ->
  without_vbr e ∈ select_targets targets formats.
Proof.
  intros Hh Hfind. induction targets as [|t targets IH]; [by apply elem_of_nil in Hh|].
  simpl. apply elem_of_cons in Hh as [<-|Hh].
  - rewrite Hfind. constructor.
  - destruct (find (fun f => height f =? t) formats); [constructor|]; by apply IH.
Qed.

(** The sorted values of a grouped dictionary hold exactly one format of
    each stored height: the stored one. *)
Lemma grouped_find seen d h e :
  grouped seen d -> dict_get h d = Some e ->
  find (fun f => height f =? h) (sort_desc d.*2) = Some e.
Proof.
  intros Hd Hget.
  assert (forall k x, dict_get k d = Some x -> height x = k) as Hheight.
  { intros k x Hx. by destruct (grouped_entry _ _ Hd k x Hx) as (r & _ & _ & -> & _). }
  apply find_height_unique.
  - apply sort_desc_elem_of, list_elem_of_fmap. exists (h, e).
    split; [done|]. by apply dict_get_elem_of.
  - by apply Hheight.
  - intros x [[k x'] [-> Hx]]%sort_desc_elem_of%list_elem_of_fmap Hxh. simpl in *.
    apply dict_elem_of_get in Hx; [|by destruct Hd].
    apply Hheight in Hx as Hk. congruence.
Qed.

(** ** The bitrate and the size of a descriptor *)

Lemma falsy_not_truthy x : falsy x -> truthy (get x) = false.
Proof.
  intros [-> | [-> | (q & -> & Hq)]]; [done | done |].
  simpl. apply Qeq_bool_iff in Hq. by rewrite Hq.
Qed.

Lemma not_truthy_falsy x : truthy (get x) = false -> falsy x.
Proof.
  destruct x as [| |q]; [by left | by right; left |].
  simpl. intros Hq. right; right. exists q. split; [done|].
  apply Qeq_bool_iff. by destruct (Qeq_bool q 0).
Qed.

Lemma has_bitrate_vbr_of f b : has_bitrate f b -> vbr_of f = b.
Proof.
  unfold vbr_of. intros [[Hv Hnz] | [(Hf & Ht & Hnz) | (Hf & Hft & ->)]].
  - rewrite Hv. simpl. destruct (Qeq_bool b 0) eqn:Hq; [|done].
    apply Qeq_bool_iff in Hq. by destruct Hnz.
  - rewrite (falsy_not_truthy _ Hf), Ht. simpl.
    destruct (Qeq_bool b 0) eqn:Hq; [|done].
    apply Qeq_bool_iff in Hq. by destruct Hnz.
  - by rewrite (falsy_not_truthy _ Hf), (falsy_not_truthy _ Hft).
Qed.

Lemma has_size_filesize_of f s : has_size f s -> filesize_of f = Some s.
Proof.
  unfold filesize_of. intros [[Hs Hnz] | [Hf Ha]].
  - rewrite Hs. simpl. by destruct (Z.eqb_spec s 0).
  - assert (match get (f_filesize f) with
            | Some z => if z =? 0 then get_default (f_filesize_approx f) 0 else Some z
            | None => get_default (f_filesize_approx f) 0
            end = get_default (f_filesize_approx f) 0) as ->
      by (by destruct Hf as [-> | [-> | ->]]).
    by destruct Ha as [-> | [-> ->]].
Qed.

(** C2: for every height that passes the filters, the dictionary holds the
    entry of a descriptor [r] of that height which no descriptor of that
    height beats: none has a higher bitrate ([vbr], else [tbr], else 0),
    and none of equal bitrate has a larger file size ([filesize], else
    [filesize_approx], else 0); for a target height that entry, without
    its [vbr], is in the returned list, with the format id and the size of
    [r]. On the scenario of the specification the list is the 1080p entry
    of the 8000 bitrate, 720p, 360p and the audio option. *)
Theorem representative_best formats l :
  final_formats formats = Ok l ->
  (exists d, group_formats [] formats = Ok d
     /\ forall f h, f ∈ formats -> survives f h ->
        exists r, r ∈ formats /\ survives r h
          /\ dict_get h d = Some (entry_of r h)
          /\ (forall g, g ∈ formats -> survives g h ->
              forall bg br, has_bitrate g bg -> has_bitrate r br ->
                (bg <= br)%Q
                /\ ((bg == br)%Q ->
                    forall sg sr, has_size g sg -> has_size r sr -> sg <= sr))
          /\ (h ∈ target_heights ->
              exists e, e ∈ l /\ e = without_vbr (entry_of r h)
                /\ height e = h
                /\ format_id e = get (f_format_id r)
                /\ (forall s, has_size r s -> filesize e = Some s)))
  /\ final_formats scenario
     = Ok [returned "299" "1080p" 1080 "mp4" 0 "Tamanho desconhecido" false;
           returned "136" "720p" 720 "mp4" 0 "Tamanho desconhecido" false;
           returned "134" "360p" 360 "mp4" 0 "Tamanho desconhecido" false;
           audio_option].
Proof.
  intros Hl. split; [|vm_compute; reflexivity].
  apply final_formats_Ok in Hl as (d & Hgroup & ->).
  exists d. split; [done|].
  pose proof (group_formats_grouped [] [] formats d grouped_nil Hgroup) as Hd.
  rewrite app_nil_l in Hd.
  intros f h Hf Hfs.
  destruct (grouped_all _ _ Hd f h Hf Hfs) as [e He].
  destruct (grouped_entry _ _ Hd h e He) as (r & Hr & Hrs & -> & Hbest).
  exists r. repeat (split; [done|]). split.
  - intros g Hg Hgs bg br <-%has_bitrate_vbr_of <-%has_bitrate_vbr_of.
    destruct (Hbest g Hg Hgs) as [Hle Htie]. split; [done|].
    intros Heq sg sr Hsg%has_size_filesize_of Hsr%has_size_filesize_of.
    specialize (Htie Heq). by rewrite Hsg, Hsr in Htie.
  - intros Hh. exists (without_vbr (entry_of r h)).
    split; [|split; [done|split; [done|split; [done|]]]].
    + apply elem_of_app. left.
      eapply select_targets_elem_of; [done|]. by eapply grouped_find.
    + intros s Hs%has_size_filesize_of. done.
Qed.

Lemma representative_best_witness :
  final_formats tied
  = Ok [returned "299" "1080p" 1080 "mp4" 500000000 "476.8 MB" false;
        returned "22" "720p" 720 "mp4" 75000000 "71.5 MB" true;
        audio_option]
  /\ exists r e,
       r ∈ tied /\ r = itag_299
       /\ e ∈ [returned "299" "1080p" 1080 "mp4" 500000000 "476.8 MB" false;
               returned "22" "720p" 720 "mp4" 75000000 "71.5 MB" true;
               audio_option]
       /\ height e = 1080
       /\ format_id e = Some (py "299")
       /\ filesize e = Some 500000000.
Proof.
  assert (final_formats tied
          = Ok [returned "299" "1080p" 1080 "mp4" 500000000 "476.8 MB" false;
                returned "22" "720p" 720 "mp4" 75000000 "71.5 MB" true;
                audio_option]) as Hl by (vm_compute; reflexivity).
  split; [exact Hl|].
  destruct (representative_best tied _ Hl) as [(d & _ & Hrep) _].
  assert (forall f, get (f_vcodec f) = Some (py "avc1") -> get (f_height f) = Some 1080 ->
                    survives f 1080) as Hsurv.
  { intros f Hv Hh. split; [|split; [exact Hh | discriminate]].
    rewrite Hv. discriminate. }
  assert (itag_299 ∈ tied) as H299 by (do 2 apply list_elem_of_further; apply list_elem_of_here).
  assert (has_bitrate itag_299 8000) as Hb299 by (left; split; [reflexivity | discriminate]).
  assert (has_size itag_299 500000000) as Hs299 by (left; split; [reflexivity | discriminate]).
  destruct (Hrep itag_137 1080) as (r & Hr & Hrs & _ & Hbest & Htarget).
  { apply list_elem_of_here. }
  { apply Hsurv; reflexivity. }
  specialize (Hbest itag_299 H299 (Hsurv itag_299 eq_refl eq_refl) 8000%Q).
  destruct Htarget as (e & He & _ & Hh & Hid & Hsize).
  { apply list_elem_of_further, list_elem_of_further, list_elem_of_here. }
  assert (r = itag_299) as Heq.
  { unfold tied in Hr.
    apply elem_of_cons in Hr as [->|Hr].
    { assert (has_bitrate itag_137 5000) as Hb
        by (left; split; [reflexivity | discriminate]).
      destruct (Hbest 5000%Q Hb299 Hb) as [Hle _].
      exfalso. revert Hle. unfold Qle. simpl. lia. }
    apply elem_of_cons in Hr as [->|Hr].
    { assert (has_bitrate itag_248 8000) as Hb
        by (right; left; split; [by left | split; [reflexivity | discriminate]]).
      assert (has_size itag_248 300000000) as Hs
        by (right; split; [by right; left | by left]).
      destruct (Hbest 8000%Q Hb299 Hb) as [_ Htie].
      specialize (Htie (Qeq_refl _) _ _ Hs299 Hs). exfalso. lia. }
    apply elem_of_cons in Hr as [->|Hr]; [reflexivity|].
    exfalso. destruct Hrs as (_ & Hheight & _).
    apply elem_of_cons in Hr as [->|Hr]; [discriminate|].
    apply elem_of_cons in Hr as [->|Hr]; [discriminate|].
    by apply elem_of_nil in Hr. }
  exists r, e. split; [exact Hr|]. split; [exact Heq|]. split; [exact He|].
  split; [exact Hh|]. rewrite Heq in Hid, Hsize.
  split; [exact Hid | exact (Hsize _ Hs299)].
Defined.
(** ** When the format list is returned *)

Lemma group_step_returns seen d f :
  grouped seen d ->
  (forall g, g ∈ seen ++ [f] -> filesize_of g <> None) ->
  exists d', group_step d f = Ok d'.
Proof.
  intros Hd Hsizes. unfold group_step.
  destruct (bool_decide _); [by eexists|].
  destruct (get (f_height f)) as [h|]; [|by eexists].
  destruct (h =? 0); [by eexists|].
  destruct (dict_get h d) as [e|] eqn:Hget; [|by eexists].
  destruct (grouped_entry _ _ Hd h e Hget) as (r & Hr & _ & -> & _).
  rewrite replaces_entry.
  destruct (negb _); [by eexists|].
  destruct (filesize_of f) eqn:Hf.
  2:{ destruct (Hsizes f); [apply elem_of_app; right; constructor | done]. }
  destruct (filesize_of r) eqn:Hr'.
  2:{ destruct (Hsizes r); [apply elem_of_app; by left | done]. }
  by eexists.
Qed.

Lemma group_formats_returns seen d formats :
  grouped seen d ->
  (forall g, g ∈ seen ++ formats -> filesize_of g <> None) ->
  exists d', group_formats d formats = Ok d'.
Proof.
  revert seen d. induction formats as [|f formats IH]; intros seen d Hd Hsizes.
  - by exists d.
  - destruct (group_step_returns seen d f Hd) as [d1 Hstep].
    { intros g Hg. apply Hsizes. rewrite cons_middle, app_assoc.
      apply elem_of_app. by left. }
    simpl. rewrite Hstep.
    apply (IH (seen ++ [f]) d1); [by eapply group_step_grouped|].
    intros g Hg. apply Hsizes. by rewrite cons_middle, app_assoc.
Qed.

(** The list is returned whenever no descriptor has [None] as its size. *)
Lemma final_formats_returns formats :
  (forall f, f ∈ formats -> filesize_of f <> None) ->
  exists l, final_formats formats = Ok l.
Proof.
  intros Hsizes.
  destruct (group_formats_returns [] [] formats grouped_nil Hsizes) as [d Hd].
  unfold final_formats. rewrite Hd. by eexists.
Qed.

(** Ordering two [None] sizes raises. *)
Example final_formats_unsized : final_formats unsized = Raise TypeError.
Proof. vm_compute. reflexivity. Qed.

(** ** Powers of two and binades *)

Lemma pow2_pos e : (0 < pow2 e)%Q.
Proof. apply Qpower_0_lt. reflexivity. Qed.

Lemma pow2_add a b : (pow2 (a + b) == pow2 a * pow2 b)%Q.
Proof. apply Qpower_plus. discriminate. Qed.

Lemma pow2_le a b : a <= b -> (pow2 a <= pow2 b)%Q.
Proof. intros H. apply Qpower_le_compat_l; [done|]. discriminate. Qed.

Lemma pow2_Z e : 0 <= e -> (pow2 e == inject_Z (2 ^ e))%Q.
Proof. intros H. unfold pow2. by rewrite Zpower_Qpower. Qed.

Lemma log2_between N D :
  0 < N -> 0 < D ->
  (pow2 (Z.log2 N - Z.log2 D - 1) * inject_Z D < inject_Z N)%Q
  /\ (inject_Z N < pow2 (Z.log2 N - Z.log2 D + 1) * inject_Z D)%Q.
Proof.
  intros HN HD.
  destruct (Z.log2_spec N HN) as [Hn1 Hn2]. destruct (Z.log2_spec D HD) as [Hd1 Hd2].
  pose proof (Z.log2_nonneg N) as Ha. pose proof (Z.log2_nonneg D) as Hb.
  rewrite Zle_Qle, <- pow2_Z in Hn1, Hd1 by done.
  rewrite Zlt_Qlt, <- pow2_Z in Hn2, Hd2 by lia.
  set (a := Z.log2 N) in *. set (b := Z.log2 D) in *.
  split.
  - apply Qlt_le_trans with (pow2 (a - b - 1) * pow2 (Z.succ b))%Q.
    + apply Qmult_lt_l; [apply pow2_pos | done].
    + rewrite <- pow2_add. by replace (a - b - 1 + Z.succ b) with a by lia.
  - apply Qlt_le_trans with (pow2 (Z.succ a)); [done|].
    replace (Z.succ a) with (a - b + 1 + b) by lia. rewrite pow2_add.
    apply Qmult_le_l; [apply pow2_pos | done].
Qed.

Lemma Qabs_frac x : (Qabs x == inject_Z (Z.abs (Qnum x)) / inject_Z (Zpos (Qden x)))%Q.
Proof. destruct x as [n d]. simpl. by rewrite <- Qmake_Qdiv. Qed.

(** [binade x] is the [k] with [2^k <= |x| < 2^(k+1)]. *)
Lemma binade_spec x :
  ~ (x == 0)%Q -> (pow2 (binade x) <= Qabs x)%Q /\ (Qabs x < pow2 (binade x + 1))%Q.
Proof.
  intros Hx.
  assert (0 < Z.abs (Qnum x)) as HN.
  { destruct x as [[|n|n] d]; simpl; [|lia|lia]. destruct Hx. reflexivity. }
  destruct (log2_between (Z.abs (Qnum x)) (Zpos (Qden x)) HN eq_refl) as [Hlo Hhi].
  assert (0 < inject_Z (Zpos (Qden x)))%Q as HD by reflexivity.
  apply Qlt_shift_div_l in Hlo; [|done]. apply Qlt_shift_div_r in Hhi; [|done].
  rewrite <- Qabs_frac in Hlo, Hhi.
  unfold binade.
  set (k := Z.log2 (Z.abs (Qnum x)) - Z.log2 (Z.pos (Qden x))) in *.
  destruct (Qle_bool (pow2 k) (Qabs x)) eqn:Hk.
  - apply Qle_bool_iff in Hk. by split.
  - replace (k - 1 + 1) with k by lia. split; [by apply Qlt_le_weak|].
    apply Qnot_le_lt. intros H%Qle_bool_iff. congruence.
Qed.

Lemma binade_unique x k :
  (pow2 k <= Qabs x)%Q -> (Qabs x < pow2 (k + 1))%Q -> binade x = k.
Proof.
  intros Hlo Hhi.
  assert (~ (x == 0)%Q) as Hx.
  { intros H. rewrite H in Hlo. pose proof (pow2_pos k). change (Qabs 0) with 0%Q in Hlo. lra. }
  destruct (binade_spec x Hx) as [Hlo' Hhi'].
  destruct (Z.lt_trichotomy (binade x) k) as [H|[H|H]]; [|done|].
  - pose proof (pow2_le (binade x + 1) k ltac:(lia)). lra.
  - pose proof (pow2_le (k + 1) (binade x) ltac:(lia)). lra.
Qed.

Lemma binade_le x y :
  ~ (x == 0)%Q -> (Qabs x <= Qabs y)%Q -> binade x <= binade y.
Proof.
  intros Hx Hle.
  destruct (binade_spec x Hx) as [Hlo Hhi].
  assert (~ (y == 0)%Q) as Hy.
  { intros H. rewrite H in Hle. change (Qabs 0) with 0%Q in Hle.
    pose proof (pow2_pos (binade x)). lra. }
  destruct (binade_spec y Hy) as [Hlo' Hhi'].
  destruct (Z.le_gt_cases (binade x) (binade y)) as [H|H]; [done|].
  pose proof (pow2_le (binade y + 1) (binade x) ltac:(lia)). lra.
Qed.

Lemma round_half_even_near q :
  (inject_Z (round_half_even q) - q <= 1 # 2)%Q
  /\ (q - inject_Z (round_half_even q) <= 1 # 2)%Q.
Proof.
  unfold round_half_even.
  pose proof (Qfloor_le q) as Hlo. pose proof (Qlt_floor q) as Hhi.
  rewrite inject_Z_plus in Hhi. change (inject_Z 1) with 1%Q in Hhi.
  destruct (Qcompare_spec (q - inject_Z (Qfloor q)) (1 # 2)) as [He|Hl|Hg].
  - destruct (Z.even (Qfloor q)); rewrite ?inject_Z_plus;
      change (inject_Z 1) with 1%Q; split; lra.
  - split; lra.
  - rewrite inject_Z_plus. change (inject_Z 1) with 1%Q. split; lra.
Qed.

Lemma round_half_even_mono q1 q2 :
  (q1 <= q2)%Q -> round_half_even q1 <= round_half_even q2.
Proof.
  intros Hle.
  pose proof (Qfloor_resp_le _ _ Hle) as Hf.
  destruct (Z.eq_dec (Qfloor q1) (Qfloor q2)) as [Heq|Hne].
  - unfold round_half_even. rewrite <- Heq.
    destruct (Qcompare_spec (q1 - inject_Z (Qfloor q1)) (1 # 2)) as [H1|H1|H1];
      destruct (Qcompare_spec (q2 - inject_Z (Qfloor q1)) (1 # 2)) as [H2|H2|H2];
      destruct (Z.even (Qfloor q1));
      first [apply Z.le_refl | apply Z.le_succ_diag_r | exfalso; clear Hf Heq; lra].
  - assert (round_half_even q1 <= Qfloor q1 + 1) as Hup.
    { clear. unfold round_half_even.
      destruct (q1 - inject_Z (Qfloor q1) ?= 1 # 2)%Q;
        try destruct (Z.even (Qfloor q1)); lia. }
    assert (Qfloor q2 <= round_half_even q2) as Hlow.
    { clear. unfold round_half_even.
      destruct (q2 - inject_Z (Qfloor q2) ?= 1 # 2)%Q;
        try destruct (Z.even (Qfloor q2)); lia. }
    clear Hle. lia.
Qed.

Lemma round_half_even_Z z : round_half_even (inject_Z z) = z.
Proof.
  unfold round_half_even. rewrite Qfloor_Z.
  destruct (Qcompare_spec (inject_Z z - inject_Z z) (1 # 2)) as [H|H|H];
    [exfalso; lra | done | exfalso; lra].
Qed.

Lemma round_half_even_comp q1 q2 : (q1 == q2)%Q -> round_half_even q1 = round_half_even q2.
Proof.
  intros Heq. apply Z.le_antisymm; apply round_half_even_mono; lra.
Qed.

(** ** Rounding to a float *)

Lemma scaled x e : (x == x / pow2 e * pow2 e)%Q.
Proof. field. pose proof (pow2_pos e). lra. Qed.

Lemma grid_scaled n e e' :
  e' <= e -> (inject_Z n * pow2 e / pow2 e' == inject_Z (n * 2 ^ (e - e')))%Q.
Proof.
  intros He. rewrite inject_Z_mult, <- pow2_Z by lia.
  replace e with (e - e' + e') at 1 by lia. rewrite pow2_add.
  field. pose proof (pow2_pos e'). lra.
Qed.

(** A number of the grid of [x] that is above [x] is above [rnd x]. *)
Lemma rnd_le_grid x n e :
  exponent x <= e -> (x <= inject_Z n * pow2 e)%Q -> (rnd x <= inject_Z n * pow2 e)%Q.
Proof.
  intros He Hle. unfold rnd. set (ex := exponent x) in *.
  pose proof (pow2_pos ex) as Hpos.
  assert (round_half_even (x / pow2 ex) <= n * 2 ^ (e - ex)) as H.
  { rewrite <- (round_half_even_Z (n * 2 ^ (e - ex))).
    apply round_half_even_mono. rewrite <- grid_scaled by done.
    unfold Qdiv. apply Qmult_le_compat_r; [done|].
    apply Qinv_le_0_compat. lra. }
  rewrite Zle_Qle, <- grid_scaled in H by done.
  rewrite (scaled (inject_Z n * pow2 e) ex).
  apply Qmult_le_compat_r; [done | lra].
Qed.

Lemma rnd_ge_grid x n e :
  exponent x <= e -> (inject_Z n * pow2 e <= x)%Q -> (inject_Z n * pow2 e <= rnd x)%Q.
Proof.
  intros He Hle. unfold rnd. set (ex := exponent x) in *.
  pose proof (pow2_pos ex) as Hpos.
  assert (n * 2 ^ (e - ex) <= round_half_even (x / pow2 ex)) as H.
  { rewrite <- (round_half_even_Z (n * 2 ^ (e - ex))).
    apply round_half_even_mono. rewrite <- grid_scaled by done.
    unfold Qdiv. apply Qmult_le_compat_r; [done|].
    apply Qinv_le_0_compat. lra. }
  rewrite Zle_Qle, <- grid_scaled in H by done.
  rewrite (scaled (inject_Z n * pow2 e) ex).
  apply Qmult_le_compat_r; [done | lra].
Qed.

Lemma exponent_ge x : -1074 <= exponent x.
Proof. unfold exponent. lia. Qed.

(** Rounding is monotone. *)
Lemma rnd_mono x y : (x <= y)%Q -> (rnd x <= rnd y)%Q.
Proof.
  intros Hle.
  destruct (Z.eq_dec (exponent x) (exponent y)) as [Heq|Hne].
  { unfold rnd. rewrite Heq. pose proof (pow2_pos (exponent y)) as Hpos.
    apply Qmult_le_compat_r; [|lra]. rewrite <- Zle_Qle.
    apply round_half_even_mono. unfold Qdiv. apply Qmult_le_compat_r; [done|].
    apply Qinv_le_0_compat. lra. }
  destruct (Qlt_le_dec 0 x) as [Hx|Hx]; [|destruct (Qlt_le_dec y 0) as [Hy|Hy]].
  - (* 0 < x <= y *)
    assert (binade x <= binade y) as Hb.
    { apply binade_le; [lra|]. rewrite !Qabs_pos by lra. done. }
    destruct (binade_spec x ltac:(lra)) as [_ Hhi].
    destruct (binade_spec y ltac:(lra)) as [Hlo _].
    rewrite Qabs_pos in Hhi, Hlo by lra.
    assert (binade x < binade y /\ -1074 < binade y - 52) as [Hlt Hn]
      by (unfold exponent in Hne; lia).
    pose proof (pow2_le (binade x + 1) (binade y) ltac:(lia)) as Hp.
    apply Qle_trans with (inject_Z 1 * pow2 (binade y))%Q.
    + apply rnd_le_grid; [unfold exponent; lia|]. change (inject_Z 1) with 1%Q. lra.
    + apply rnd_ge_grid; [unfold exponent; lia|]. change (inject_Z 1) with 1%Q. lra.
  - (* x <= y < 0 *)
    assert (binade y <= binade x) as Hb.
    { apply binade_le; [lra|]. rewrite !Qabs_neg by lra. lra. }
    destruct (binade_spec x ltac:(lra)) as [Hlo _].
    destruct (binade_spec y ltac:(lra)) as [_ Hhi].
    rewrite Qabs_neg in Hhi, Hlo by lra.
    assert (binade y < binade x /\ -1074 < binade x - 52) as [Hlt Hn]
      by (unfold exponent in Hne; lia).
    pose proof (pow2_le (binade y + 1) (binade x) ltac:(lia)) as Hp.
    apply Qle_trans with (inject_Z (-1) * pow2 (binade x))%Q.
    + apply rnd_le_grid; [unfold exponent; lia|]. change (inject_Z (-1)) with (-1)%Q. lra.
    + apply rnd_ge_grid; [unfold exponent; lia|]. change (inject_Z (-1)) with (-1)%Q. lra.
  - (* x <= 0 <= y *)
    apply Qle_trans with (inject_Z 0 * pow2 (exponent x + exponent y + 2000))%Q.
    + apply rnd_le_grid; [pose proof (exponent_ge y); lia|].
      change (inject_Z 0) with 0%Q. lra.
    + apply rnd_ge_grid; [pose proof (exponent_ge x); lia|].
      change (inject_Z 0) with 0%Q. lra.
Qed.

Lemma rnd_comp x y : (x == y)%Q -> (rnd x == rnd y)%Q.
Proof. intros H. apply Qle_antisym; apply rnd_mono; lra. Qed.

Lemma rnd_0 : (rnd 0 == 0)%Q.
Proof.
  apply Qle_antisym.
  - apply (rnd_le_grid 0 0 (exponent 0)); [lia | by vm_compute].
  - apply (rnd_ge_grid 0 0 (exponent 0)); [lia | by vm_compute].
Qed.

(** A number of 53 bits (or fewer) times a power of two from [2^-1074] on is
    a float: rounding leaves it as it is. *)
Lemma rnd_exact m e :
  Z.abs m < 2 ^ 53 -> -1074 <= e ->
  (rnd (inject_Z m * pow2 e) == inject_Z m * pow2 e)%Q.
Proof.
  intros Hm He. set (x := (inject_Z m * pow2 e)%Q).
  destruct (Qeq_dec x 0) as [H0|H0].
  { rewrite (rnd_comp _ _ H0), H0. apply rnd_0. }
  assert (exponent x <= e) as Hex.
  { destruct (binade_spec x H0) as [Hlo _].
    assert (Qabs x < pow2 (53 + e))%Q as Hlt.
    { unfold x. rewrite Qabs_Qmult, (Qabs_pos (pow2 e)), pow2_add
        by (pose proof (pow2_pos e); lra).
      apply Qmult_lt_r; [apply pow2_pos|].
      change (inject_Z m) with (m # 1). rewrite <- (Zabs_Qabs m 1), pow2_Z by lia.
      change (Z.abs m # 1) with (inject_Z (Z.abs m)). by rewrite <- Zlt_Qlt. }
    destruct (Z.lt_ge_cases (binade x) (53 + e)) as [H|H]; [unfold exponent; lia|].
    pose proof (pow2_le _ _ H). lra. }
  apply Qle_antisym.
  - apply rnd_le_grid; [done | apply Qle_refl].
  - apply rnd_ge_grid; [done | apply Qle_refl].
Qed.

Lemma rnd_representable x m e :
  Z.abs m < 2 ^ 53 -> -1074 <= e -> (x == inject_Z m * pow2 e)%Q -> (rnd x == x)%Q.
Proof.
  intros Hm He Hx. rewrite (rnd_comp _ _ Hx), Hx. by apply rnd_exact.
Qed.

Lemma rnd_Z z : Z.abs z <= 2 ^ 53 -> (rnd (inject_Z z) == inject_Z z)%Q.
Proof.
  intros Hz. destruct (Z.eq_dec (Z.abs z) (2 ^ 53)) as [Heq|Hne].
  - assert (z = 2 ^ 53 \/ z = - 2 ^ 53) as [-> | ->] by lia.
    + by apply (rnd_representable _ (2 ^ 52) 1).
    + by apply (rnd_representable _ (- 2 ^ 52) 1).
  - apply (rnd_representable _ z 0); [lia | lia |].
    change (pow2 0) with 1%Q. ring.
Qed.

(** The result is within half a unit of the last place. *)
Lemma rnd_near x : (Qabs (rnd x - x) <= pow2 (exponent x - 1))%Q.
Proof.
  unfold rnd. set (e := exponent x).
  destruct (round_half_even_near (x / pow2 e)) as [H1 H2].
  pose proof (pow2_pos e) as Hpos.
  assert (pow2 e == pow2 (e - 1) * 2)%Q as He.
  { replace e with (e - 1 + 1) at 1 by lia. by rewrite pow2_add. }
  rewrite (scaled x e) at 2.
  set (q := (x / pow2 e)%Q) in *. set (r := round_half_even q) in *.
  apply Qabs_Qle_condition.
  assert ((inject_Z r - q) * pow2 e <= (1 # 2) * pow2 e)%Q as Hup
    by (apply Qmult_le_compat_r; lra).
  assert ((q - inject_Z r) * pow2 e <= (1 # 2) * pow2 e)%Q as Hdown
    by (apply Qmult_le_compat_r; lra).
  set (p := pow2 e) in *. set (ph := pow2 (e - 1)) in *.
  split; lra.
Qed.

(** From [2^-1022] on the relative error is at most [2^-53]. *)
Lemma rnd_relative x :
  (pow2 (-1022) <= Qabs x)%Q -> (Qabs (rnd x - x) <= Qabs x * pow2 (-53))%Q.
Proof.
  intros Hx.
  assert (~ (x == 0)%Q) as H0.
  { intros H. rewrite H in Hx. pose proof (pow2_pos (-1022)).
    change (Qabs 0) with 0%Q in Hx. lra. }
  destruct (binade_spec x H0) as [Hlo Hhi].
  assert (-1022 <= binade x) as Hb.
  { destruct (Z.le_gt_cases (-1022) (binade x)) as [H|H]; [done|].
    pose proof (pow2_le (binade x + 1) (-1022) ltac:(lia)). lra. }
  apply Qle_trans with (pow2 (exponent x - 1)); [apply rnd_near|].
  replace (exponent x - 1) with (binade x + -53) by (unfold exponent; lia).
  rewrite pow2_add. apply Qmult_le_compat_r; [done|].
  apply Qlt_le_weak, pow2_pos.
Qed.

(** Rounding does not cross a float. *)
Lemma rnd_le_float x m e :
  Z.abs m < 2 ^ 53 -> -1074 <= e ->
  (x <= inject_Z m * pow2 e)%Q -> (rnd x <= inject_Z m * pow2 e)%Q.
Proof. intros Hm He Hx. rewrite <- (rnd_exact m e) by done. by apply rnd_mono. Qed.

Lemma rnd_ge_float x m e :
  Z.abs m < 2 ^ 53 -> -1074 <= e ->
  (inject_Z m * pow2 e <= x)%Q -> (inject_Z m * pow2 e <= rnd x)%Q.
Proof. intros Hm He Hx. rewrite <- (rnd_exact m e) by done. by apply rnd_mono. Qed.

Lemma rnd_abs_le_float x m e :
  0 <= m < 2 ^ 53 -> -1074 <= e ->
  (Qabs x <= inject_Z m * pow2 e)%Q -> (Qabs (rnd x) <= inject_Z m * pow2 e)%Q.
Proof.
  intros Hm He [H1 H2]%Qabs_Qle_condition. apply Qabs_Qle_condition. split.
  - apply Qle_trans with (inject_Z (- m) * pow2 e)%Q; [rewrite inject_Z_opp; lra|].
    apply rnd_ge_float; [lia | done |]. rewrite inject_Z_opp. lra.
  - apply rnd_le_float; [lia | done | done].
Qed.

(** ** [rnd] against the floats of the kernel *)

(** Quotients of integers, among them a third, a tenth and 23/80. *)
Example float_div_kernel :
  forallb (fun '(a, b) =>
             same_float (PrimFloat.div (float_of_Z a) (float_of_Z b))
                        (float_div (inject_Z a) (inject_Z b)))
    [(23, 80); (1, 3); (2, 3); (1, 10); (-7, 9); (150, 100);
     (123456789, 987654321); (2 ^ 62 + 1, 3); (1, 2 ^ 62); (2 ^ 53 - 1, 2 ^ 53)]
  = true.
Proof. vm_compute. reflexivity. Qed.

(** The percentage of line 81, [(a / b) * 100]. *)
Example float_percent_kernel :
  forallb (fun '(a, b) =>
             same_float
               (PrimFloat.mul (PrimFloat.div (float_of_Z a) (float_of_Z b))
                              (float_of_Z 100))
               (float_mul (float_div (inject_Z a) (inject_Z b)) 100))
    [(23, 80); (1, 3); (2, 3); (1, 7); (29, 100); (57, 1000); (1, 2 ^ 62);
     (1000, 2000); (123456789, 987654321); (2 ^ 53 - 1, 2 ^ 53)]
  = true.
Proof. vm_compute. reflexivity. Qed.

(** [float(n)] above [2^53], where not every integer is a float. *)
Example float_of_Z_kernel :
  forallb (fun n => same_float (float_of_Z n) (rnd (inject_Z n)))
    [2 ^ 53 + 1; 2 ^ 53 + 3; - (2 ^ 53 + 1); 2 ^ 60 + 3 * 2 ^ 28 - 1;
     2 ^ 62 + 2 ^ 9; 2 ^ 62 + 2 ^ 9 + 1; 10 ^ 18 + 1; 5497558138880]
  = true.
Proof. vm_compute. reflexivity. Qed.

(** Subnormal numbers: [2^-1054], seventeen divisions of 1 by [2^62], is
    multiplied by 3, 5 and 7 and divided by [2^20] and by [2^21], down to
    the last bit [2^-1074] and below it. *)
Example float_subnormal_kernel :
  forallb (fun '(m, k) =>
             same_float
               (PrimFloat.div
                  (PrimFloat.mul (float_of_Z m)
                     (Nat.iter 17 (fun x => PrimFloat.div x (float_of_Z (2 ^ 62)))
                        (float_of_Z 1)))
                  (float_of_Z (2 ^ k)))
               (float_div
                  (float_mul (inject_Z m)
                     (Nat.iter 17 (fun x => float_div x (inject_Z (2 ^ 62))) 1%Q))
                  (inject_Z (2 ^ k))))
    [(3, 20); (3, 21); (5, 21); (7, 21); (1, 21); (3, 22); (-5, 21); (2 ^ 53 - 1, 30)]
  = true.
Proof. vm_compute. reflexivity. Qed.

Lemma Qmake_10 n : (Qmake n 10 == inject_Z n * (1 # 10))%Q.
Proof. unfold Qeq, Qmult, inject_Z. simpl. lia. Qed.

Lemma round1_near x :
  (exists n : Z, round1 x = Qmake n 10)
  /\ (round1 x - x <= 1 # 20)%Q /\ (x - round1 x <= 1 # 20)%Q.
Proof.
  unfold round1. split; [by eexists|].
  rewrite Qmake_10.
  destruct (round_half_even_near (x * 10)) as [H1 H2]. split; lra.
Qed.

Lemma round1_mono x y : (x <= y)%Q -> (round1 x <= round1 y)%Q.
Proof.
  intros Hle. unfold round1.
  rewrite (Qmake_10 (round_half_even (x * 10))), (Qmake_10 (round_half_even (y * 10))).
  assert (round_half_even (x * 10) <= round_half_even (y * 10)) as H
    by (apply round_half_even_mono; lra).
  rewrite Zle_Qle in H. clear Hle. lra.
Qed.

Lemma Qabs_bound x r : (- r <= x)%Q -> (x <= r)%Q -> (Qabs x <= r)%Q.
Proof. intros. by apply Qabs_Qle_condition. Qed.

Lemma Qabs_lower x : (- Qabs x <= x)%Q /\ (x <= Qabs x)%Q.
Proof. apply Qabs_Qle_condition. apply Qle_refl. Qed.

(** The float percentage of a quotient [q], rounded to one decimal, is
    within a twentieth of [q * 100], up to the error of the two float
    operations. *)
Lemma percent_near q :
  (Qabs (round1 (float_mul (rnd q) 100) - q * 100) <= (1 # 20) + Qabs q * pow2 (-44))%Q.
Proof.
  unfold float_mul.
  set (q' := rnd q). set (F := rnd (q' * 100)).
  destruct (round1_near F) as (_ & HP1 & HP2). set (P := round1 F) in *.
  assert (pow2 (-53) == 1 # 9007199254740992)%Q as Hu by reflexivity.
  assert (pow2 (-44) == 1 # 17592186044416)%Q as Hv by reflexivity.
  pose proof (pow2_pos (-1022)) as Hm.
  pose proof (Qabs_nonneg q) as Ha. pose proof (Qabs_lower q) as [Ha1 Ha2].
  destruct (Qlt_le_dec (Qabs q) (pow2 (-1022))) as [Hsmall|Hbig].
  - (* underflow: the percentage is zero *)
    assert (pow2 (-1022) * 100 <= 1 # 40)%Q as Htiny by (by vm_compute).
    assert (P = Qmake 0 10) as ->.
    { unfold P, round1. f_equal.
      assert (Qabs q' <= inject_Z 1 * pow2 (-1022))%Q as Hq'.
      { apply rnd_abs_le_float; [lia | lia |]. change (inject_Z 1) with 1%Q. lra. }
      assert (Qabs F <= inject_Z 25 * pow2 (-1020))%Q as HF.
      { apply rnd_abs_le_float; [lia | lia |].
        rewrite Qabs_Qmult. change (Qabs 100) with 100%Q.
        assert (inject_Z 25 * pow2 (-1020) == pow2 (-1022) * 100)%Q as -> by (by vm_compute).
        change (inject_Z 1) with 1%Q in Hq'. lra. }
      assert (inject_Z 25 * pow2 (-1020) <= 1 # 40)%Q as Htiny' by (by vm_compute).
      pose proof (Qabs_lower F) as [HF1 HF2].
      apply Z.le_antisymm.
      - change 0 with (round_half_even (1 # 4)). apply round_half_even_mono. lra.
      - change 0 with (round_half_even (- (1 # 4))). apply round_half_even_mono. lra. }
    apply Qabs_bound.
    + change (Qmake 0 10) with (0 # 10). rewrite Hv. lra.
    + change (Qmake 0 10) with (0 # 10). rewrite Hv. lra.
  - (* both operations have a relative error of at most 2^-53 *)
    pose proof (rnd_relative q Hbig) as R1. fold q' in R1.
    pose proof (Qabs_triangle_reverse q q') as T1. rewrite (Qabs_Qminus q q') in T1.
    pose proof (Qabs_triangle_reverse q' q) as T2.
    pose proof (Qabs_nonneg q') as Hb.
    assert (Qabs (q' * 100) == Qabs q' * 100)%Q as Habs
      by (rewrite Qabs_Qmult; reflexivity).
    assert (pow2 (-1022) <= Qabs (q' * 100))%Q as Hbig'.
    { rewrite Habs. rewrite Hu in R1. lra. }
    pose proof (rnd_relative (q' * 100) Hbig') as R2. fold F in R2.
    rewrite Habs in R2.
    pose proof R1 as [R1a R1b]%Qabs_Qle_condition.
    apply Qabs_Qle_condition in R2 as [R2a R2b].
    rewrite Hu in *. rewrite Hv.
    set (a := Qabs q) in *. set (b := Qabs q') in *.
    apply Qabs_bound; lra.
Qed.

Lemma round_half_even_bounds a b q :
  (inject_Z a <= q)%Q -> (q <= inject_Z b)%Q ->
  a <= round_half_even q <= b.
Proof.
  intros Ha Hb. unfold round_half_even.
  pose proof (Qfloor_resp_le _ _ Ha) as Hfa. rewrite Qfloor_Z in Hfa.
  pose proof (Qfloor_resp_le _ _ Hb) as Hfb. rewrite Qfloor_Z in Hfb.
  assert ((1 # 2 <= q - inject_Z (Qfloor q))%Q -> Qfloor q + 1 <= b) as Hup.
  { intros Hhalf. destruct (Z.eq_dec (Qfloor q) b) as [Heq|Hne]; [|lia].
    rewrite Heq in Hhalf. lra. }
  destruct (Qcompare_spec (q - inject_Z (Qfloor q)) (1 # 2)) as [He|Hl|Hg].
  - destruct (Z.even (Qfloor q)); [lia|]. split; [lia|]. apply Hup. lra.
  - lia.
  - split; [lia|]. apply Hup. lra.
Qed.

Lemma round1_bounds x : (0 <= x)%Q -> (x <= 100)%Q -> (0 <= round1 x)%Q /\ (round1 x <= 100)%Q.
Proof.
  intros H0 H100. unfold round1. rewrite Qmake_10.
  destruct (round_half_even_bounds 0 1000 (x * 10)) as [Hlo Hhi].
  { change (inject_Z 0) with 0%Q. lra. }
  { change (inject_Z 1000) with 1000%Q. lra. }
  rewrite Zle_Qle in Hlo, Hhi. change (inject_Z 0) with 0%Q in Hlo.
  change (inject_Z 1000) with 1000%Q in Hhi. split; lra.
Qed.

(** Between two floats the result of a float operation stays between
    them: a quotient in [0, 1] and its percentage in [0, 100]. *)
Lemma rnd_between x lo hi :
  Z.abs lo < 2 ^ 53 -> Z.abs hi < 2 ^ 53 ->
  (inject_Z lo <= x)%Q -> (x <= inject_Z hi)%Q ->
  (inject_Z lo <= rnd x)%Q /\ (rnd x <= inject_Z hi)%Q.
Proof.
  intros Hlo Hhi H1 H2. split.
  - rewrite <- (Qmult_1_r (inject_Z lo)). change 1%Q with (pow2 0).
    apply rnd_ge_float; [done | lia |]. change (pow2 0) with 1%Q. lra.
  - rewrite <- (Qmult_1_r (inject_Z hi)). change 1%Q with (pow2 0).
    apply rnd_le_float; [done | lia |]. change (pow2 0) with 1%Q. lra.
Qed.

Lemma float_percent_bounds downloaded total :
  (0 < total)%Q -> (0 <= downloaded)%Q -> (downloaded <= total)%Q ->
  (0 <= float_mul (float_div downloaded total) 100)%Q
  /\ (float_mul (float_div downloaded total) 100 <= 100)%Q.
Proof.
  intros Ht H0 Hle. unfold float_mul, float_div.
  assert (0 <= downloaded / total)%Q as Hlo by (apply Qle_shift_div_l; [done | lra]).
  assert (downloaded / total <= 1)%Q as Hhi by (apply Qle_shift_div_r; [done | lra]).
  destruct (rnd_between (downloaded / total) 0 1) as [H1 H2]; [done | done | done | done |].
  change (inject_Z 0) with 0%Q in H1. change (inject_Z 1) with 1%Q in H2.
  apply (rnd_between _ 0 100); [done | done | |].
  - change (inject_Z 0) with 0%Q. lra.
  - change (inject_Z 100) with 100%Q. lra.
Qed.

Lemma float_percent_mono a b total :
  (0 < total)%Q -> (a <= b)%Q ->
  (float_mul (float_div a total) 100 <= float_mul (float_div b total) 100)%Q.
Proof.
  intros Ht Hab. unfold float_mul, float_div.
  assert (a / total <= b / total)%Q as H.
  { unfold Qdiv. apply Qmult_le_compat_r; [done|].
    apply Qinv_le_0_compat. lra. }
  apply rnd_mono in H. apply rnd_mono. lra.
Qed.

Lemma round1_comp x y : (x == y)%Q -> round1 x = round1 y.
Proof. intros H. unfold round1. f_equal. apply round_half_even_comp. by rewrite H. Qed.

(** No bytes give exactly 0.0 and all the bytes exactly 100.0. *)
Lemma float_percent_0 downloaded total :
  (downloaded == 0)%Q -> round1 (float_mul (float_div downloaded total) 100) = Qmake 0 10.
Proof.
  intros H0. unfold float_mul, float_div.
  rewrite (round1_comp _ 0); [by vm_compute|].
  assert (rnd (downloaded / total) == 0)%Q as Hq.
  { rewrite (rnd_comp _ 0); [apply rnd_0|]. rewrite H0. unfold Qdiv. ring. }
  rewrite (rnd_comp _ 0); [apply rnd_0|]. rewrite Hq. ring.
Qed.

Lemma float_percent_100 downloaded total :
  (0 < total)%Q -> (downloaded == total)%Q ->
  round1 (float_mul (float_div downloaded total) 100) = Qmake 1000 10.
Proof.
  intros Ht Hfull. unfold float_mul, float_div.
  rewrite (round1_comp _ 100); [by vm_compute|].
  assert (rnd (downloaded / total) == 1)%Q as Hq.
  { rewrite (rnd_comp _ (inject_Z 1)); [by apply rnd_Z|].
    rewrite Hfull. change (inject_Z 1) with 1%Q. field. lra. }
  rewrite (rnd_comp _ (inject_Z 100)); [by apply rnd_Z|]. rewrite Hq. reflexivity.
Qed.

(** ** The progress cache *)

Lemma progress_hook_downloading d c total downloaded :
  d_status d = py "downloading" ->
  hook_total d = Some total -> (0 < total)%Q -> hook_downloaded d = Some downloaded ->
  progress_hook d c
  = Ok (<[hook_video_id d :=
           {| status := py "downloading";
              percent := round1 (float_mul (float_div downloaded total) 100);
              speed := stored (get_default (d_speed d) 0%Q);
              eta := stored (get_default (d_eta d) 0%Q) |}]> c).
Proof.
  intros Hst Htot Hpos Hdl. unfold progress_hook.
  rewrite bool_decide_eq_true_2 by done. rewrite Htot, Hdl.
  destruct (Qle_bool total 0) eqn:Hle; [|done].
  apply Qle_bool_iff in Hle. lra.
Qed.

Lemma progress_hook_no_total d c total :
  d_status d = py "downloading" ->
  hook_total d = Some total -> (total <= 0)%Q ->
  progress_hook d c = Ok c.
Proof.
  intros Hst Htot Hle. unfold progress_hook.
  rewrite bool_decide_eq_true_2 by done. rewrite Htot.
  apply Qle_bool_iff in Hle. by rewrite Hle.
Qed.

Lemma progress_hook_finished d c :
  d_status d = py "finished" ->
  progress_hook d c
  = Ok (<[hook_video_id d :=
           {| status := py "finished"; percent := 100;
              speed := Missing; eta := Missing |}]> c).
Proof.
  intros Hst. unfold progress_hook. rewrite Hst.
  rewrite bool_decide_eq_false_2 by compute_done.
  by rewrite bool_decide_eq_true_2.
Qed.

(** Whatever the event, the hook leaves the cache alone or stores one
    entry under the id of the event. *)
Lemma apply_hook_cases d c :
  apply_write c (Hook d) = c
  \/ exists p, apply_write c (Hook d) = <[hook_video_id d := p]> c
       /\ ((status p = py "finished" /\ percent p = 100%Q /\ d_status d = py "finished")
           \/ (status p = py "downloading" /\ d_status d = py "downloading"
               /\ exists total downloaded,
                    hook_total d = Some total /\ (0 < total)%Q
                    /\ hook_downloaded d = Some downloaded
                    /\ percent p = round1 (float_mul (float_div downloaded total) 100))).
Proof.
  simpl. unfold progress_hook.
  destruct (bool_decide_reflect (d_status d = py "downloading")) as [Hst|Hst].
  - destruct (hook_total d) as [total|] eqn:Htot; [|by left].
    destruct (Qle_bool total 0) eqn:Hle; simpl; [by left|].
    destruct (hook_downloaded d) as [downloaded|] eqn:Hdl; [|by left].
    right. eexists. split; [done|]. right. simpl. repeat (split; [done|]).
    exists total, downloaded. repeat (split; [done|]). split; [|done].
    apply Qnot_le_lt. intros H%Qle_bool_iff. congruence.
  - destruct (bool_decide_reflect (d_status d = py "finished")) as [Hfin|Hfin];
      [|by left].
    right. eexists. split; [done|]. by left.
Qed.

Lemma apply_write_in_range w c :
  well_reported w ->
  map_Forall (fun _ p => in_range p) c ->
  map_Forall (fun _ p => in_range p) (apply_write c w).
Proof.
  intros Hw Hc. destruct w as [video_id|d].
  - apply map_Forall_insert_2; [|done]. split; simpl; lra.
  - destruct (apply_hook_cases d c) as [->|(p & -> & Hp)]; [done|].
    apply map_Forall_insert_2; [|done].
    destruct Hp as [(_ & Hp & _)|(_ & _ & total & downloaded & Ht & Hpos & Hd & Hp)];
      unfold in_range; rewrite Hp; [split; lra|].
    destruct (Hw total downloaded Ht Hd Hpos) as [H0 Hle].
    destruct (float_percent_bounds downloaded total Hpos H0 Hle).
    by apply round1_bounds.
Qed.

(** C5, as amended: when every progress event with a positive total
    reports a downloaded count between zero and that total, every record
    stored by the creation of a job or by the hook has its percentage in
    [0, 100], after any sequence of writes. *)
Theorem percent_in_range ws c :
  Forall well_reported ws ->
  map_Forall (fun _ p => in_range p) c ->
  map_Forall (fun _ p => in_range p) (run ws c).
Proof.
  unfold run. intros Hws. revert c.
  induction Hws as [|w ws Hw Hws IH]; intros c Hc; simpl; [done|].
  apply IH. by apply apply_write_in_range.
Qed.

Lemma percent_in_range_witness :
  Forall well_reported [Create (Some (py "dQw4w9WgXcQ")); Hook anonymous_half;
                        Hook anonymous_finished]
  /\ map_Forall (fun _ p => in_range p) (∅ : gmap (option pystr) progress)
  /\ map_Forall (fun _ p => in_range p)
       (run [Create (Some (py "dQw4w9WgXcQ")); Hook anonymous_half;
             Hook anonymous_finished] ∅).
Proof.
  assert (Forall well_reported [Create (Some (py "dQw4w9WgXcQ")); Hook anonymous_half;
                                Hook anonymous_finished]) as Hws.
  { apply Forall_cons_2; [exact I|].
    apply Forall_cons_2; [|apply Forall_cons_2; [|apply Forall_nil_2]];
      intros total downloaded Ht Hd _; vm_compute in Ht, Hd;
      injection Ht as <-; injection Hd as <-; unfold Qle; simpl; lia. }
  split; [exact Hws|]. split; [apply map_Forall_empty|].
  apply (percent_in_range _ ∅ Hws). apply map_Forall_empty.
Defined.

(** C5, as stated, fails: 150 bytes downloaded of an estimated 100 are
    stored as 150 percent. *)
Lemma percent_overshoot :
  exists p,
    run [Create (Some (py "dQw4w9WgXcQ")); Hook overshoot] ∅
      !! Some (py "dQw4w9WgXcQ") = Some p
    /\ percent p = Qmake 1500 10
    /\ ~ in_range p.
Proof.
  eexists. split; [vm_compute; reflexivity|]. split; [reflexivity|].
  unfold in_range, Qle. simpl. lia.
Qed.
(** ** What an event reports *)

Lemma reports_total_hook d total : reports_total d total -> hook_total d = Some total.
Proof.
  unfold hook_total. intros [[Ht Hnz] | [Hf Ht]].
  - rewrite Ht. simpl. destruct (Qeq_bool total 0) eqn:Hq; [|done].
    apply Qeq_bool_iff in Hq. by destruct Hnz.
  - by rewrite (falsy_not_truthy _ Hf), Ht.
Qed.

Lemma hook_total_reports d total :
  hook_total d = Some total -> (0 < total)%Q -> reports_total d total.
Proof.
  unfold hook_total. intros Ht Hpos.
  destruct (truthy (get (d_total_bytes d))) eqn:Htruthy.
  - left. destruct (d_total_bytes d) as [| |t]; try done.
    injection Ht as ->. split; [done|]. intros H. rewrite H in Hpos. lra.
  - right. split; [by apply not_truthy_falsy|].
    destruct (d_total_bytes_estimate d) as [| |t]; try done.
    + injection Ht as <-. lra.
    + by injection Ht as ->.
Qed.

Lemma reports_downloaded_hook d downloaded :
  reports_downloaded d downloaded -> hook_downloaded d = Some downloaded.
Proof. unfold hook_downloaded. by intros [-> | [-> ->]]. Qed.

Lemma kept_stored x : kept x (stored (get_default x 0%Q)).
Proof. by destruct x. Qed.

(** C6: on a [downloading] event that reports a positive total (and a
    downloaded count), the hook stores an entry under the id of the event,
    [unknown] when it has none: status [downloading], the speed and the
    eta of the event, and as percentage the float
    [downloaded / total * 100] rounded to one decimal, which is a multiple
    of one tenth within a twentieth of the exact quotient times 100, up to
    the error of the two float operations. The downloaded count is taken
    non-negative, the two counts among the values of floats, which every
    integer up to [2^53] is, and the percentage below the overflow
    threshold. An event whose total is zero, negative or unknown makes the
    hook return without writing, and whenever no positive total is
    reported the cache is left as it was. *)
Theorem progress_hook_update d c :
  d_status d = py "downloading" ->
  (forall total downloaded,
     reports_total d total -> (0 < total)%Q ->
     reports_downloaded d downloaded -> (0 <= downloaded)%Q ->
     binary64 total -> binary64 downloaded ->
     (downloaded / total * 100 < pow2 1023)%Q ->
     exists k p,
       progress_hook d c = Ok (<[k := p]> c)
       /\ (forall id, d_info_dict d = Some (Val id) -> k = Some id)
       /\ (d_info_dict d = Some PyNone -> k = None)
       /\ (idless d -> k = Some (py "unknown"))
       /\ status p = py "downloading"
       /\ percent p = round1 (float_mul (float_div downloaded total) 100)
       /\ (exists n : Z, percent p = Qmake n 10)
       /\ (Qabs (percent p - downloaded / total * 100)
           <= (1 # 20) + downloaded / total * pow2 (-44))%Q
       /\ kept (d_speed d) (speed p)
       /\ kept (d_eta d) (eta p))
  /\ (forall total,
        reports_total d total -> (total <= 0)%Q -> progress_hook d c = Ok c)
  /\ (falsy (d_total_bytes d) -> d_total_bytes_estimate d = Missing ->
      progress_hook d c = Ok c)
  /\ ((forall total, reports_total d total -> (total <= 0)%Q) ->
      apply_write c (Hook d) = c).
Proof.
  intros Hst. split; [|split; [|split]].
  - intros total downloaded Htot%reports_total_hook Hpos Hdl%reports_downloaded_hook
      H0 _ _ _.
    exists (hook_video_id d). eexists.
    split; [by apply progress_hook_downloading|]. cbn [status percent speed eta].
    split; [|split; [|split]].
    { intros id Hid. unfold hook_video_id. by rewrite Hid. }
    { intros Hid. unfold hook_video_id. by rewrite Hid. }
    { unfold hook_video_id. by intros [-> | ->]. }
    split; [done|]. split; [done|].
    split; [by eexists|].
    split; [|split; apply kept_stored].
    rewrite <- (Qabs_pos (downloaded / total)) at 2
      by (apply Qle_shift_div_l; [done | lra]).
    apply percent_near.
  - intros total Htot%reports_total_hook Hle. by eapply progress_hook_no_total.
  - intros Hf Hest. apply (progress_hook_no_total d c 0); [done | | done].
    unfold hook_total. by rewrite (falsy_not_truthy _ Hf), Hest.
  - intros Hno. destruct (apply_hook_cases d c) as [Hc|(p & _ & Hp)]; [done|].
    destruct Hp as [(_ & _ & Hfin)|(_ & _ & total & downloaded & Ht & Hpos & _)].
    + rewrite Hst in Hfin. vm_compute in Hfin. discriminate.
    + apply hook_total_reports in Ht; [|done]. apply Hno in Ht. lra.
Qed.

Lemma progress_hook_update_witness :
  d_status estimated = py "downloading"
  /\ progress_hook estimated ∅
     = Ok (<[Some (py "dQw4w9WgXcQ") :=
              {| status := py "downloading"; percent := Qmake 287 10;
                 speed := Val 2048%Q; eta := PyNone |}]> ∅).
Proof.
  split; [reflexivity|].
  destruct (progress_hook_update estimated ∅ eq_refl) as [Hup _].
  destruct (Hup 80%Q 23%Q) as (k & p & Hp & Hid & _ & _ & Hs & Hpc & _ & _ & Hsp & Het).
  - right. split; [by right; left | reflexivity].
  - reflexivity.
  - by left.
  - discriminate.
  - exists 80, 0. split; [reflexivity|]. split; [lia | reflexivity].
  - exists 23, 0. split; [reflexivity|]. split; [lia | reflexivity].
  - reflexivity.
  - rewrite Hp, (Hid _ eq_refl). destruct p as [st pc sp et].
    cbn [status percent speed eta] in Hs, Hpc, Hsp, Het.
    rewrite Hs, Hpc. cbn [estimated d_speed d_eta kept] in Hsp, Het.
    rewrite Hsp, Het. reflexivity.
Defined.

(** ** [get_progress] *)

Lemma apply_write_other w c k :
  write_key w <> k -> apply_write c w !! k = c !! k.
Proof.
  intros Hk. destruct w as [video_id|d].
  - by apply lookup_insert_ne.
  - destruct (apply_hook_cases d c) as [->|(p & -> & _)]; [done|].
    by apply lookup_insert_ne.
Qed.

Lemma run_other ws c k :
  Forall (fun w => write_key w <> k) ws -> run ws c !! k = c !! k.
Proof.
  unfold run. intros Hws. revert c.
  induction Hws as [|w ws Hw Hws IH]; intros c; simpl; [done|].
  by rewrite IH, apply_write_other.
Qed.

(** C8: for an id without an entry, in any cache, [get_progress] returns
    the record with status [unknown] and percent 0; and an id under which
    nothing was ever written has no entry. The lookup is a total function:
    it has a value for every cache and every id. *)
Theorem get_progress_unknown c ws video_id :
  (c !! Some video_id = None -> get_progress c video_id = unknown_progress)
  /\ (Forall (fun w => write_key w <> Some video_id) ws ->
      get_progress (run ws ∅) video_id = unknown_progress)
  /\ status unknown_progress = py "unknown"
  /\ percent unknown_progress = 0%Q.
Proof.
  unfold get_progress. split; [by intros ->|]. split; [|done].
  intros Hws. by rewrite run_other, lookup_empty.
Qed.

Lemma get_progress_unknown_witness :
  run [Create (Some (py "dQw4w9WgXcQ")); Hook anonymous_finished] ∅
    !! Some (py "abc") = None
  /\ get_progress (run [Create (Some (py "dQw4w9WgXcQ")); Hook anonymous_finished] ∅)
       (py "abc") = unknown_progress.
Proof.
  split; [vm_compute; reflexivity|].
  apply (proj1 (get_progress_unknown
    (run [Create (Some (py "dQw4w9WgXcQ")); Hook anonymous_finished] ∅) [] (py "abc"))).
  vm_compute; reflexivity.
Defined.
(** ** Events without an id *)

Lemma idless_video_id d : idless d -> hook_video_id d = Some (py "unknown").
Proof. unfold hook_video_id. by intros [-> | ->]. Qed.

(** An updating event stores a record that depends on the event alone. *)
Lemma updates_stores d :
  updates d ->
  exists p, p <> unknown_progress /\ status p = d_status d
    /\ forall c, apply_write c (Hook d) = <[hook_video_id d := p]> c.
Proof.
  intros [Hfin|(Hst & total & downloaded & Ht & Hpos & Hd)].
  - eexists. split; [|split]; [| |intros c; simpl; by rewrite progress_hook_finished].
    + intros [=]. + by rewrite Hfin.
  - eexists. split; [|split];
      [| |intros c; simpl; by erewrite progress_hook_downloading].
    + intros [=]. + by rewrite Hst.
Qed.

(** C9: an event without a media identifier is stored under the id
    [unknown], and touches no other entry; when it stores, [get_progress]
    on [unknown] returns the stored record, whose status is that of the
    event and which is not the default record; and of two such events of
    two downloads the later one replaces what the earlier one stored. *)
Theorem hook_without_id d :
  idless d ->
  hook_video_id d = Some (py "unknown")
  /\ (forall c k, k <> Some (py "unknown") -> apply_write c (Hook d) !! k = c !! k)
  /\ (updates d -> forall c,
        apply_write c (Hook d) !! Some (py "unknown")
        = Some (get_progress (apply_write c (Hook d)) (py "unknown"))
        /\ get_progress (apply_write c (Hook d)) (py "unknown") <> unknown_progress
        /\ status (get_progress (apply_write c (Hook d)) (py "unknown")) = d_status d)
  /\ (forall d2 c, idless d2 -> updates d2 ->
        get_progress (run [Hook d; Hook d2] c) (py "unknown")
        = get_progress (run [Hook d2] c) (py "unknown")).
Proof.
  intros Hd. pose proof (idless_video_id d Hd) as Hid.
  split; [done|]. split; [|split].
  - intros c k Hk. apply apply_write_other. simpl. congruence.
  - intros (p & Hp & Hs & Hw)%updates_stores c.
    unfold get_progress. rewrite Hw, Hid, lookup_insert_eq. done.
  - intros d2 c Hd2 (p & _ & _ & Hw)%updates_stores.
    change (run [Hook d; Hook d2] c)
      with (apply_write (apply_write c (Hook d)) (Hook d2)).
    change (run [Hook d2] c) with (apply_write c (Hook d2)).
    unfold get_progress.
    by rewrite !Hw, (idless_video_id d2 Hd2), !lookup_insert_eq.
Qed.

Lemma hook_without_id_witness :
  idless anonymous_half
  /\ updates anonymous_finished
  /\ get_progress (run [Hook anonymous_half] ∅) (py "unknown")
     = {| status := py "downloading"; percent := Qmake 500 10;
          speed := Val 512%Q; eta := Val 2%Q |}
  /\ get_progress (run [Hook anonymous_half; Hook anonymous_finished] ∅) (py "unknown")
     = {| status := py "finished"; percent := 100; speed := Missing; eta := Missing |}.
Proof.
  assert (idless anonymous_half) as H1 by (by left).
  assert (idless anonymous_finished) as H2 by (by right).
  assert (updates anonymous_finished) as H3 by (by left).
  split; [exact H1|]. split; [exact H3|]. split; [vm_compute; reflexivity|].
  destruct (hook_without_id anonymous_half H1) as (_ & _ & _ & Hlast).
  rewrite (Hlast anonymous_finished ∅ H2 H3). vm_compute; reflexivity.
Defined.
(** ** Substring search *)

Lemma startswith_spec s pat :
  Str.startswith s pat = true <-> exists after, s = pat ++ after.
Proof.
  revert s. induction pat as [|p pat IH]; intros s; simpl.
  - split; [by exists s | by destruct s].
  - destruct s as [|c s].
    + split; [done | by intros [after [=]]].
    + split.
      * intros [Hpc Hs]%andb_prop. apply N.eqb_eq in Hpc as ->.
        apply IH in Hs as [after ->]. by exists after.
      * intros [after Heq]. injection Heq as -> ->.
        apply andb_true_intro. split; [apply N.eqb_refl|].
        apply IH. by exists after.
Qed.

Lemma contains_cons c s pat :
  Str.contains (c :: s) pat = Str.startswith (c :: s) pat || Str.contains s pat.
Proof. reflexivity. Qed.

Lemma contains_nil pat : Str.contains [] pat = Str.startswith [] pat.
Proof. simpl. apply orb_false_r. Qed.

Lemma contains_spec s pat : Str.contains s pat = true <-> occurs_in pat s.
Proof.
  unfold occurs_in. split.
  - induction s as [|c s IH].
    + rewrite contains_nil. intros [after ->]%startswith_spec. by exists [], after.
    + rewrite contains_cons.
      intros [[after ->]%startswith_spec|(before & after & ->)%IH]%orb_prop.
      * by exists [], after.
      * by exists (c :: before), after.
  - intros (before & after & ->).
    induction before as [|c before IH].
    + assert (Str.startswith (pat ++ after) pat = true) as Hsw
        by (apply startswith_spec; by exists after).
      rewrite app_nil_l. destruct (pat ++ after) as [|c l].
      * by rewrite contains_nil.
      * by rewrite contains_cons, Hsw.
    + rewrite <- app_comm_cons, contains_cons, IH. apply orb_true_r.
Qed.

Lemma invalid_argument_spec msg :
  invalid_argument msg = true
  <-> occurs_in (py "Invalid argument") msg \/ occurs_in (py "Errno 22") msg.
Proof. unfold invalid_argument. by rewrite orb_true_iff, !contains_spec. Qed.

(** ** The failures of [download_video] *)

(** C7: a [DownloadError] whose text contains [Invalid argument] or
    [Errno 22] is answered with status 400 and the invalid-filename
    message, which asks to try again; any other [DownloadError] with 400
    and its text after [Erro no download: ]; an [OSError] of errno 22 with
    400 and an invalid-filename message; and a download after which no
    listed file name contains the first 30 characters of the title with
    500 and [Arquivo não encontrado após download]. *)
Theorem download_failures dir path_exists video_id title :
  (forall msg,
     occurs_in (py "Invalid argument") msg \/ occurs_in (py "Errno 22") msg ->
     download_response dir path_exists video_id title (Raised (DownloadError msg))
     = (JsonError (py "Erro ao salvar arquivo: nome do arquivo inválido. Tente novamente ou escolha outro vídeo."), 400))
  /\ occurs_in (py "Tente novamente")
       (py "Erro ao salvar arquivo: nome do arquivo inválido. Tente novamente ou escolha outro vídeo.")
  /\ (forall msg,
        ~ occurs_in (py "Invalid argument") msg -> ~ occurs_in (py "Errno 22") msg ->
        download_response dir path_exists video_id title (Raised (DownloadError msg))
        = (JsonError (py "Erro no download: " ++ msg), 400))
  /\ (forall str_e,
        download_response dir path_exists video_id title (Raised (OSError (Some 22) str_e))
        = (JsonError (py "Erro ao salvar arquivo: nome do arquivo contém caracteres inválidos. Tente novamente."), 400))
  /\ (forall listdir,
        (forall f, f ∈ listdir -> ~ occurs_in (take 30 title) f) ->
        download_response dir path_exists video_id title (Downloaded listdir)
        = (JsonError (py "Arquivo não encontrado após download"), 500)).
Proof.
  split; [|split; [|split; [|split]]].
  - intros msg Hmsg%invalid_argument_spec. simpl. by rewrite Hmsg.
  - apply contains_spec. vm_compute. reflexivity.
  - intros msg H1 H2. simpl.
    destruct (invalid_argument msg) eqn:Hinv; [|done].
    apply invalid_argument_spec in Hinv as [?|?]; done.
  - done.
  - intros listdir Hnone. simpl. unfold download_result, find_downloaded.
    assert (find (fun f => Str.contains f (take 30 title)) listdir = None) as ->; [|done].
    induction listdir as [|f listdir IH]; [done|]. simpl.
    destruct (Str.contains f (take 30 title)) eqn:Hc.
    + apply contains_spec in Hc. destruct (Hnone f); [constructor | done].
    + apply IH. intros g Hg. apply Hnone. by constructor.
Qed.

Lemma download_failures_witness :
  (occurs_in (py "Invalid argument") (py "ERROR: unable to open for writing: [Errno 22] Invalid argument")
   \/ occurs_in (py "Errno 22") (py "ERROR: unable to open for writing: [Errno 22] Invalid argument"))
  /\ download_response (py "/srv/app/downloads") (fun _ => true) (Some (py "dQw4w9WgXcQ"))
       (py "My video")
       (Raised (DownloadError (py "ERROR: unable to open for writing: [Errno 22] Invalid argument")))
     = (JsonError (py "Erro ao salvar arquivo: nome do arquivo inválido. Tente novamente ou escolha outro vídeo."), 400)
  /\ download_response (py "/srv/app/downloads") (fun _ => true) (Some (py "dQw4w9WgXcQ"))
       (py "My video") (Downloaded [py "other.mp4"])
     = (JsonError (py "Arquivo não encontrado após download"), 500).
Proof.
  assert (occurs_in (py "Errno 22")
            (py "ERROR: unable to open for writing: [Errno 22] Invalid argument")) as Hocc.
  { exists (py "ERROR: unable to open for writing: ["), (py "] Invalid argument").
    vm_compute. reflexivity. }
  destruct (download_failures (py "/srv/app/downloads") (fun _ => true)
              (Some (py "dQw4w9WgXcQ")) (py "My video")) as (H1 & _ & _ & _ & H4).
  split; [right; exact Hocc|]. split; [apply H1; right; exact Hocc|].
  apply H4. intros f Hf Hocc'.
  apply list_elem_of_singleton in Hf. subst f.
  apply contains_spec in Hocc'. vm_compute in Hocc'. discriminate.
Defined.
(** ** [format_size] *)

Example format_size_0 : format_size 0 = py "0 B".
Proof. vm_compute. reflexivity. Qed.

Example format_size_1536 : format_size 1536 = py "1.5 KB".
Proof. vm_compute. reflexivity. Qed.

Example format_size_GB : format_size 1073741824 = py "1.0 GB".
Proof. vm_compute. reflexivity. Qed.

(** ** Writes under different ids *)

(** Two writes under different ids give the same cache in either order,
    and neither changes the entry of the other. *)
Lemma writes_commute w1 w2 c :
  write_key w1 <> write_key w2 ->
  apply_write (apply_write c w1) w2 = apply_write (apply_write c w2) w1.
Proof.
  intros Hne.
  assert (forall w, (forall c, apply_write c w = c)
                    \/ exists p, forall c, apply_write c w = <[write_key w := p]> c)
    as Hcases.
  { intros [video_id|d]; [right; by eexists|].
    destruct (apply_hook_cases d ∅) as [Hsame|(p & Hp & Hwhy)].
    - left. intros c'. simpl in *. unfold progress_hook in *.
      destruct (bool_decide _).
      + destruct (hook_total d); [|done].
        destruct (negb _); [|done]. destruct (hook_downloaded d); [|done].
        apply (f_equal (lookup (hook_video_id d))) in Hsame.
        by rewrite lookup_insert_eq, lookup_empty in Hsame.
      + destruct (bool_decide _); [|done].
        apply (f_equal (lookup (hook_video_id d))) in Hsame.
        by rewrite lookup_insert_eq, lookup_empty in Hsame.
    - right. destruct (updates_stores d) as (p' & _ & _ & Hall); [|by exists p'].
      destruct Hwhy as [(_ & _ & ?)|(_ & ? & total & downloaded & ? & ? & ? & _)];
        [by left | right]. split; [done|]. by exists total, downloaded. }
  destruct (Hcases w1) as [H1|[p1 H1]], (Hcases w2) as [H2|[p2 H2]];
    rewrite ?H1, ?H2; try done.
  by apply insert_insert_ne.
Qed.
(** * Further properties *)

(** ** What [sanitize_filename] returns *)

Lemma invalid_chars_false c :
  invalid_chars c = false <->
  (31 < c)%N /\ c ∉ py "<>:" ++ [34%N] ++ py "/\|?*".
Proof.
  unfold invalid_chars. rewrite orb_false_iff, N.leb_gt.
  split; intros [H1 H2]; (split; [done|]).
  - by apply bool_decide_eq_false_1 in H2.
  - by apply bool_decide_eq_false_2.
Qed.

(** X4: every result of [sanitize_filename] is a non-empty string of at most
    200 characters, without control characters and without any of the
    nine forbidden characters, whose only whitespace is the plain space,
    and which neither starts nor ends with whitespace. *)
Theorem sanitize_filename_safe s :
  sanitize_filename s <> []
  /\ (length (sanitize_filename s) <= 200)%nat
  /\ (forall c, c ∈ sanitize_filename s ->
        (31 < c)%N /\ c ∉ py "<>:" ++ [34%N] ++ py "/\|?*")
  /\ (forall c, c ∈ sanitize_filename s -> Str.is_space c = true -> c = 32%N)
  /\ (forall c, head (sanitize_filename s) = Some c -> Str.is_space c = false)
  /\ (forall c, last (sanitize_filename s) = Some c -> Str.is_space c = false).
Proof.
  destruct (sanitize_clean s) as [Hvalid Hspaced Hhead Hlast Hlen Hne].
  split; [done|]. split; [done|]. split; [|split; [|done]].
  - intros c Hc. apply invalid_chars_false.
    rewrite Forall_forall in Hvalid. by apply Hvalid.
  - intros c Hc Hsp. by eapply spaced_space.
Qed.

(** X5: a name that already has that shape and does not end with a period is
    returned unchanged. *)
Theorem sanitize_filename_keeps_valid t :
  t <> [] -> (length t <= 200)%nat ->
  (forall c, c ∈ t -> (31 < c)%N /\ c ∉ py "<>:" ++ [34%N] ++ py "/\|?*") ->
  spaced t ->
  (forall c, head t = Some c -> Str.is_space c = false) ->
  (forall c, last t = Some c -> Str.is_space c = false /\ c <> 46%N) ->
  sanitize_filename t = t.
Proof.
  intros Hne Hlen Hvalid Hspaced Hhead Hlast. apply clean_fixed.
  - split; [|done|done| |done|done].
    + apply Forall_forall. intros c Hc. by apply invalid_chars_false, Hvalid.
    + intros c Hc. by apply Hlast.
  - intros Hc. by destruct (Hlast _ Hc).
Qed.

Lemma spacedb_spaced s : spacedb s = true -> spaced s.
Proof.
  induction s as [|c r IH]; simpl; [done|].
  intros [Hc Hr]%andb_prop. split; [|by apply IH].
  intros Hsp. rewrite Hsp in Hc. simpl in Hc.
  apply andb_prop in Hc as [->%N.eqb_eq Hnext]. split; [done|].
  intros c' Hc'. destruct r as [|x r']; [done|].
  injection Hc' as ->. by apply negb_true_iff.
Qed.

Lemma valid_by_test t :
  forallb (fun c => negb (invalid_chars c)) t = true ->
  forall c, c ∈ t -> (31 < c)%N /\ c ∉ py "<>:" ++ [34%N] ++ py "/\|?*".
Proof.
  intros H c Hc. apply invalid_chars_false.
  rewrite forallb_forall in H. apply negb_true_iff, H. by apply list_elem_of_In.
Qed.

Lemma sanitize_filename_keeps_valid_witness :
  sanitize_filename (py "Never Gonna Give You Up") = py "Never Gonna Give You Up".
Proof.
  apply (sanitize_filename_keeps_valid (py "Never Gonna Give You Up")).
  - discriminate.
  - vm_compute. lia.
  - apply valid_by_test. vm_compute. reflexivity.
  - apply spacedb_spaced. vm_compute. reflexivity.
  - intros c [= <-]. reflexivity.
  - intros c [= <-]. split; [reflexivity | discriminate].
Defined.
(** ** The title and the template kept by [download_video] *)

Lemma rstrip_by_cons_nonempty p c r :
  p c = false -> Str.rstrip_by p (c :: r) <> [].
Proof. intros Hc. simpl. destruct (Str.rstrip_by p r); [by rewrite Hc | done]. Qed.

Lemma rstrip_take_prefix n t : Str.rstrip (take n t) `prefix_of` t.
Proof. etrans; [apply rstrip_by_prefix | apply prefix_take]. Qed.

Lemma rstrip_take_nonempty n t :
  (0 < n)%nat -> t <> [] ->
  (forall c, head t = Some c -> Str.is_space c = false) ->
  Str.rstrip (take n t) <> [].
Proof.
  intros Hn Ht Hhead. destruct t as [|c r]; [done|]. destruct n as [|n]; [lia|].
  apply rstrip_by_cons_nonempty. by apply Hhead.
Qed.

Lemma prefix_head_eq (a b : pystr) : a <> [] -> a `prefix_of` b -> head b = head a.
Proof. intros Ha [k ->]. by destruct a. Qed.

Lemma path_join_relative dir c name :
  c <> 47%N -> dir `prefix_of` path_join dir (c :: name).
Proof.
  intros Hc. unfold path_join.
  assert (Str.startswith (c :: name) (py "/") = false) as ->.
  { destruct (Str.startswith (c :: name) (py "/")) eqn:Hsw; [|done].
    apply startswith_spec in Hsw as [after Hsw].
    change (py "/") with [47%N] in Hsw. injection Hsw as -> _. done. }
  destruct (_ || _); [exists (c :: name); reflexivity|].
  exists (py "/" ++ c :: name). reflexivity.
Qed.

Lemma sanitized_title_clean info_title : clean (sanitized_title info_title).
Proof.
  unfold sanitized_title.
  destruct (get_default _ _); [apply sanitize_clean | apply clean_video].
Qed.

(** X6: for every directory, title and mode, the title kept by
    [download_video] is non-empty, has at most 150 characters, is the word
    [video] or a prefix of the sanitized title, and has no separator or
    other forbidden character; the template is that title and the suffix
    of the mode joined to the directory, and starts with the directory. *)
Theorem output_template_inside dir info_title is_audio_only :
  let title := (output_template dir info_title is_audio_only).1 in
  let outtmpl := (output_template dir info_title is_audio_only).2 in
  title <> []
  /\ (length title <= 150)%nat
  /\ (title = py "video" \/ title `prefix_of` sanitized_title info_title)
  /\ (forall c, c ∈ title -> (31 < c)%N /\ c ∉ py "<>:" ++ [34%N] ++ py "/\|?*")
  /\ outtmpl = outtmpl_for dir title is_audio_only
  /\ dir `prefix_of` outtmpl.
Proof.
  cbv zeta.
  pose proof (sanitized_title_clean info_title) as H0.
  assert (forall title,
            title <> [] -> (length title <= 150)%nat ->
            title = py "video" \/ title `prefix_of` sanitized_title info_title ->
            title <> [] /\ (length title <= 150)%nat
            /\ (title = py "video" \/ title `prefix_of` sanitized_title info_title)
            /\ (forall c, c ∈ title ->
                  (31 < c)%N /\ c ∉ py "<>:" ++ [34%N] ++ py "/\|?*")
            /\ outtmpl_for dir title is_audio_only = outtmpl_for dir title is_audio_only
            /\ dir `prefix_of` outtmpl_for dir title is_audio_only) as Hgood.
  { intros title Hne Hlen Hpre.
    assert (Forall (fun c => invalid_chars c = false) title) as Hvalid.
    { destruct Hpre as [->|[k Hk]]; [apply clean_video|].
      pose proof (clean_valid _ H0) as Hv. rewrite Hk in Hv.
      by apply Forall_app in Hv as [Hv _]. }
    repeat (split; [done|]). split; [|split; [done|]].
    - intros c Hc. apply invalid_chars_false.
      rewrite Forall_forall in Hvalid. by apply Hvalid.
    - destruct title as [|c title]; [done|].
      apply Forall_cons in Hvalid as [Hc _].
      assert (c <> 47%N) as Hsep by (intros ->; vm_compute in Hc; discriminate).
      unfold outtmpl_for.
      destruct is_audio_only; rewrite <- app_comm_cons; by apply path_join_relative. }
  unfold output_template. fold (sanitized_title info_title).
  set (title0 := sanitized_title info_title) in *.
  set (title1 := if (max_title_length <? length title0)%nat
                 then Str.rstrip (take max_title_length title0) else title0).
  assert (title1 <> [] /\ (length title1 <= 150)%nat /\ title1 `prefix_of` title0)
    as (Hne1 & Hlen1 & Hpre1).
  { unfold title1.
    destruct (Nat.ltb_spec max_title_length (length title0)) as [Hlong|Hshort].
    - split; [|split; [|apply rstrip_take_prefix]].
      + apply rstrip_take_nonempty; [unfold max_title_length; lia| |];
          by destruct H0.
      + etrans; [apply rstrip_by_length|]. rewrite length_take.
        unfold max_title_length. lia.
    - split; [by destruct H0|]. split; [done | reflexivity]. }
  destruct (250 <? length (test_path (outtmpl_for dir title1 is_audio_only)))%nat.
  2:{ simpl. apply Hgood; [done | done | by right]. }
  set (remaining := 250 - Z.of_nat (length dir) - 20).
  simpl. apply Hgood.
  - destruct (Z.ltb_spec 0 remaining) as [Hpos|Hneg]; [|discriminate].
    apply rstrip_take_nonempty; [lia | done |].
    rewrite <- (prefix_head_eq title1 title0) by done. by destruct H0.
  - destruct (Z.ltb_spec 0 remaining) as [Hpos|Hneg]; [|vm_compute; lia].
    pose proof (rstrip_take_prefix (Z.to_nat remaining) title1) as Hp.
    apply prefix_length in Hp. lia.
  - destruct (Z.ltb_spec 0 remaining) as [Hpos|Hneg]; [right | by left].
    etrans; [apply rstrip_take_prefix | done].
Qed.
(** ** File names and paths *)

Lemma basename_cons c r :
  basename (c :: r) = if bool_decide (47%N ∈ c :: r) then basename r else c :: r.
Proof. reflexivity. Qed.

Lemma basename_id f : 47%N ∉ f -> basename f = f.
Proof.
  destruct f as [|c r]; [done|]. intros H.
  by rewrite basename_cons, bool_decide_eq_false_2.
Qed.

Lemma basename_sep a f : 47%N ∉ f -> basename (a ++ 47%N :: f) = f.
Proof.
  intros Hf. induction a as [|x a IH].
  - rewrite app_nil_l, basename_cons, bool_decide_eq_true_2 by constructor.
    by apply basename_id.
  - rewrite <- app_comm_cons, basename_cons.
    rewrite bool_decide_eq_true_2; [done|].
    apply elem_of_cons. right. apply elem_of_app. right. constructor.
Qed.

Lemma basename_of_join dir f :
  47%N ∉ f -> basename (path_join dir f) = f.
Proof.
  intros Hf. unfold path_join.
  assert (Str.startswith f (py "/") = false) as ->.
  { destruct (Str.startswith f (py "/")) eqn:Hsw; [|done].
    apply startswith_spec in Hsw as [after ->]. destruct Hf. constructor. }
  destruct (bool_decide_reflect (dir = [])) as [->|Hdir]; simpl.
  { by apply basename_id. }
  destruct (bool_decide_reflect (last dir = Some 47%N)) as [Hlast|Hlast].
  - apply last_Some in Hlast as [d ->]. rewrite <- app_assoc. by apply basename_sep.
  - by apply basename_sep.
Qed.

(** X7: a name without a separator, joined to any directory, is recovered by
    [basename]. *)
Theorem basename_path_join dir f :
  47%N ∉ f -> basename (path_join dir f) = f.
Proof.
  intros Hf. unfold path_join.
  destruct (Str.startswith f (py "/")) eqn:Hsw.
  { apply startswith_spec in Hsw as [after ->]. destruct Hf. constructor. }
  destruct (bool_decide_reflect (dir = [])) as [->|Hdir]; simpl.
  { by apply basename_id. }
  destruct (bool_decide_reflect (last dir = Some 47%N)) as [Hlast|Hlast].
  - apply last_Some in Hlast as [d ->]. rewrite <- app_assoc. by apply basename_sep.
  - by apply basename_sep.
Qed.

Lemma basename_path_join_witness :
  (47%N ∉ py "My video_1080p.mp4")
  /\ basename (path_join (py "/srv/app/downloads") (py "My video_1080p.mp4"))
     = py "My video_1080p.mp4".
Proof.
  assert (47%N ∉ py "My video_1080p.mp4") as H by compute_done.
  split; [exact H|]. exact (basename_path_join _ _ H).
Defined.

(** ** The file found after a download *)

Lemma find_first {A} (p : A -> bool) before x after :
  (forall y, y ∈ before -> p y = false) -> p x = true ->
  find p (before ++ x :: after) = Some x.
Proof.
  intros Hb Hx. induction before as [|y before IH]; simpl; [by rewrite Hx|].
  rewrite Hb by constructor. apply IH. intros z Hz. apply Hb. by constructor.
Qed.

(** X8: the first listed name that contains the first 30 characters of the
    title is taken as the downloaded file, whatever follows it in the
    directory: when it exists, the response is a success carrying that
    name. *)
Theorem download_result_first_match dir path_exists video_id title before f after :
  (forall g, g ∈ before -> ~ occurs_in (take 30 title) g) ->
  occurs_in (take 30 title) f ->
  f <> [] -> 47%N ∉ f ->
  path_exists (path_join dir f) = true ->
  download_result dir (before ++ f :: after) path_exists video_id title
  = (JsonSuccess video_id f (py "Download concluído!"), 200).
Proof.
  intros Hbefore Hf Hne Hsep Hexists. unfold download_result, find_downloaded.
  rewrite (find_first _ before f after).
  - simpl. rewrite Hexists, basename_of_join by done.
    rewrite bool_decide_eq_true_2; [done|].
    intros Hnil. apply (f_equal basename) in Hnil.
    rewrite basename_of_join in Hnil by done. done.
  - intros g Hg. destruct (Str.contains g (take 30 title)) eqn:Hc; [|done].
    apply contains_spec in Hc. by destruct (Hbefore g Hg).
  - by apply contains_spec.
Qed.

Lemma download_result_first_match_witness :
  download_result (py "/srv/app/downloads")
    ([py "notes.txt"] ++ py "My video_720p.mp4" :: [py "My video_1080p.mp4"])
    (fun _ => true) (Some (py "dQw4w9WgXcQ")) (py "My video")
  = (JsonSuccess (Some (py "dQw4w9WgXcQ")) (py "My video_720p.mp4")
       (py "Download concluído!"), 200).
Proof.
  apply (download_result_first_match (py "/srv/app/downloads") (fun _ => true)
           (Some (py "dQw4w9WgXcQ")) (py "My video")
           [py "notes.txt"] (py "My video_720p.mp4") [py "My video_1080p.mp4"]).
  - intros g Hg Hocc. apply list_elem_of_singleton in Hg. subst g.
    apply contains_spec in Hocc. vm_compute in Hocc. discriminate.
  - apply contains_spec. vm_compute. reflexivity.
  - discriminate.
  - compute_done.
  - reflexivity.
Defined.

(** ** Serving what a download reported *)

Lemma find_some_elem_of {A} (p : A -> bool) l x :
  find p l = Some x -> x ∈ l /\ p x = true.
Proof.
  induction l as [|y l IH]; simpl; [done|].
  destruct (p y) eqn:Hy.
  - intros [= <-]. split; [constructor | done].
  - intros [Hx Hp]%IH. split; [by constructor | done].
Qed.

(** X9: when [download_video] reports a success over a directory whose names
    have no separator, the reported file name is one of the listed names,
    it contains the first 30 characters of the title, and [serve_file]
    asked for that name sends the very path that was found. *)
Theorem reported_file_is_served dir path_exists send_file listdir video_id title
    filename message :
  (forall f, f ∈ listdir -> 47%N ∉ f) ->
  download_result dir listdir path_exists video_id title
  = (JsonSuccess video_id filename message, 200) ->
  filename ∈ listdir
  /\ occurs_in (take 30 title) filename
  /\ find_downloaded dir listdir title = Some (path_join dir filename)
  /\ (send_file (path_join dir filename) = None ->
      serve_file dir path_exists send_file filename
      = Attachment (path_join dir filename) filename).
Proof.
  intros Hnames. unfold download_result, find_downloaded.
  destruct (find _ listdir) as [f|] eqn:Hfind; simpl; [|done].
  apply find_some_elem_of in Hfind as [Hf Hc].
  destruct (bool_decide _); simpl; [|done].
  destruct (path_exists (path_join dir f)) eqn:Hex; [|done].
  rewrite basename_of_join by by apply Hnames.
  intros [= <- <-]. split; [done|]. split; [by apply contains_spec|].
  split; [done|]. intros Hsend. unfold serve_file. by rewrite Hex, Hsend.
Qed.

Lemma reported_file_is_served_witness :
  serve_file (py "/srv/app/downloads") (fun _ => true) (fun _ => None)
    (py "My video_720p.mp4")
  = Attachment (py "/srv/app/downloads/My video_720p.mp4") (py "My video_720p.mp4").
Proof.
  destruct (reported_file_is_served (py "/srv/app/downloads") (fun _ => true)
              (fun _ => None) [py "notes.txt"; py "My video_720p.mp4"]
              (Some (py "dQw4w9WgXcQ")) (py "My video")
              (py "My video_720p.mp4") (py "Download concluído!"))
    as (_ & _ & _ & Hserve).
  - intros f Hf. apply (bool_decide_unpack _). revert f Hf.
    apply Forall_forall. compute_done.
  - vm_compute. reflexivity.
  - rewrite Hserve by reflexivity. vm_compute. reflexivity.
Defined.
(** ** Decimal text *)

Lemma py_cons_ascii c r :
  (N_of_ascii c < 128)%N -> py (String c r) = N_of_ascii c :: py r.
Proof.
  intros Hc. unfold py. simpl. by apply N.ltb_lt in Hc as ->.
Qed.

Lemma py_uint d :
  Forall (fun c => (48 <= c <= 57)%N) (py (DecimalString.NilEmpty.string_of_uint d))
  /\ unpy (py (DecimalString.NilEmpty.string_of_uint d))
     = DecimalString.NilEmpty.string_of_uint d.
Proof.
  induction d as [|d [IH1 IH2]|d [IH1 IH2]|d [IH1 IH2]|d [IH1 IH2]|d [IH1 IH2]
                  |d [IH1 IH2]|d [IH1 IH2]|d [IH1 IH2]|d [IH1 IH2]|d [IH1 IH2]];
    [by split|..];
    cbn [DecimalString.NilEmpty.string_of_uint];
    rewrite py_cons_ascii by (vm_compute; reflexivity);
    (split; [apply Forall_cons; split; [vm_compute; split; discriminate | done]
            |cbn [unpy]; by rewrite IH2]).
Qed.

(** The text of a non-negative integer is the digit string of a decimal
    number of that value. *)
Lemma str_of_Z_nonneg n :
  0 <= n ->
  exists d, str_of_Z n = py (DecimalString.NilEmpty.string_of_uint d)
            /\ Z.of_uint d = n.
Proof.
  intros Hn. unfold str_of_Z. destruct n as [|p|p]; [by exists (Decimal.D0 Decimal.Nil)| |lia].
  exists (Pos.to_uint p). split.
  - simpl. pose proof (DecimalPos.Unsigned.to_uint_nonnil p) as Hnil.
    by destruct (Pos.to_uint p).
  - unfold Z.of_uint. by rewrite DecimalPos.Unsigned.of_to.
Qed.

Lemma str_of_Z_chars n c :
  c ∈ str_of_Z n -> c = 45%N \/ (48 <= c <= 57)%N.
Proof.
  assert (forall m, 0 <= m -> forall c, c ∈ str_of_Z m -> (48 <= c <= 57)%N) as Hpos.
  { intros m Hm x Hx. destruct (str_of_Z_nonneg m Hm) as (d & Hd & _).
    rewrite Hd in Hx. destruct (py_uint d) as [Hall _].
    rewrite Forall_forall in Hall. by apply Hall. }
  destruct n as [|p|p].
  - intros Hc. right. by apply (Hpos 0).
  - intros Hc. right. by apply (Hpos (Z.pos p)).
  - unfold str_of_Z. simpl.
    pose proof (DecimalPos.Unsigned.to_uint_nonnil p) as Hnil.
    assert (DecimalString.NilZero.string_of_uint (Pos.to_uint p)
            = DecimalString.NilEmpty.string_of_uint (Pos.to_uint p)) as ->
      by (by destruct (Pos.to_uint p)).
    rewrite py_cons_ascii by (vm_compute; reflexivity).
    intros [->|Hc]%elem_of_cons; [by left|]. right.
    destruct (py_uint (Pos.to_uint p)) as [Hall _].
    rewrite Forall_forall in Hall. by apply Hall.
Qed.

Lemma digits_to_Z_str n : 0 <= n -> digits_to_Z (str_of_Z n) = Some n.
Proof.
  intros Hn. destruct (str_of_Z_nonneg n Hn) as (d & -> & <-).
  unfold digits_to_Z. destruct (py_uint d) as [_ ->].
  by rewrite DecimalString.NilEmpty.usu.
Qed.

Lemma digits_to_Z_pad2 n : 0 <= n -> digits_to_Z (pad2 n) = Some n.
Proof.
  intros Hn. unfold pad2. destruct (_ <? _)%nat; [|by apply digits_to_Z_str].
  destruct (str_of_Z_nonneg n Hn) as (d & -> & <-).
  unfold digits_to_Z. change (py "0") with [48%N]. cbn [app unpy].
  destruct (py_uint d) as [_ ->].
  change (ascii_of_N 48) with "0"%char. cbn [DecimalString.NilEmpty.uint_of_string].
  by rewrite DecimalString.NilEmpty.usu.
Qed.

Lemma pad2_chars n c : 0 <= n -> c ∈ pad2 n -> (48 <= c <= 57)%N.
Proof.
  intros Hn. unfold pad2.
  assert (forall x, x ∈ str_of_Z n -> (48 <= x <= 57)%N) as Hd.
  { intros x Hx. destruct (str_of_Z_nonneg n Hn) as (d & Hdd & _).
    rewrite Hdd in Hx. destruct (py_uint d) as [Hall _].
    rewrite Forall_forall in Hall. by apply Hall. }
  destruct (_ <? _)%nat; [|by apply Hd].
  change (py "0") with [48%N]. intros [->|Hc]%elem_of_cons; [lia | by apply Hd].
Qed.
(** ** [format_duration] *)

Lemma split_on_absent sep a : sep ∉ a -> split_on sep a = [a].
Proof.
  induction a as [|c a IH]; [done|]. intros [Hc Ha]%not_elem_of_cons. simpl.
  destruct (N.eqb_spec c sep); [congruence|]. by rewrite IH.
Qed.

Lemma split_on_app sep a b :
  sep ∉ a -> split_on sep (a ++ sep :: b) = a :: split_on sep b.
Proof.
  induction a as [|c a IH]; simpl.
  - intros _. by rewrite N.eqb_refl.
  - intros [Hc Ha]%not_elem_of_cons.
    destruct (N.eqb_spec c sep); [congruence|]. by rewrite IH.
Qed.

Lemma pad2_no_colon n : 0 <= n -> 58%N ∉ pad2 n.
Proof. intros Hn Hc. apply pad2_chars in Hc; [lia | done]. Qed.

(** X10: the text of a non-negative duration determines it: reading the fields
    of [format_duration] back as minutes and seconds, or hours, minutes
    and seconds, gives the seconds again, so no two non-negative durations
    share a text. *)
Theorem format_duration_read seconds :
  0 <= seconds ->
  read_duration (format_duration (Some seconds)) = Some seconds
  /\ forall other, 0 <= other ->
       format_duration (Some other) = format_duration (Some seconds) ->
       other = seconds.
Proof.
  assert (forall n, 0 <= n -> read_duration (format_duration (Some n)) = Some n) as Hread.
  { intros n Hn. unfold format_duration.
    destruct (Z.eqb_spec n 0) as [->|Hn0]; [vm_compute; reflexivity|].
    assert (0 <= n / 3600) as Hh by (apply Z.div_pos; lia).
    assert (0 <= n mod 3600 / 60) as Hm.
    { apply Z.div_pos; [|lia]. apply Z.mod_pos_bound. lia. }
    assert (0 <= n mod 60) as Hs by (apply Z.mod_pos_bound; lia).
    unfold read_duration. change (py ":") with [58%N]. cbn [app].
    destruct (0 <? n / 3600) eqn:Hhours.
    - rewrite !(split_on_app 58) by by apply pad2_no_colon.
      rewrite split_on_absent by by apply pad2_no_colon.
      cbn [mapM mbind option_bind mret option_ret].
      rewrite !digits_to_Z_pad2 by done. simpl. f_equal.
      pose proof (Z.mod_mod_divide n 3600 60 ltac:(by exists 60)).
      Z.div_mod_to_equations. lia.
    - rewrite !(split_on_app 58) by by apply pad2_no_colon.
      rewrite split_on_absent by by apply pad2_no_colon.
      cbn [mapM mbind option_bind mret option_ret].
      rewrite !digits_to_Z_pad2 by done. simpl. f_equal.
      apply Z.ltb_ge in Hhours.
      pose proof (Z.mod_mod_divide n 3600 60 ltac:(by exists 60)).
      Z.div_mod_to_equations. lia. }
  intros Hs. split; [by apply Hread|].
  intros other Ho Heq. apply Hread in Ho. rewrite Heq, Hread in Ho by done.
  by injection Ho.
Qed.

Lemma format_duration_read_witness :
  0 <= 3661
  /\ format_duration (Some 3661) = py "01:01:01"
  /\ read_duration (py "01:01:01") = Some 3661.
Proof.
  split; [lia|]. split; [vm_compute; reflexivity|].
  destruct (format_duration_read 3661 ltac:(lia)) as [Hread _].
  assert (format_duration (Some 3661) = py "01:01:01") as Hf by (vm_compute; reflexivity).
  rewrite Hf in Hread. exact Hread.
Defined.

Example format_duration_0 : format_duration (Some 0) = py "00:00".
Proof. vm_compute. reflexivity. Qed.

Example format_duration_65 : format_duration (Some 65) = py "01:05".
Proof. vm_compute. reflexivity. Qed.

Example format_duration_negative : format_duration (Some (-1)) = py "59:59".
Proof. vm_compute. reflexivity. Qed.
(** ** The quality label and the format selector *)

Lemma replace_char p s : Str.replace [p] [] s = filter (fun c => c <> p) s.
Proof.
  unfold Str.replace. induction s as [|c s IH]; [done|].
  rewrite replace_from_cons.
  destruct (Str.startswith (c :: s) [p]) eqn:Hsw.
  - apply startswith_spec in Hsw as [after Hsw]. injection Hsw as -> _.
    rewrite filter_cons_False by (intros H; by apply H).
    simpl. exact IH.
  - rewrite filter_cons_True; [by rewrite IH|].
    intros ->. assert (Str.startswith (p :: s) [p] = true) as Ht; [|congruence].
    apply startswith_spec. by exists s.
Qed.

Lemma filter_all_true {A} (P : A -> Prop) `{forall x, Decision (P x)} (l : list A) :
  (forall x, x ∈ l -> P x) -> filter P l = l.
Proof.
  induction l as [|x l IH]; [done|]. intros Hl.
  rewrite filter_cons_True by (apply Hl; constructor).
  f_equal. apply IH. intros y Hy. apply Hl. by constructor.
Qed.

(** X11: the quality label that [get_video_info] gives a height is turned by
    [download_video] into a selector that bounds the height by that same
    number. *)
Theorem format_str_of_label f h :
  format_str (quality (entry_of f h))
  = py "bestvideo[height<=" ++ str_of_Z h
    ++ py "]+bestaudio/best[height<=" ++ str_of_Z h ++ py "]/best".
Proof.
  unfold format_str.
  assert (Str.replace (py "p") [] (quality (entry_of f h)) = str_of_Z h) as ->; [|done].
  change (py "p") with [112%N]. rewrite replace_char. simpl.
  rewrite filter_app. change (py "p") with [112%N].
  rewrite filter_cons_False, filter_nil, app_nil_r by (intros H; by apply H).
  apply filter_all_true.
  intros c Hc ->. apply str_of_Z_chars in Hc. lia.
Qed.

(** ** The unit chosen by [format_size] *)

Lemma Qle_bool_div c x :
  Qle_bool c (x / 1024) = Qle_bool (c * 1024) x.
Proof.
  destruct (Qle_bool (c * 1024) x) eqn:H.
  - apply Qle_bool_iff in H. apply Qle_bool_iff. apply Qle_shift_div_l; [lra | done].
  - destruct (Qle_bool c (x / 1024)) eqn:H'; [|done].
    apply Qle_bool_iff in H'.
    assert (c * 1024 <= x)%Q as Hle; [|apply Qle_bool_iff in Hle; congruence].
    assert (x / 1024 * 1024 == x)%Q as Heq by (field; lra).
    lra.
Qed.

Lemma Qle_bool_Z c z n :
  (c == inject_Z z)%Q -> Qle_bool c (inject_Z n) = (z <=? n).
Proof.
  intros Hc. destruct (Z.leb_spec z n) as [H|H].
  - apply Qle_bool_iff. rewrite Zle_Qle in H. lra.
  - destruct (Qle_bool c (inject_Z n)) eqn:Hq; [|done].
    apply Qle_bool_iff in Hq. rewrite Zlt_Qlt in H. lra.
Qed.

Lemma format_size_loop_S fuel size unit_index :
  format_size_loop (S fuel) size unit_index
  = if Qle_bool 1024 size && (unit_index <? length units - 1)%nat
    then format_size_loop fuel (float_div size 1024) (S unit_index)
    else (size, unit_index).
Proof. reflexivity. Qed.

Lemma Qle_bool_comp c x y : (x == y)%Q -> Qle_bool c x = Qle_bool c y.
Proof.
  intros H. destruct (Qle_bool c y) eqn:Hy.
  - apply Qle_bool_iff in Hy. apply Qle_bool_iff. lra.
  - destruct (Qle_bool c x) eqn:Hx; [|done].
    apply Qle_bool_iff in Hx. assert (c <= y)%Q as Hle by lra.
    apply Qle_bool_iff in Hle. congruence.
Qed.

Lemma format_1f_comp x y : (x == y)%Q -> format_1f x = format_1f y.
Proof.
  intros H. unfold format_1f.
  rewrite (Qle_bool_comp 0 x y H), (round_half_even_comp (x * 10) (y * 10)); [done|].
  by rewrite H.
Qed.

(** An integer up to [2^53] is a float. *)
Lemma Z_binary64 n :
  Z.abs n <= 2 ^ 53 ->
  exists m e, Z.abs m < 2 ^ 53 /\ 0 <= e <= 1 /\ (inject_Z n == inject_Z m * pow2 e)%Q.
Proof.
  intros Hn. destruct (Z.eq_dec (Z.abs n) (2 ^ 53)) as [Heq|Hne].
  - assert (n = 2 ^ 53 \/ n = - 2 ^ 53) as [-> | ->] by lia.
    + exists (2 ^ 52), 1. split; [lia|]. split; [lia | reflexivity].
    + exists (- 2 ^ 52), 1. split; [lia|]. split; [lia | reflexivity].
  - exists n, 0. split; [lia|]. split; [lia|]. change (pow2 0) with 1%Q. ring.
Qed.

(** Dividing a float by 1024 is exact, as long as the result is not
    subnormal. *)
Lemma float_div_1024 x m e :
  Z.abs m < 2 ^ 53 -> -1064 <= e ->
  (x == inject_Z m * pow2 e)%Q ->
  (float_div x 1024 == x / 1024)%Q /\ (x / 1024 == inject_Z m * pow2 (e - 10))%Q.
Proof.
  intros Hm He Hx.
  assert (x / 1024 == inject_Z m * pow2 (e - 10))%Q as Hq.
  { rewrite Hx. replace (e - 10) with (e + -10) by lia. rewrite pow2_add.
    assert (pow2 (-10) == 1 # 1024)%Q as -> by reflexivity.
    field. }
  split; [|done]. unfold float_div.
  apply (rnd_representable _ m (e - 10)); [done | lia | done].
Qed.

(** X12: for a size of at most [2^53] bytes in magnitude, which every float
    operation of [format_size] leaves exact, the unit is chosen by the
    magnitude: bytes below 1024 (negative sizes too), KB below 1024^2, MB
    below 1024^3, and GB for everything from 1024^3 on, so a size of a
    terabyte or more is shown as a thousand or more GB; the number is the
    size divided by 1024 once per unit step, with one decimal. *)
Theorem format_size_units n :
  Z.abs n <= 2 ^ 53 ->
  format_size n =
    if n =? 0 then py "0 B"
    else if n <? 1024 then format_1f (inject_Z n) ++ py " B"
    else if n <? 1048576 then format_1f (inject_Z n / 1024) ++ py " KB"
    else if n <? 1073741824 then format_1f (inject_Z n / 1024 / 1024) ++ py " MB"
    else format_1f (inject_Z n / 1024 / 1024 / 1024) ++ py " GB".
Proof.
  intros Hn. unfold format_size. destruct (n =? 0); [done|].
  destruct (Z_binary64 n Hn) as (m & e & Hm & He & Hme).
  assert (rnd (inject_Z n) == inject_Z n)%Q as H0
    by (apply (rnd_representable _ m e); [done | lia | done]).
  set (s0 := rnd (inject_Z n)) in *.
  destruct (float_div_1024 s0 m e) as [H1 H1']; [done | lia | by rewrite H0 |].
  set (s1 := float_div s0 1024) in *.
  destruct (float_div_1024 s1 m (e - 10)) as [H2 H2'];
    [done | lia | by rewrite H1 |].
  set (s2 := float_div s1 1024) in *.
  destruct (float_div_1024 s2 m (e - 10 - 10)) as [H3 _];
    [done | lia | by rewrite H2 |].
  set (s3 := float_div s2 1024) in *.
  rewrite H0 in H1. rewrite H1 in H2. rewrite H2 in H3.
  change (length units - 1)%nat with 3%nat at 1.
  rewrite format_size_loop_S. fold s1.
  change (0 <? length units - 1)%nat with true. rewrite andb_true_r.
  rewrite (Qle_bool_comp _ _ _ H0), (Qle_bool_Z 1024 1024) by reflexivity.
  rewrite (Z.ltb_antisym 1024 n). destruct (1024 <=? n); cbn [negb].
  2:{ by rewrite (format_1f_comp _ _ H0). }
  rewrite format_size_loop_S. fold s2.
  change (1 <? length units - 1)%nat with true. rewrite andb_true_r.
  rewrite (Qle_bool_comp _ _ _ H1), Qle_bool_div, (Qle_bool_Z _ 1048576) by reflexivity.
  rewrite (Z.ltb_antisym 1048576 n). destruct (1048576 <=? n); cbn [negb].
  2:{ by rewrite (format_1f_comp _ _ H1). }
  rewrite format_size_loop_S. fold s3.
  change (2 <? length units - 1)%nat with true. rewrite andb_true_r.
  rewrite (Qle_bool_comp _ _ _ H2), !Qle_bool_div, (Qle_bool_Z _ 1073741824)
    by reflexivity.
  change (format_size_loop 0 s3 3) with (s3, 3%nat).
  rewrite (Z.ltb_antisym 1073741824 n). destruct (1073741824 <=? n); cbn [negb].
  - by rewrite (format_1f_comp _ _ H3).
  - by rewrite (format_1f_comp _ _ H2).
Qed.

Lemma format_size_units_witness :
  Z.abs 5497558138880 <= 2 ^ 53
  /\ format_size 5497558138880 = py "5120.0 GB".
Proof.
  assert (Z.abs 5497558138880 <= 2 ^ 53) as H by (by vm_compute).
  split; [exact H|].
  rewrite (format_size_units 5497558138880 H). vm_compute. reflexivity.
Defined.

(** Above [2^53] the size is first rounded to a float: one byte less than
    [2^60 + 3 * 2^28] is shown as that size, with the decimal 8 where the
    exact quotient would give 7. *)
Example format_size_rounded :
  format_size (2 ^ 60 + 3 * 2 ^ 28 - 1) = py "1073741824.8 GB"
  /\ format_1f (inject_Z (2 ^ 60 + 3 * 2 ^ 28 - 1) / 1024 / 1024 / 1024)
     = py "1073741824.7".
Proof. split; vm_compute; reflexivity. Qed.
(** ** The life of a cache entry *)

Lemma apply_write_keeps w c k : is_Some (c !! k) -> is_Some (apply_write c w !! k).
Proof.
  intros Hk. destruct (decide (write_key w = k)) as [<-|Hne].
  - destruct w as [video_id|d]; simpl in *.
    + unfold create. by rewrite lookup_insert_eq.
    + destruct (apply_hook_cases d c) as [Hsame|(p & Heq & _)]; simpl in *.
      * by rewrite Hsame.
      * rewrite Heq. by rewrite lookup_insert_eq.
  - by rewrite apply_write_other.
Qed.

Lemma run_keeps ws c k : is_Some (c !! k) -> is_Some (run ws c !! k).
Proof.
  unfold run. revert c. induction ws as [|w ws IH]; intros c Hk; simpl; [done|].
  apply IH. by apply apply_write_keeps.
Qed.

(** X13: no write ever removes an entry: an id that has an entry keeps one
    through every later sequence of job creations and hook calls. *)
Theorem entries_persist ws c k :
  is_Some (c !! k) -> is_Some (run ws c !! k).
Proof.
  unfold run. revert c. induction ws as [|w ws IH]; intros c Hk; simpl; [done|].
  apply IH. destruct (decide (write_key w = k)) as [<-|Hne].
  - destruct w as [video_id|d]; simpl in *.
    + unfold create. by rewrite lookup_insert_eq.
    + destruct (apply_hook_cases d c) as [Hsame|(p & Heq & _)]; simpl in *.
      * by rewrite Hsame.
      * rewrite Heq. by rewrite lookup_insert_eq.
  - by rewrite apply_write_other.
Qed.

Lemma entries_persist_witness :
  is_Some (create (Some (py "dQw4w9WgXcQ")) ∅ !! Some (py "dQw4w9WgXcQ"))
  /\ is_Some (run [Hook anonymous_half; Hook overshoot; Hook anonymous_finished]
                (create (Some (py "dQw4w9WgXcQ")) ∅) !! Some (py "dQw4w9WgXcQ")).
Proof.
  assert (is_Some (create (Some (py "dQw4w9WgXcQ")) ∅ !! Some (py "dQw4w9WgXcQ"))) as H.
  { eexists. vm_compute. reflexivity. }
  split; [exact H|]. exact (entries_persist _ _ _ H).
Defined.

Lemma run_app ws1 ws2 c : run (ws1 ++ ws2) c = run ws2 (run ws1 c).
Proof. unfold run. apply foldl_app. Qed.

(** X14: what a poll sees depends on the last write to its id alone: after a
    creation the record is [starting] at 0, after a storing hook event it
    is the record of that event, whatever the cache held and whatever was
    written before; so a job that was finished goes back to [starting] or
    [downloading] when it is written again. *)
Theorem last_write_wins ws c video_id :
  get_progress (run (ws ++ [Create (Some video_id)]) c) video_id
  = {| status := py "starting"; percent := 0; speed := Missing; eta := Missing |}
  /\ (forall d, hook_video_id d = Some video_id -> updates d ->
        get_progress (run (ws ++ [Hook d]) c) video_id
        = get_progress (run [Hook d] ∅) video_id
        /\ status (get_progress (run (ws ++ [Hook d]) c) video_id) = d_status d).
Proof.
  split.
  - rewrite run_app. unfold get_progress, run. simpl. unfold create.
    by rewrite lookup_insert_eq.
  - intros d Hid (p & _ & Hs & Hw)%updates_stores.
    rewrite run_app.
    change (run [Hook d] (run ws c)) with (apply_write (run ws c) (Hook d)).
    change (run [Hook d] ∅) with (apply_write ∅ (Hook d)).
    unfold get_progress. by rewrite !Hw, Hid, !lookup_insert_eq.
Qed.

Lemma last_write_wins_witness :
  hook_video_id anonymous_half = Some (py "unknown")
  /\ updates anonymous_half
  /\ get_progress (run ([Hook anonymous_finished] ++ [Hook anonymous_half]) ∅) (py "unknown")
     = {| status := py "downloading"; percent := Qmake 500 10;
          speed := Val 512%Q; eta := Val 2%Q |}.
Proof.
  assert (updates anonymous_half) as Hup.
  { right. split; [reflexivity|]. exists 2000%Q, 1000%Q.
    split; [reflexivity|]. split; reflexivity. }
  split; [reflexivity|]. split; [exact Hup|].
  destruct (last_write_wins [Hook anonymous_finished] ∅ (py "unknown")) as [_ Hhook].
  destruct (Hhook anonymous_half eq_refl Hup) as [Heq _].
  rewrite Heq. vm_compute. reflexivity.
Defined.

(** ** The reported percentage *)

(** X15: with one total, the stored percentage never decreases when the
    downloaded count grows; it is exactly 0 for a count of zero and
    exactly 100.0 for a count equal to the total. *)
Theorem percent_monotone d1 d2 c total downloaded1 downloaded2 :
  d_status d1 = py "downloading" -> d_status d2 = py "downloading" ->
  hook_total d1 = Some total -> hook_total d2 = Some total -> (0 < total)%Q ->
  hook_downloaded d1 = Some downloaded1 -> hook_downloaded d2 = Some downloaded2 ->
  (downloaded1 <= downloaded2)%Q ->
  exists p1 p2,
    progress_hook d1 c = Ok (<[hook_video_id d1 := p1]> c)
    /\ progress_hook d2 c = Ok (<[hook_video_id d2 := p2]> c)
    /\ (percent p1 <= percent p2)%Q
    /\ ((downloaded1 == 0)%Q -> percent p1 = Qmake 0 10)
    /\ ((downloaded2 == total)%Q -> percent p2 = Qmake 1000 10).
Proof.
  intros Hs1 Hs2 Ht1 Ht2 Hpos Hd1 Hd2 Hle.
  do 2 eexists.
  split; [by apply progress_hook_downloading|].
  split; [by apply progress_hook_downloading|].
  cbn [percent]. split; [|split].
  - apply round1_mono. by apply float_percent_mono.
  - apply float_percent_0.
  - by apply float_percent_100.
Qed.

Lemma percent_monotone_witness :
  exists p1 p2,
    progress_hook anonymous_half ∅ = Ok (<[Some (py "unknown") := p1]> ∅)
    /\ progress_hook anonymous_half ∅ = Ok (<[Some (py "unknown") := p2]> ∅)
    /\ (percent p1 <= percent p2)%Q.
Proof.
  destruct (percent_monotone anonymous_half anonymous_half ∅ 2000%Q 1000%Q 1000%Q)
    as (p1 & p2 & H1 & H2 & Hle & _); try reflexivity.
  - unfold Qle. simpl. lia.
  - exists p1, p2. split; [exact H1|]. split; [exact H2 | exact Hle].
Defined.

(** ** [cleanup_files] *)

Lemma cleanup_loop_app before rest count :
  Forall (fun e => forall s, e.2 <> Unremovable s) before ->
  cleanup_loop (before ++ rest) count
  = (filter (fun e => isfile e.2 = false) before
     ++ (cleanup_loop rest
           (count + Z.of_nat (length (filter (fun e => isfile e.2 = true) before)))).1,
     (cleanup_loop rest
        (count + Z.of_nat (length (filter (fun e => isfile e.2 = true) before)))).2).
Proof.
  intros Hall. revert count.
  induction Hall as [|[f n] before Hn Hall IH]; intros count.
  { simpl. rewrite Z.add_0_r. by destruct (cleanup_loop rest count). }
  destruct n as [|s|]; cbn [app cleanup_loop].
  - rewrite IH. rewrite filter_cons_False by done. rewrite filter_cons_True by done.
    cbn [length].
    replace (count + 1 + Z.of_nat (length (filter (fun e => isfile e.2 = true) before)))
      with (count + Z.of_nat (S (length (filter (fun e => isfile e.2 = true) before))))
      by lia.
    done.
  - by destruct (Hn s).
  - rewrite IH. rewrite filter_cons_True by done.
    by rewrite (filter_cons_False (fun e => isfile e.2 = true)) by done.
Qed.

Lemma filter_filter_none {A} (P Q : A -> Prop)
    `{forall x, Decision (P x)} `{forall x, Decision (Q x)} (l : list A) :
  (forall x, P x -> ~ Q x) -> filter Q (filter P l) = [].
Proof.
  intros HPQ. induction l as [|x l IH]; [done|].
  destruct (decide (P x)) as [HP|HP].
  - rewrite (filter_cons_True P) by done. rewrite filter_cons_False; [done|].
    by apply HPQ.
  - by rewrite (filter_cons_False P).
Qed.

(** X16: when every regular file can be removed, [cleanup_files] leaves exactly
    the entries that are not regular files, in their order, and reports
    the number of regular files; run again on what it left, it removes
    nothing and reports 0. *)
Theorem cleanup_files_removes_all entries :
  (forall e, e ∈ entries -> forall s, e.2 <> Unremovable s) ->
  cleanup_files entries
  = (filter (fun e => isfile e.2 = false) entries,
     CleanupMessage
       (str_of_Z (Z.of_nat (length (filter (fun e => isfile e.2 = true) entries)))
        ++ py " arquivos removidos"))
  /\ cleanup_files (cleanup_files entries).1
     = ((cleanup_files entries).1, CleanupMessage (py "0 arquivos removidos")).
Proof.
  intros Hall. apply Forall_forall in Hall.
  assert (forall l, Forall (fun e : pystr * node => forall s, e.2 <> Unremovable s) l ->
            cleanup_files l
            = (filter (fun e => isfile e.2 = false) l,
               CleanupMessage
                 (str_of_Z (Z.of_nat (length (filter (fun e => isfile e.2 = true) l)))
                  ++ py " arquivos removidos"))) as Hrun.
  { intros l Hl. unfold cleanup_files.
    pose proof (cleanup_loop_app l [] 0 Hl) as Happ.
    rewrite app_nil_r in Happ. rewrite Happ. simpl. by rewrite app_nil_r. }
  split; [by apply Hrun|].
  rewrite (Hrun entries Hall). cbn [fst].
  rewrite Hrun.
  - rewrite (filter_filter_none (fun e : pystr * node => isfile e.2 = false)
              (fun e => isfile e.2 = true))
      by (intros x Hx; rewrite Hx; discriminate).
    f_equal. apply filter_all_true. by intros x [Hx _]%list_elem_of_filter.
  - apply Forall_forall. intros e [He _]%list_elem_of_filter s Hs.
    by rewrite Hs in He.
Qed.

Lemma cleanup_files_removes_all_witness :
  cleanup_files [(py "a.mp4", RegularFile); (py "partial", NotAFile);
                 (py "b.mp3", RegularFile)]
  = ([(py "partial", NotAFile)], CleanupMessage (py "2 arquivos removidos")).
Proof.
  destruct (cleanup_files_removes_all
              [(py "a.mp4", RegularFile); (py "partial", NotAFile);
               (py "b.mp3", RegularFile)]) as [Hrun _].
  - intros e He s Hs.
    repeat (apply elem_of_cons in He as [->|He]; [discriminate|]).
    by apply elem_of_nil in He.
  - rewrite Hrun. vm_compute. reflexivity.
Defined.

(** X17: a regular file that cannot be removed stops [cleanup_files]: the
    response is a 500 with the text of the exception, the regular files
    listed before it are gone, and it and everything listed after it are
    still there. *)
Theorem cleanup_files_stops before f str_e rest :
  (forall e, e ∈ before -> forall s, e.2 <> Unremovable s) ->
  cleanup_files (before ++ (f, Unremovable str_e) :: rest)
  = (filter (fun e => isfile e.2 = false) before ++ (f, Unremovable str_e) :: rest,
     CleanupError str_e 500).
Proof.
  intros Hall. apply Forall_forall in Hall. unfold cleanup_files.
  by rewrite (cleanup_loop_app before _ 0 Hall).
Qed.

Lemma cleanup_files_stops_witness :
  cleanup_files ([(py "a.mp4", RegularFile)]
                 ++ (py "b.mp4", Unremovable (py "[Errno 13] Permission denied"))
                 :: [(py "c.mp4", RegularFile)])
  = ([(py "b.mp4", Unremovable (py "[Errno 13] Permission denied"));
      (py "c.mp4", RegularFile)],
     CleanupError (py "[Errno 13] Permission denied") 500).
Proof.
  rewrite (cleanup_files_stops [(py "a.mp4", RegularFile)]).
  - vm_compute. reflexivity.
  - intros e He s Hs. apply list_elem_of_singleton in He. subst e. discriminate.
Defined.

(** X18: whatever the directory holds, [cleanup_files] adds nothing to it and
    removes nothing but regular files. *)
Theorem cleanup_files_only_files entries :
  (cleanup_files entries).1 `sublist_of` entries
  /\ forall e, e ∈ entries -> e.2 <> RegularFile -> e ∈ (cleanup_files entries).1.
Proof.
  assert (forall count,
            (cleanup_loop entries count).1 `sublist_of` entries
            /\ forall e, e ∈ entries -> e.2 <> RegularFile ->
                 e ∈ (cleanup_loop entries count).1) as Hloop.
  { induction entries as [|[f n] entries IH]; intros count.
    { split; [done|]. by intros e ?%elem_of_nil. }
    destruct n as [|s|]; cbn [cleanup_loop].
    - destruct (IH (count + 1)) as [IH1 IH2]. split; [by apply sublist_cons|].
      intros e [->|He]%elem_of_cons Hn; [done | by apply IH2].
    - split; [done|]. by intros e He _.
    - destruct (IH count) as [IH1 IH2].
      destruct (cleanup_loop entries count) as [remaining outcome].
      split; [by apply sublist_skip|].
      intros e [->|He]%elem_of_cons Hn; [constructor | constructor; by apply IH2]. }
  unfold cleanup_files. destruct (Hloop 0) as [H1 H2].
  destruct (cleanup_loop entries 0) as [remaining [count|str_e]]; done.
Qed.
(** ** The two endpoints *)

Lemma lstrip_by_nil p s : Str.lstrip_by p s = [] <-> forall c, c ∈ s -> p c = true.
Proof.
  induction s as [|x s IH]; simpl.
  - split; [by intros _ c ?%elem_of_nil | done].
  - destruct (p x) eqn:Hx.
    + rewrite IH. split.
      * intros H c [->|Hc]%elem_of_cons; [done | by apply H].
      * intros H c Hc. apply H. by constructor.
    + split; [done|]. intros H. rewrite H in Hx by constructor. done.
Qed.

Lemma rstrip_by_nil p s : Str.rstrip_by p s = [] -> forall c, c ∈ s -> p c = true.
Proof.
  induction s as [|x s IH]; simpl; [by intros _ c ?%elem_of_nil|].
  destruct (Str.rstrip_by p s) eqn:Hr; [|done].
  destruct (p x) eqn:Hx; [|done].
  intros _ c [->|Hc]%elem_of_cons; [done | by apply IH].
Qed.

Lemma strip_nil s : Str.strip s = [] <-> forall c, c ∈ s -> Str.is_space c = true.
Proof.
  unfold Str.strip. split.
  - intros H. apply lstrip_by_nil.
    destruct (Str.lstrip_by Str.is_space s) as [|x m] eqn:Hm; [done|].
    pose proof (rstrip_by_nil _ _ H x ltac:(constructor)) as Hx.
    pose proof (lstrip_by_head Str.is_space s x) as Hh. rewrite Hm in Hh.
    rewrite Hh in Hx by done. done.
  - intros H. apply lstrip_by_nil in H. by rewrite H.
Qed.

(** X19: a request without a url, or with a url of whitespace only, is answered
    by both endpoints with status 400 and [URL não fornecida]; and
    [download_video] leaves the cache as it was. *)
Theorem blank_url_rejected dir p type_error path_exists data c :
  q_url data = Missing
  \/ (exists url, q_url data = Val url /\ forall x, x ∈ url -> Str.is_space x = true) ->
  get_video_info p type_error (q_url data) = (InfoError (py "URL não fornecida"), 400)
  /\ download_video dir p path_exists data c
     = (c, (JsonError (py "URL não fornecida"), 400)).
Proof.
  unfold get_video_info, download_video.
  intros [->|(url & -> & Hblank%strip_nil)]; simpl; [done|]. by rewrite Hblank.
Qed.

Lemma blank_url_rejected_witness :
  download_video (py "/srv/app/downloads")
    {| extract_info := fun _ _ => Raises (OtherException []);
       download := fun _ _ => ([], Raised (OtherException [])) |}
    (fun _ => true)
    {| q_url := Val (py "   "); q_format_id := Missing;
       q_quality := Val (py "720p"); q_audio_only := Missing |} ∅
  = (∅, (JsonError (py "URL não fornecida"), 400)).
Proof.
  refine (proj2 (blank_url_rejected (py "/srv/app/downloads") _ [] (fun _ => true)
                   {| q_url := Val (py "   "); q_format_id := Missing;
                      q_quality := Val (py "720p"); q_audio_only := Missing |} ∅ _)).
  right. exists (py "   "). split; [reflexivity|].
  intros x Hx. repeat (apply elem_of_cons in Hx as [->|Hx]; [reflexivity|]).
  by apply elem_of_nil in Hx.
Defined.

(** X20: a success body of [get_video_info] always has status 200 and comes
    from a non-blank url for which the provider returned metadata; its
    formats are the ranked list of the provider's formats, so they end
    with the audio option after at most seven video entries of strictly
    decreasing target heights. *)
Theorem get_video_info_result p type_error url result status :
  get_video_info p type_error url = (InfoResult result, status) ->
  status = 200
  /\ (exists u info formats,
        get_default url [] = Some u /\ Str.strip u <> []
        /\ extract_info p (Some false) (Str.strip u) = Returns info
        /\ get_default (i_formats info) [] = Some formats
        /\ final_formats formats = Ok (r_formats result)
        /\ r_id result = get (i_id info)
        /\ r_duration_str result = format_duration (get_default (i_duration info) 0))
  /\ (exists videos,
        r_formats result = videos ++ [audio_option]
        /\ height <$> videos `sublist_of` target_heights
        /\ (length (r_formats result) <= 8)%nat).
Proof.
  unfold get_video_info.
  destruct (get_default url []) as [u|] eqn:Hu; [|done].
  destruct (Str.strip u) as [|x u'] eqn:Hstrip; [done|].
  destruct (extract_info p (Some false) (x :: u')) as [info|[e|errno e|e]] eqn:Hex;
    [|done..].
  destruct (get_default (i_formats info) []) as [formats|] eqn:Hf; [|done].
  destruct (final_formats formats) as [final|[]] eqn:Hfinal; [|done].
  intros [= <- <-]. split; [done|]. split.
  - exists u, info, formats. rewrite Hstrip. by repeat split.
  - cbn [r_formats]. apply final_formats_Ok in Hfinal as (d & _ & ->).
    exists (select_targets target_heights (sort_desc d.*2)).
    pose proof (select_targets_heights target_heights (sort_desc d.*2)) as Hsub.
    split; [done|]. split; [done|].
    apply sublist_length in Hsub. rewrite length_fmap in Hsub.
    rewrite length_app. simpl in *. lia.
Qed.
Lemma get_video_info_result_witness :
  exists result,
    get_video_info sample_provider [] (q_url sample_request) = (InfoResult result, 200)
    /\ r_duration_str result = py "03:32"
    /\ (length (r_formats result) <= 8)%nat.
Proof.
  eexists. split; [vm_compute; reflexivity|]. split; [vm_compute; reflexivity|].
  match goal with
  | |- (length (r_formats ?r) <= 8)%nat =>
      destruct (get_video_info_result sample_provider [] (q_url sample_request) r 200)
        as (_ & _ & videos & _ & _ & Hlen)
  end.
  - vm_compute. reflexivity.
  - exact Hlen.
Defined.

(** ** Jobs registered by [download_video] *)

Lemma apply_write_registered w c k : registered c k -> registered (apply_write c w) k.
Proof.
  intros Hk. destruct (decide (write_key w = k)) as [<-|Hne].
  - destruct w as [video_id|d]; simpl in *.
    + eexists. unfold create. rewrite lookup_insert_eq. split; [done|]. by left.
    + destruct (apply_hook_cases d c) as [Hsame|(p & Heq & Hp)]; simpl in *.
      * by rewrite Hsame.
      * rewrite Heq. exists p. rewrite lookup_insert_eq. split; [done|].
        destruct Hp as [(Hs & _)|(Hs & _)]; tauto.
  - destruct Hk as (p & Hp & Hs). exists p. by rewrite apply_write_other.
Qed.

Lemma run_registered ws c k : registered c k -> registered (run ws c) k.
Proof.
  unfold run. revert c. induction ws as [|w ws IH]; intros c Hk; simpl; [done|].
  apply IH. by apply apply_write_registered.
Qed.

Lemma registered_known c v : registered c (Some v) -> get_progress c v <> unknown_progress.
Proof.
  intros (p & Hp & Hs). unfold get_progress. rewrite Hp. simpl.
  intros ->. destruct Hs as [Hs|[Hs|Hs]]; vm_compute in Hs; discriminate.
Qed.

(** X21: once the provider has resolved the url of a well-formed request, the
    job is registered whatever happens next: however the download goes and
    whatever events it sends, the cache left by [download_video] has an
    entry for the id of the video, with status [starting], [downloading]
    or [finished], so that polling it no longer answers [unknown]. *)
Theorem download_video_registers dir p path_exists data c u info v :
  get_default (q_url data) [] = Some u -> Str.strip u <> [] ->
  (get_default (q_audio_only data) false = Some true
   \/ exists quality, get_default (q_quality data) (py "best") = Some quality) ->
  extract_info p None (Str.strip u) = Returns info ->
  get (i_id info) = Some v ->
  registered (download_video dir p path_exists data c).1 (Some v)
  /\ get_progress (download_video dir p path_exists data c).1 v <> unknown_progress.
Proof.
  intros Hu Hstrip Hopts Hex Hv.
  assert (registered (download_video dir p path_exists data c).1 (Some v)) as Hreg;
    [|split; [done | by apply registered_known]].
  unfold download_video. rewrite Hu.
  destruct (Str.strip u) as [|x u'] eqn:Hs; [done|].
  set (is_audio_only := default false (get_default (q_audio_only data) false)).
  destruct (if is_audio_only then Some audio_opts
            else video_opts <$> get_default (q_quality data) (py "best"))
    as [opts|] eqn:Ho.
  2:{ destruct Hopts as [Ha|[quality Hq]].
      - unfold is_audio_only in Ho. by rewrite Ha in Ho.
      - rewrite Hq in Ho. by destruct is_audio_only. }
  rewrite Hex, Hv.
  destruct (output_template dir (i_title info) is_audio_only) as [title outtmpl].
  destruct (download p (opts outtmpl) (x :: u')) as [events outcome].
  cbn [fst]. apply run_registered.
  eexists. unfold create. rewrite lookup_insert_eq. split; [done|]. by left.
Qed.

Lemma download_video_registers_witness :
  get_progress
    (download_video (py "/srv/app/downloads") sample_provider (fun _ => true)
       sample_request ∅).1 (py "dQw4w9WgXcQ")
  <> unknown_progress.
Proof.
  refine (proj2 (download_video_registers (py "/srv/app/downloads") sample_provider
                   (fun _ => true) sample_request ∅
                   (py " https://youtu.be/dQw4w9WgXcQ ") sample_info (py "dQw4w9WgXcQ")
                   eq_refl _ _ eq_refl eq_refl)).
  - vm_compute. discriminate.
  - right. exists (py "1080p"). reflexivity.
Defined.

(** X22: [download_video] writes to the cache only after the provider has
    resolved a non-blank url, and it never drops an entry: a blank url, a
    missing quality or a failing [extract_info] leave the cache as it was,
    and the failure of [extract_info] is answered by the handlers. *)
Theorem download_video_cache dir p path_exists data c :
  ((download_video dir p path_exists data c).1 <> c ->
   exists u info,
     get_default (q_url data) [] = Some u /\ Str.strip u <> []
     /\ extract_info p None (Str.strip u) = Returns info)
  /\ (forall k, is_Some (c !! k) ->
        is_Some ((download_video dir p path_exists data c).1 !! k))
  /\ (forall u e quality,
        get_default (q_url data) [] = Some u -> Str.strip u <> [] ->
        get_default (q_quality data) (py "best") = Some quality ->
        extract_info p None (Str.strip u) = Raises e ->
        download_video dir p path_exists data c = (c, download_except e)).
Proof.
  unfold download_video. split; [|split].
  - destruct (get_default (q_url data) []) as [u|]; [|done].
    destruct (Str.strip u) as [|x u'] eqn:Hs; [done|].
    destruct (if default false (get_default (q_audio_only data) false)
              then Some audio_opts
              else video_opts <$> get_default (q_quality data) (py "best"))
      as [opts|]; [|done].
    destruct (extract_info p None (x :: u')) as [info|e] eqn:Hex; [|done].
    intros _. exists u, info. by rewrite Hs.
  - intros k Hk.
    destruct (get_default (q_url data) []) as [u|]; [|done].
    destruct (Str.strip u) as [|x u']; [done|].
    destruct (if default false (get_default (q_audio_only data) false)
              then Some audio_opts
              else video_opts <$> get_default (q_quality data) (py "best"))
      as [opts|]; [|done].
    destruct (extract_info p None (x :: u')) as [info|e]; [|done].
    destruct (output_template _ _ _) as [title outtmpl].
    destruct (download p (opts outtmpl) (x :: u')) as [events outcome].
    cbn [fst]. apply run_keeps.
    unfold create. destruct (decide (get (i_id info) = k)) as [->|Hne].
    + by rewrite lookup_insert_eq.
    + by rewrite lookup_insert_ne.
  - intros u e quality -> Hs Hq Hex.
    destruct (Str.strip u) as [|x u']; [done|].
    rewrite Hq, Hex. by destruct (default false _).
Qed.

Lemma download_video_cache_witness :
  download_video (py "/srv/app/downloads") failing_provider (fun _ => true)
    sample_request (create (Some (py "older")) ∅)
  = (create (Some (py "older")) ∅,
     (JsonError (py "Erro no download: ERROR: Video unavailable"), 400)).
Proof.
  destruct (download_video_cache (py "/srv/app/downloads") failing_provider
              (fun _ => true) sample_request (create (Some (py "older")) ∅))
    as (_ & _ & Hfail).
  rewrite (Hfail (py " https://youtu.be/dQw4w9WgXcQ ")
             (DownloadError (py "ERROR: Video unavailable")) (py "1080p")).
  - vm_compute. reflexivity.
  - reflexivity.
  - vm_compute. discriminate.
  - reflexivity.
  - reflexivity.
Defined.
(** ** More on the ranked list *)

Lemma select_targets_from targets formats t :
  t ∈ select_targets targets formats ->
  exists e, e ∈ formats /\ t = without_vbr e /\ height e ∈ targets.
Proof.
  induction targets as [|target targets IH]; simpl; [by intros ?%elem_of_nil|].
  destruct (find (fun f => height f =? target) formats) as [e|] eqn:Hfind.
  - intros [->|Ht]%elem_of_cons.
    + apply find_height in Hfind as [He Hh]. exists e. rewrite Hh.
      split; [done|]. split; [done | constructor].
    + destruct (IH Ht) as (e' & ? & ? & ?). exists e'.
      split; [done|]. split; [done | by constructor].
  - intros Ht. destruct (IH Ht) as (e' & ? & ? & ?). exists e'.
    split; [done|]. split; [done | by constructor].
Qed.

(** X23: no entry is invented: every entry of a returned list other than the
    audio option is the entry of a descriptor of the input that passes the
    filters, with that descriptor's height, id, extension and size, and
    its height is one of the seven targets. *)
Theorem final_formats_from_input formats l t :
  final_formats formats = Ok l -> t ∈ l -> t <> audio_option ->
  exists r, r ∈ formats /\ survives r (height t)
    /\ t = without_vbr (entry_of r (height t))
    /\ height t ∈ target_heights.
Proof.
  intros (d & Hgroup & ->)%final_formats_Ok Ht Haudio.
  apply elem_of_app in Ht as [Ht|Ht%list_elem_of_singleton]; [|done].
  apply select_targets_from in Ht as (e & He & -> & Hh).
  apply sort_desc_elem_of, list_elem_of_fmap in He as ([k e'] & -> & Hke).
  pose proof (group_formats_grouped [] [] formats d grouped_nil Hgroup) as Hd.
  rewrite app_nil_l in Hd.
  apply dict_elem_of_get in Hke; [|by destruct Hd].
  destruct (grouped_entry _ _ Hd k e' Hke) as (r & Hr & Hrs & -> & _).
  exists r. simpl in *. done.
Qed.

Lemma final_formats_from_input_witness :
  exists r, r ∈ scenario /\ survives r 1080
    /\ without_vbr (entry_of (video_format 1080 8000 "299") 1080)
       = without_vbr (entry_of r 1080).
Proof.
  destruct (final_formats_from_input scenario
              [without_vbr (entry_of (video_format 1080 8000 "299") 1080);
               without_vbr (entry_of (video_format 720 3000 "136") 720);
               without_vbr (entry_of (video_format 360 1000 "134") 360);
               audio_option]
              (without_vbr (entry_of (video_format 1080 8000 "299") 1080)))
    as (r & Hr & Hs & Heq & _).
  - vm_compute. reflexivity.
  - constructor.
  - intros H. apply (f_equal height) in H. discriminate.
  - exists r. split; [exact Hr|]. split; [exact Hs | exact Heq].
Defined.

Lemma group_step_filtered d f : passes_filters f = false -> group_step d f = Ok d.
Proof.
  unfold passes_filters, group_step. destruct (bool_decide _); [done|]. simpl.
  destruct (get (f_height f)) as [h|]; [|done]. by intros ->%negb_false_iff.
Qed.

(** X24: descriptors without a video stream or without a height have no
    influence: the result, an exception included, is that of the list
    without them. *)
Theorem final_formats_ignores_filtered formats :
  final_formats (filter (fun f => passes_filters f = true) formats)
  = final_formats formats.
Proof.
  assert (forall d,
            group_formats d (filter (fun f => passes_filters f = true) formats)
            = group_formats d formats) as Hgroup.
  { induction formats as [|f formats IH]; intros d; [done|].
    destruct (passes_filters f) eqn:Hf.
    - rewrite filter_cons_True by done. simpl.
      destruct (group_step d f); simpl; [apply IH | done].
    - rewrite filter_cons_False by (by rewrite Hf). simpl.
      rewrite group_step_filtered by done. apply IH. }
  unfold final_formats. by rewrite Hgroup.
Qed.

(** ** Finding the file that was written *)

(** X25: when the directory lists a name that starts with the title kept by
    [download_video] and every listed path exists, the lookup does not
    fail: the response is a success for the first listed name that
    contains the first 30 characters of the title. *)
Theorem download_result_finds_written dir path_exists video_id title listdir f :
  f ∈ listdir -> title `prefix_of` f ->
  (forall g, g ∈ listdir ->
     g <> [] /\ (47%N ∉ g) /\ path_exists (path_join dir g) = true) ->
  exists g, g ∈ listdir /\ occurs_in (take 30 title) g
    /\ download_result dir listdir path_exists video_id title
       = (JsonSuccess video_id g (py "Download concluído!"), 200).
Proof.
  intros Hf [rest ->] Hlist. unfold download_result, find_downloaded.
  destruct (find (fun g => Str.contains g (take 30 title)) listdir) as [g|] eqn:Hfind.
  - apply find_some_elem_of in Hfind as [Hg Hc].
    destruct (Hlist g Hg) as (Hne & Hsep & Hex).
    exists g. split; [done|]. split; [by apply contains_spec|].
    simpl. rewrite Hex, basename_of_join by done.
    rewrite bool_decide_eq_true_2; [done|].
    intros Hnil. apply (f_equal basename) in Hnil.
    rewrite basename_of_join in Hnil by done. done.
  - exfalso.
    assert (Str.contains (title ++ rest) (take 30 title) = true) as Hc.
    { apply contains_spec. exists [], (drop 30 title ++ rest).
      by rewrite app_nil_l, app_assoc, take_drop. }
    clear -Hfind Hf Hc. induction listdir as [|x listdir IH]; [by apply elem_of_nil in Hf|].
    simpl in Hfind. destruct (Str.contains x (take 30 title)) eqn:Hx; [done|].
    apply elem_of_cons in Hf as [<-|Hf]; [congruence | by apply IH].
Qed.

Lemma download_result_finds_written_witness :
  exists g,
    download_result (py "/srv/app/downloads") [py "notes.txt"; py "My video_1080p.mp4"]
      (fun _ => true) None (py "My video")
    = (JsonSuccess None g (py "Download concluído!"), 200).
Proof.
  destruct (download_result_finds_written (py "/srv/app/downloads") (fun _ => true)
              None (py "My video") [py "notes.txt"; py "My video_1080p.mp4"]
              (py "My video_1080p.mp4")) as (g & _ & _ & Hres).
  - constructor. constructor.
  - exists (py "_1080p.mp4"). vm_compute. reflexivity.
  - intros g Hg.
    repeat (apply elem_of_cons in Hg as [->|Hg];
            [split; [discriminate|]; split; [compute_done | reflexivity]|]).
    by apply elem_of_nil in Hg.
  - exists g. exact Hres.
Defined.

(** ** Witnesses of earlier properties *)

Lemma sanitize_idempotent_unless_period_witness :
  last (sanitize_filename (py "  a/b:c  ")) <> Some 46%N
  /\ sanitize_filename (sanitize_filename (py "  a/b:c  "))
     = sanitize_filename (py "  a/b:c  ").
Proof.
  assert (last (sanitize_filename (py "  a/b:c  ")) <> Some 46%N) as H
    by (vm_compute; discriminate).
  split; [exact H|]. exact (sanitize_idempotent_unless_period _ H).
Defined.

Lemma final_formats_returns_witness : exists l, final_formats scenario = Ok l.
Proof.
  apply (final_formats_returns scenario).
  intros f Hf.
  repeat (apply elem_of_cons in Hf as [->|Hf]; [discriminate|]).
  by apply elem_of_nil in Hf.
Defined.

Lemma writes_commute_witness :
  apply_write (apply_write ∅ (Hook overshoot)) (Hook anonymous_finished)
  = apply_write (apply_write ∅ (Hook anonymous_finished)) (Hook overshoot).
Proof.
  apply (writes_commute (Hook overshoot) (Hook anonymous_finished) ∅).
  vm_compute. discriminate.
Defined.
